(** * Record reconciliation and temporal inference of [ufc_scraper_FIXED.py]

    A shallow embedding of the reconciliation core of the scraper: name and
    date normalisation, the merge key, the field-wise merge of rows, the
    knowledge-base selection functions, the running win/loss counters and
    the activity flag.

    Modelling conventions.
    - A Python [str] is a [string] holding its UTF-8 bytes.  Comparison of
      byte strings coincides with Python's code-point comparison.  Case
      mapping ([lower], [casefold]) and the whitespace class ([strip],
      [\s]) are the ASCII ones, so the model is exact on ASCII text.
    - A row (a Python [dict] from column name to value) is a
      [gmap string pyval]; a value is [None] or a [str].
    - A [datetime.date] is a record of year, month and day; [date.min] is
      0001-01-01. *)

From Stdlib Require Import ZArith Ascii String List Bool Lia DecimalString.
From Stdlib Require Decimal DecimalPos DecimalZ OrderedTypeEx.
From stdpp Require Import gmap strings list fin_maps sorting.

Local Open Scope Z_scope.

(* ===================================================================== *)
(** * Part I: definitions                                                 *)
(* ===================================================================== *)

(** ** Python string primitives *)

Module Py.

(** [str.isspace] on one ASCII character: TAB..CR, FS..US and SPACE.
    The same class is matched by [\s] in a [str] pattern. *)
Definition isspace (c : ascii) : bool :=
  let n := N_of_ascii c in
  (((9 <=? n) && (n <=? 13)) || ((28 <=? n) && (n <=? 32)))%N.

Definition lower_ascii (c : ascii) : ascii :=
  let n := N_of_ascii c in
  if ((65 <=? n) && (n <=? 90))%N then ascii_of_N (n + 32) else c.

(** [s.lower()]; on ASCII text also [s.casefold()]. *)
Fixpoint lower (s : string) : string :=
  match s with
  | EmptyString => EmptyString
  | String c r => String (lower_ascii c) (lower r)
  end.

Definition casefold : string -> string := lower.

Fixpoint lstrip (s : string) : string :=
  match s with
  | EmptyString => EmptyString
  | String c r => if isspace c then lstrip r else s
  end.

Fixpoint rstrip (s : string) : string :=
  match s with
  | EmptyString => EmptyString
  | String c r =>
      match rstrip r with
      | EmptyString => if isspace c then EmptyString else String c EmptyString
      | r' => String c r'
      end
  end.

(** [s.strip()] *)
Definition strip (s : string) : string := rstrip (lstrip s).

(** [re.sub(r"\s+", " ", s)]: [in_run] records that the previous
    character belonged to the whitespace run already replaced. *)
Fixpoint sub_ws_from (in_run : bool) (s : string) : string :=
  match s with
  | EmptyString => EmptyString
  | String c r =>
      if isspace c
      then (if in_run then sub_ws_from true r
            else String " "%char (sub_ws_from true r))
      else String c (sub_ws_from false r)
  end.

Definition sub_ws (s : string) : string := sub_ws_from false s.

(** [s.replace(c, "")] for a one-character [c]. *)
Fixpoint remove_char (c : ascii) (s : string) : string :=
  match s with
  | EmptyString => EmptyString
  | String a r =>
      if Ascii.eqb a c then remove_char c r else String a (remove_char c r)
  end.

(** [s.startswith(p)] *)
Definition startswith (s p : string) : bool := String.prefix p s.

(** [str(n)] for an [int]. *)
Definition str_int (n : Z) : string := NilZero.string_of_int (Z.to_int n).

(** Left padding with ["0"] up to [width] characters, as [%0<width>d]
    does for a non-negative number. *)
Fixpoint zeros (n : nat) : string :=
  match n with
  | O => EmptyString
  | S k => String "0"%char (zeros k)
  end.

Definition zfill (width : nat) (s : string) : string :=
  (zeros (width - String.length s) ++ s)%string.

Definition digit_val (c : ascii) : option Z :=
  let n := N_of_ascii c in
  if ((48 <=? n) && (n <=? 57))%N then Some (Z.of_N (n - 48)) else None.

(** Truthiness of a [str]: non-empty. *)
Definition truthy (s : string) : bool := negb (String.eqb s "").

End Py.

(** ** [datetime.date] *)

Module Date.

Record date : Type := mk { year : Z; month : Z; day : Z }.

(** [date.min] *)
Definition min : date := mk 1 1 1.

Definition is_leap (y : Z) : bool :=
  (y mod 4 =? 0) && (negb (y mod 100 =? 0) || (y mod 400 =? 0)).

Definition days_in_month (y m : Z) : Z :=
  if m =? 2 then (if is_leap y then 29 else 28)
  else if (m =? 4) || (m =? 6) || (m =? 9) || (m =? 11) then 30
  else 31.

(** Number of days before January 1st of year [y]. *)
Definition days_before_year (y : Z) : Z :=
  let p := y - 1 in p * 365 + p / 4 - p / 100 + p / 400.

(** Number of days in year [y] before the first day of month [m]. *)
Definition days_before_month (y m : Z) : Z :=
  fold_right Z.add 0
    (map (days_in_month y) (map Z.of_nat (seq 1 (Z.to_nat (m - 1))))).

(** [d.toordinal()]: 0001-01-01 is day 1. *)
Definition toordinal (d : date) : Z :=
  days_before_year (year d) + days_before_month (year d) (month d) + day d.

(** [(a - b).days] *)
Definition days_between (a b : date) : Z := toordinal a - toordinal b.

(** Dates compare as the tuples [(year, month, day)]. *)
Definition compare (a b : date) : comparison :=
  match year a ?= year b with
  | Eq => match month a ?= month b with
          | Eq => day a ?= day b
          | c => c
          end
  | c => c
  end.

Definition leb (a b : date) : bool :=
  match compare a b with Gt => false | _ => true end.
Definition ltb (a b : date) : bool :=
  match compare a b with Lt => true | _ => false end.
Definition gtb (a b : date) : bool := ltb b a.
Definition geb (a b : date) : bool := leb b a.

(** The constructor [date(y, m, d)]; [None] stands for its [ValueError]. *)
Definition make (y m d : Z) : option date :=
  if (1 <=? y) && (y <=? 9999) && (1 <=? m) && (m <=? 12)
     && (1 <=? d) && (d <=? days_in_month y m)
  then Some (mk y m d) else None.

(** [d.isoformat()], i.e. ["%04d-%02d-%02d"]. *)
Definition isoformat (d : date) : string :=
  (Py.zfill 4 (Py.str_int (year d)) ++ "-"
   ++ Py.zfill 2 (Py.str_int (month d)) ++ "-"
   ++ Py.zfill 2 (Py.str_int (day d)))%string.

End Date.

Abbreviation date := Date.date.

(** ** [datetime.strptime] *)

(** The library function is modelled for the directives that occur in
    [DATE_FORMATS] ([%B %b %d %m %Y]), in the C locale.  As in CPython's
    [_strptime], a format is turned into a regular expression (a run of
    whitespace becomes [\s+], a directive becomes a group of ordered
    alternatives, anything else a literal matched case-insensitively), the
    expression is matched at the start of the input with backtracking, and
    the first match found must consume the whole input.  A matcher returns
    its candidate matches in the order in which backtracking tries them. *)

Module Strptime.

Inductive token : Type :=
| Lit (c : ascii)      (* a literal character *)
| Ws                   (* \s+ *)
| Day                  (* %d *)
| MonthNum             (* %m *)
| Year                 (* %Y *)
| MonthFull            (* %B *)
| MonthAbbr            (* %b *)
| Bad.                 (* an unsupported or stray directive: ValueError *)

Definition directive (c : ascii) : token :=
  if Ascii.eqb c "d" then Day
  else if Ascii.eqb c "m" then MonthNum
  else if Ascii.eqb c "Y" then Year
  else if Ascii.eqb c "B" then MonthFull
  else if Ascii.eqb c "b" then MonthAbbr
  else if Ascii.eqb c "%" then Lit "%"
  else Bad.

Fixpoint tokenize_from (in_ws : bool) (fmt : string) : list token :=
  match fmt with
  | EmptyString => []
  | String c r =>
      if Py.isspace c
      then (if in_ws then tokenize_from true r else Ws :: tokenize_from true r)
      else if Ascii.eqb c "%"
      then match r with
           | String x r' => directive x :: tokenize_from false r'
           | EmptyString => [Bad]
           end
      else Lit c :: tokenize_from false r
  end.

Definition tokenize (fmt : string) : list token := tokenize_from false fmt.

(** The values extracted so far; the defaults are those of [_strptime]. *)
Record fields : Type := mkf { fY : Z; fm : Z; fd : Z }.
Definition no_fields : fields := mkf 1900 1 1.

Definition between (lo hi c : ascii) : bool :=
  ((N_of_ascii lo <=? N_of_ascii c) && (N_of_ascii c <=? N_of_ascii hi))%N.

Definition dv (c : ascii) : Z := default 0 (Py.digit_val c).

Definition when {A} (b : bool) (x : A) : list A := if b then [x] else [].

(** [3[0-1]|[1-2]\d|0[1-9]|[1-9]| [1-9]] *)
Definition re_day (s : string) : list (Z * string) :=
  match s with
  | String a r =>
      match r with
      | String b r' =>
          when (Ascii.eqb a "3" && between "0" "1" b) (30 + dv b, r')
          ++ when (between "1" "2" a && between "0" "9" b) (10 * dv a + dv b, r')
          ++ when (Ascii.eqb a "0" && between "1" "9" b) (dv b, r')
          ++ when (between "1" "9" a) (dv a, r)
          ++ when (Ascii.eqb a " " && between "1" "9" b) (dv b, r')
      | EmptyString => when (between "1" "9" a) (dv a, r)
      end
  | EmptyString => []
  end.

(** [1[0-2]|0[1-9]|[1-9]] *)
Definition re_month (s : string) : list (Z * string) :=
  match s with
  | String a r =>
      match r with
      | String b r' =>
          when (Ascii.eqb a "1" && between "0" "2" b) (10 + dv b, r')
          ++ when (Ascii.eqb a "0" && between "1" "9" b) (dv b, r')
          ++ when (between "1" "9" a) (dv a, r)
      | EmptyString => when (between "1" "9" a) (dv a, r)
      end
  | EmptyString => []
  end.

(** [\d\d\d\d] *)
Definition re_year (s : string) : list (Z * string) :=
  match s with
  | String a (String b (String c (String d r))) =>
      when (between "0" "9" a && between "0" "9" b
            && between "0" "9" c && between "0" "9" d)
           (1000 * dv a + 100 * dv b + 10 * dv c + dv d, r)
  | _ => []
  end.

Fixpoint drop (n : nat) (s : string) : string :=
  match n, s with
  | S k, String _ r => drop k r
  | _, _ => s
  end.

(** Month names with their month number, in the order of the
    alternation: [_seqToRE] sorts the names by decreasing length. *)
Definition full_names : list (string * Z) :=
  [("september", 9); ("february", 2); ("november", 11); ("december", 12);
   ("january", 1); ("october", 10); ("august", 8); ("march", 3);
   ("april", 4); ("june", 6); ("july", 7); ("may", 5)]%string.

Definition abbr_names : list (string * Z) :=
  [("jan", 1); ("feb", 2); ("mar", 3); ("apr", 4); ("may", 5); ("jun", 6);
   ("jul", 7); ("aug", 8); ("sep", 9); ("oct", 10); ("nov", 11);
   ("dec", 12)]%string.

Definition re_names (names : list (string * Z)) (s : string)
  : list (Z * string) :=
  flat_map (fun nm =>
              when (String.prefix (fst nm) (Py.lower s))
                   (snd nm, drop (String.length (fst nm)) s))
           names.

(** [\s+], greedy: the longest run first. *)
Fixpoint re_ws (s : string) : list string :=
  match s with
  | String c r => if Py.isspace c then re_ws r ++ [r] else []
  | EmptyString => []
  end.

Definition re_lit (c : ascii) (s : string) : list string :=
  match s with
  | String a r => when (Ascii.eqb (Py.lower_ascii a) (Py.lower_ascii c)) r
  | EmptyString => []
  end.

Definition step (t : token) (f : fields) (s : string)
  : list (fields * string) :=
  match t with
  | Lit c => map (fun r => (f, r)) (re_lit c s)
  | Ws => map (fun r => (f, r)) (re_ws s)
  | Day => map (fun vr => (mkf (fY f) (fm f) (fst vr), snd vr)) (re_day s)
  | MonthNum =>
      map (fun vr => (mkf (fY f) (fst vr) (fd f), snd vr)) (re_month s)
  | Year => map (fun vr => (mkf (fst vr) (fm f) (fd f), snd vr)) (re_year s)
  | MonthFull =>
      map (fun vr => (mkf (fY f) (fst vr) (fd f), snd vr))
          (re_names full_names s)
  | MonthAbbr =>
      map (fun vr => (mkf (fY f) (fst vr) (fd f), snd vr))
          (re_names abbr_names s)
  | Bad => []
  end.

Fixpoint re_match (ts : list token) (f : fields) (s : string)
  : list (fields * string) :=
  match ts with
  | [] => [(f, s)]
  | t :: ts' => flat_map (fun fr => re_match ts' (fst fr) (snd fr)) (step t f s)
  end.

Definition is_bad (t : token) : bool :=
  match t with Bad => true | _ => false end.

(** [datetime.strptime(s, fmt).date()]; [None] stands for any exception. *)
Definition strptime (s fmt : string) : option date :=
  let ts := tokenize fmt in
  if existsb is_bad ts then None
  else match re_match ts no_fields s with
       | (f, EmptyString) :: _ => Date.make (fY f) (fm f) (fd f)
       | _ => None
       end.

End Strptime.

(** ** Normalisation helpers *)

(** [norm_name]: collapse whitespace runs, trim, case-fold. *)
Definition norm_name (name : string) : string :=
  if String.eqb name "" then ""%string
  else Py.casefold (Py.strip (Py.sub_ws name)).

Definition DATE_FORMATS : list string :=
  ["%B %d, %Y"; "%b %d, %Y"; "%Y-%m-%d"; "%m/%d/%Y";
   "%d %B %Y"; "%d %b %Y"; "%b-%d-%Y"; "%B-%d-%Y"]%string.

(** The [for fmt in ...: try: return strptime(s, fmt) except: pass] loop. *)
Fixpoint try_formats (s : string) (fmts : list string) : option date :=
  match fmts with
  | [] => None
  | fmt :: rest =>
      match Strptime.strptime s fmt with
      | Some d => Some d
      | None => try_formats s rest
      end
  end.

Definition parse_date_to_obj (s : string) : option date :=
  if String.eqb s "" then None
  else
    let s := Py.sub_ws (Py.strip s) in
    match try_formats s DATE_FORMATS with
    | Some d => Some d
    | None =>
        let s2 := Py.remove_char "," s in
        try_formats s2 (map (Py.remove_char ",") DATE_FORMATS)
    end.

Definition to_iso (d : option date) : string :=
  match d with
  | Some d => Date.isoformat d
  | None => ""%string
  end.

(** [legacy_key]: ISO date and the two normalised names, smaller name first. *)
Definition legacy_key (date_str f1 f2 : string) : string :=
  let iso := to_iso (parse_date_to_obj date_str) in
  let a := norm_name f1 in
  let b := norm_name f2 in
  if String.leb a b
  then (iso ++ "|" ++ a ++ "|" ++ b)%string
  else (iso ++ "|" ++ b ++ "|" ++ a)%string.

(** ** Rows and the merge *)

(** A cell of a row: [None] or a [str]. *)
Inductive pyval : Type :=
| VNone
| VStr (s : string).

#[global] Instance pyval_eq_dec : EqDecision pyval.
Proof. solve_decision. Defined.

(** [str(v)] *)
Definition py_str (v : pyval) : string :=
  match v with
  | VNone => "None"%string
  | VStr s => s
  end.

Abbreviation row := (gmap string pyval).

(** [r.get(k, '')] read as a string.  A stored [None] is falsy, and every
    reader below treats a falsy cell like [''] ([if not s], [or ''],
    [is_blank]). *)
Definition get_str (r : row) (k : string) : string :=
  match r !! k with
  | Some (VStr s) => s
  | _ => ""%string
  end.

(** The incoming cell is empty after trimming or spells "unknown":
    [(not sv) or (sv.lower() == 'unknown')]. *)
Definition unknownish (sv : string) : bool :=
  String.eqb sv "" || String.eqb (Py.lower sv) "unknown".

(** The stored row has something for the key:
    [k in merged and str(merged[k]).strip()]. *)
Definition populated (merged : row) (k : string) : bool :=
  match merged !! k with
  | Some m => Py.truthy (Py.strip (py_str m))
  | None => false
  end.

(** A cell that carries no information for the merge: null, empty after
    trimming, or "unknown" in any case. *)
Definition cell_blank (v : pyval) : bool :=
  match v with
  | VNone => true
  | VStr s => unknownish (Py.strip s)
  end.

(** One iteration of the loop of [merge_rows]. *)
Definition merge_cell (k : string) (v : pyval) (merged : row) : row :=
  match v with
  | VNone => merged
  | VStr _ =>
      let sv := Py.strip (py_str v) in
      if unknownish sv && populated merged k then merged
      else <[k := VStr sv]> merged
  end.

(** [merge_rows(old_row, new_row)].  A missing [old_row] ([None]) and the
    empty dict both start from the empty dict. *)
Definition merge_rows (old_row new_row : row) : row :=
  map_fold merge_cell old_row new_row.

(** ** Loading and upserting by key *)

(** The choice of the date cell in [load_existing_csv]. *)
Definition date_col (headers : list string) : option string :=
  List.find (fun c => existsb (String.eqb c) headers) ["event_date"; "date"]%string.

Definition date_val (col : option string) (r : row) : string :=
  match col with
  | Some c => get_str r c
  | None =>
      let v := get_str r "event_date" in
      if Py.truthy v then v else get_str r "date"
  end.

(** The loop of [load_existing_csv] over the rows read from the file (their
    column names are already normalised by [_read]): the key map and the
    latest parsed date. *)
Definition load_step (col : option string)
    (acc : gmap string row * option date) (r : row)
  : gmap string row * option date :=
  let dv := date_val col r in
  let k := legacy_key dv (get_str r "fighter_1") (get_str r "fighter_2") in
  let max_date :=
    match parse_date_to_obj dv, snd acc with
    | Some d, None => Some d
    | Some d, Some m => if Date.gtb d m then Some d else Some m
    | None, m => m
    end in
  (<[k := r]> (fst acc), max_date).

Definition load_existing_csv (headers : list string) (rows : list row)
  : gmap string row * option date :=
  foldl (load_step (date_col headers)) (∅, None) rows.

(** The state threaded through the scraping loop of [main]. *)
Record store : Type := mkstore {
  key_to_row : gmap string row;
  new_count : nat;
  updated_count : nat
}.

(** What [main] does with one scraped fight: [rowdict] is the freshly
    built row, whose date and names are the three strings. *)
Definition upsert (UPDATE_EXISTING : bool) (st : store)
    (event_date_str f1_name f2_name : string) (rowdict : row) : store :=
  let k := legacy_key event_date_str f1_name f2_name in
  match key_to_row st !! k with
  | Some old =>
      if negb UPDATE_EXISTING then st
      else
        let merged := merge_rows old rowdict in
        if bool_decide (merged = old) then st
        else mkstore (<[k := merged]> (key_to_row st))
                     (new_count st) (S (updated_count st))
  | None =>
      mkstore (<[k := rowdict]> (key_to_row st))
              (S (new_count st)) (updated_count st)
  end.

(** ** Blank values *)

Definition BLANK_TOKENS : list string :=
  [""; "unknown"; "n/a"; "na"; "null"; "none"; "-"; "‚Äî"]%string.

Definition is_blank (v : pyval) : bool :=
  match v with
  | VNone => true
  | VStr s => existsb (String.eqb (Py.lower (Py.strip s))) BLANK_TOKENS
  end.

(** ** Sorting *)

(** [sorted]/[list.sort] are stable; a stable sort is determined by its
    input, and is written here as an insertion sort.  [le x y] says
    that [x] may stay in front of [y]. *)
Fixpoint insert_by {A} (le : A -> A -> bool) (x : A) (l : list A) : list A :=
  match l with
  | [] => [x]
  | y :: l' => if le x y then x :: l else y :: insert_by le x l'
  end.

Definition stable_sort {A} (le : A -> A -> bool) (l : list A) : list A :=
  foldr (insert_by le) [] l.

(** ** Knowledge-base selection *)

(** A [Counter]: its items in insertion order, with distinct keys. *)
Abbreviation counter := (list (string * Z)).

(** [c.most_common()]: by decreasing count, ties in insertion order. *)
Definition most_common (c : counter) : counter :=
  stable_sort (fun x y => snd y <=? snd x) c.

(** [c.most_common(1)] is [heapq.nlargest(1, ...)], that is [max]: the
    first item of greatest count. *)
Fixpoint first_max (best : string * Z) (l : counter) : string * Z :=
  match l with
  | [] => best
  | x :: l' => first_max (if snd best <? snd x then x else best) l'
  end.

Definition most_common_1 (c : counter) : counter :=
  match c with
  | [] => []
  | x :: l => [first_max x l]
  end.

Abbreviation timeline := (list (date * string)).

(** The loop [for d, val in reversed(timeline): if not is_blank(val): return val]. *)
Definition recent_non_blank (tl : timeline) : option string :=
  snd <$> List.find (fun dv => negb (is_blank (VStr (snd dv)))) (rev tl).

(** [most_common[0][1]] *)
Definition top_count (mc : counter) : Z :=
  match mc with
  | x :: _ => snd x
  | [] => 0
  end.

(** [[val for val, cnt in most_common if cnt == top_count]] *)
Definition candidates (mc : counter) : list string :=
  fst <$> filter (λ vc, snd vc = top_count mc) mc.

Definition choose_mode_with_recent_fallback (c : counter) (tl : timeline)
  : option string :=
  match c with
  | [] => recent_non_blank tl
  | _ :: _ =>
      let cands := candidates (most_common c) in
      match cands with
      | [v] => Some v
      | _ =>
          match List.find (fun dv => existsb (String.eqb (snd dv)) cands)
                          (rev tl) with
          | Some dv => Some (snd dv)
          | None => recent_non_blank tl
          end
      end
  end.

(** The values of highest frequency in a counter. *)
Definition is_top (c : counter) (v : string) : Prop :=
  ∃ n, (v, n) ∈ c ∧ ∀ y, y ∈ c → snd y <= n.

(** A timeline sorted by date, as [build_fighter_kb] leaves it. *)
Definition chronological (tl : timeline) : Prop :=
  Sorted (λ x y, Date.leb (fst x) (fst y) = true) tl.

(** The two tests of [find_gym_for_date] on a timeline entry. *)
Definition at_or_before (target : date) (e : date * string) : bool :=
  Date.leb (fst e) target && negb (is_blank (VStr (snd e))).
Definition at_or_after (target : date) (e : date * string) : bool :=
  Date.geb (fst e) target && negb (is_blank (VStr (snd e))).

(** The first loop of [find_gym_for_date], with its [break]. *)
Fixpoint scan_prev (tl : timeline) (target : date) (prev_val : option string)
  : option string :=
  match tl with
  | [] => prev_val
  | e :: rest =>
      let prev_val := if at_or_before target e then Some (snd e) else prev_val in
      if Date.gtb (fst e) target then prev_val
      else scan_prev rest target prev_val
  end.

(** Truthiness of an optional [str]: neither [None] nor empty. *)
Definition opt_truthy (v : option string) : bool :=
  match v with
  | Some s => Py.truthy s
  | None => false
  end.

Definition find_gym_for_date (tl : timeline) (target : date)
    (mode_value : option string) : option string :=
  let prev_val := scan_prev tl target None in
  if opt_truthy prev_val then prev_val
  else
    match List.find (at_or_after target) tl with
    | Some e => Some (snd e)
    | None => mode_value
    end.

(** [gym_mode] in [backfill_born_gym]. *)
Definition gym_mode (gym_counts : counter) : option string :=
  match most_common_1 gym_counts with
  | x :: _ => Some (fst x)
  | [] => None
  end.

(** [gym_best] in [backfill_born_gym]. *)
Definition gym_best (gym_counts : counter) (gym_timeline : timeline) (d : date)
  : option string :=
  find_gym_for_date gym_timeline d (gym_mode gym_counts).

(** ** Running win/loss counters *)

(** The rows handed to the enrichment passes are distinct dict objects,
    mutated in place; they are a list updated by index, and an entry of a
    fighter's timeline refers to its row by index. *)

Inductive side : Type := F1 | F2.

#[global] Instance side_eq_dec : EqDecision side.
Proof. solve_decision. Defined.

(** An entry [(d, side, r)] of a fighter's timeline. *)
Record item : Type := mkitem { it_date : date; it_side : side; it_row : nat }.

(** [timeline[n].append(it)] on the [defaultdict(list)], kept in the
    insertion order of its keys. *)
Fixpoint tl_append (n : string) (it : item) (tl : list (string * list item))
  : list (string * list item) :=
  match tl with
  | [] => [(n, [it])]
  | (k, its) :: rest =>
      if String.eqb k n then (k, its ++ [it]) :: rest
      else (k, its) :: tl_append n it rest
  end.

(** The body of the first loop, for the row of index [i]. *)
Definition collect_row (i : nat) (r : row) (tl : list (string * list item))
  : list (string * list item) :=
  let d := default Date.min (parse_date_to_obj (get_str r "event_date")) in
  let n1 := norm_name (get_str r "fighter_1") in
  let n2 := norm_name (get_str r "fighter_2") in
  let tl := if Py.truthy n1 then tl_append n1 (mkitem d F1 i) tl else tl in
  if Py.truthy n2 then tl_append n2 (mkitem d F2 i) tl else tl.

Fixpoint collect (i : nat) (rows : list row) (tl : list (string * list item))
  : list (string * list item) :=
  match rows with
  | [] => tl
  | r :: rest => collect (S i) rest (collect_row i r tl)
  end.

(** [items.sort(key=lambda x: x[0])] *)
Definition sort_items (items : list item) : list item :=
  stable_sort (fun x y => Date.leb (it_date x) (it_date y)) items.

Definition wins_col (s : side) : string :=
  match s with F1 => "fighter_1_ufcwins" | F2 => "fighter_2_ufcwins" end.
Definition loss_col (s : side) : string :=
  match s with F1 => "fighter_1_ufcloss" | F2 => "fighter_2_ufcloss" end.

(** Writing the counters before the fight. *)
Definition write_counters (s : side) (wl : Z * Z) (r : row) : row :=
  <[loss_col s := VStr (Py.str_int (snd wl))]>
    (<[wins_col s := VStr (Py.str_int (fst wl))]> r).

(** Updating [(wins, losses)] after the fight from the fighter_1-centric
    result. *)
Definition update_counts (s : side) (r : row) (wl : Z * Z) : Z * Z :=
  let res := Py.lower (Py.strip (get_str r "result")) in
  if Py.startswith res "win" then
    match s with
    | F1 => (fst wl + 1, snd wl)
    | F2 => (fst wl, snd wl + 1)
    end
  else if Py.startswith res "loss" || Py.startswith res "l" then
    match s with
    | F1 => (fst wl, snd wl + 1)
    | F2 => (fst wl + 1, snd wl)
    end
  else wl.

(** The inner loop over one fighter's sorted items. *)
Fixpoint walk (items : list item) (wl : Z * Z) (rows : list row) : list row :=
  match items with
  | [] => rows
  | it :: rest =>
      match rows !! it_row it with
      | Some r =>
          let r := write_counters (it_side it) wl r in
          walk rest (update_counts (it_side it) r wl) (<[it_row it := r]> rows)
      | None => rows
      end
  end.

Definition compute_ufc_counters (rows : list row) : list row :=
  foldl (fun rows e => walk (sort_items (snd e)) (0, 0) rows)
        rows (collect 0 rows []).

(** [timeline[n]]; the empty list for a name that was never appended to. *)
Fixpoint tl_lookup (n : string) (tl : list (string * list item)) : list item :=
  match tl with
  | [] => []
  | (k, its) :: rest => if String.eqb k n then its else tl_lookup n rest
  end.

(** The appends that the first loop performs, in order, for the rows of
    index [i] onwards: the fighter's name and the appended entry. *)
Fixpoint appearances (i : nat) (rows : list row) : list (string * item) :=
  match rows with
  | [] => []
  | r :: rest =>
      let d := default Date.min (parse_date_to_obj (get_str r "event_date")) in
      let n1 := norm_name (get_str r "fighter_1") in
      let n2 := norm_name (get_str r "fighter_2") in
      (if Py.truthy n1 then [(n1, mkitem d F1 i)] else [])
      ++ (if Py.truthy n2 then [(n2, mkitem d F2 i)] else [])
      ++ appearances (S i) rest
  end.

(** The side of a row that an entry refers to. *)
Definition slot (it : item) : nat * side := (it_row it, it_side it).

(** The result of a fight changes the counters. *)
Definition decisive (r : row) : bool :=
  let res := Py.lower (Py.strip (get_str r "result")) in
  Py.startswith res "win" || Py.startswith res "l".

(** The counters of a fighter who had [wl] and then fought [prior],
    computed from the results of the rows as given. *)
Definition tally_from (rows : list row) (wl : Z * Z) (prior : list item)
  : Z * Z :=
  foldl (λ wl it,
           update_counts (it_side it) (default ∅ (rows !! it_row it)) wl)
        wl prior.

Definition tally_before (rows : list row) (prior : list item) : Z * Z :=
  tally_from rows (0, 0) prior.

(** ** Activity flags *)

(** [if (n not in last_seen) or (d > last_seen[n]): last_seen[n] = d],
    after the [if not n: continue]. *)
Definition note_seen (d : date) (n : string) (last_seen : gmap string date)
  : gmap string date :=
  if negb (Py.truthy n) then last_seen
  else match last_seen !! n with
       | None => <[n := d]> last_seen
       | Some old => if Date.gtb d old then <[n := d]> last_seen else last_seen
       end.

Definition seen_row (last_seen : gmap string date) (r : row)
  : gmap string date :=
  match parse_date_to_obj (get_str r "event_date") with
  | None => last_seen
  | Some d =>
      note_seen d (norm_name (get_str r "fighter_2"))
        (note_seen d (norm_name (get_str r "fighter_1")) last_seen)
  end.

Definition last_seen_of (rows : list row) : gmap string date :=
  foldl seen_row ∅ rows.

(** [int(365.25 * years)]: the product is exact in binary floating point
    (365.25 = 1461/4) for every [years] of magnitude below 2^51, and [int]
    truncates towards zero. *)
Definition cutoff_days (years : Z) : Z := Z.quot (1461 * years) 4.

Definition side_col (s : side) : string :=
  match s with F1 => "fighter_1" | F2 => "fighter_2" end.
Definition active_col (s : side) : string :=
  match s with F1 => "fighter_1_active" | F2 => "fighter_2_active" end.

(** Whether a fighter is active on [today]. *)
Definition is_active (last_seen : gmap string date) (today : date)
    (cutoff : Z) (n : string) : bool :=
  match last_seen !! n with
  | Some last => Date.days_between today last <=? cutoff
  | None => false
  end.

Definition flag_side (last_seen : gmap string date) (today : date)
    (cutoff : Z) (s : side) (r : row) : row :=
  let n := norm_name (get_str r (side_col s)) in
  <[active_col s :=
      VStr (if is_active last_seen today cutoff n then "TRUE" else "FALSE")]> r.

(** [apply_active_flags(rows, years)], run on the day [today]. *)
Definition apply_active_flags (today : date) (rows : list row) (years : Z)
  : list row :=
  let last_seen := last_seen_of rows in
  let cutoff := cutoff_days years in
  (λ r, flag_side last_seen today cutoff F2
          (flag_side last_seen today cutoff F1 r)) <$> rows.

(** The dated appearances of competitors in the rows: a row whose date
    parses is an appearance of each of its two (normalised) names. *)
Definition sightings (rows : list row) : list (string * date) :=
  flat_map (λ r,
              match parse_date_to_obj (get_str r "event_date") with
              | Some d => [(norm_name (get_str r "fighter_1"), d);
                           (norm_name (get_str r "fighter_2"), d)]
              | None => []
              end) rows.

(** [last] is the most recent event date of competitor [n]. *)
Definition most_recent (obs : list (string * date)) (n : string) (last : date)
  : Prop :=
  (n, last) ∈ obs ∧ ∀ d, (n, d) ∈ obs → Date.leb d last = true.

(** ** Header keys *)

(** [k.replace(x, "")] where [x] is one code point whose UTF-8 form is the
    three bytes [a b c]. *)
Fixpoint remove3 (a b c : ascii) (s : string) : string :=
  match s with
  | EmptyString => EmptyString
  | String x t =>
      match t with
      | String y (String z r) =>
          if Ascii.eqb x a && Ascii.eqb y b && Ascii.eqb z c
          then remove3 a b c r
          else String x (remove3 a b c t)
      | _ => String x (remove3 a b c t)
      end
  end.

(** [s.replace(" ", "_")] *)
Fixpoint spaces_to_underscores (s : string) : string :=
  match s with
  | EmptyString => EmptyString
  | String c r =>
      String (if Ascii.eqb c " " then "_"%char else c) (spaces_to_underscores r)
  end.

(** [norm_key]: U+FEFF, U+200B, U+200C and U+200D are removed, then the key
    is trimmed, lower-cased, and its whitespace runs become one ["_"]. *)
Definition norm_key (k : pyval) : string :=
  match k with
  | VNone => ""%string
  | VStr k =>
      let k := remove3 "226" "128" "141"
                 (remove3 "226" "128" "140"
                    (remove3 "226" "128" "139"
                       (remove3 "239" "187" "191" k))) in
      let k := Py.lower (Py.strip k) in
      spaces_to_underscores (Py.sub_ws k)
  end.

(** ** Column order of the written file *)

(** The loop [for h in hs: if h not in seen: ordered.append(h); seen.add(h)];
    [seen] always holds the elements of [ordered]. *)
Fixpoint append_unseen (hs : list string) (ordered : list string)
  : list string :=
  match hs with
  | [] => ordered
  | h :: rest =>
      append_unseen rest
        (if bool_decide (h ∈ ordered) then ordered else ordered ++ [h])
  end.

(** [header_set]: the keys of all rows. *)
Definition header_set (rows : list row) : gset string :=
  ⋃ (dom <$> rows).

(** [sorted(header_set)] *)
Definition sorted_headers (rows : list row) : list string :=
  stable_sort String.leb (elements (header_set rows)).

(** The [fieldnames] that [write_csv] hands to the writer. *)
Definition ordered_headers (rows : list row) (headers_priority : list string)
  : list string :=
  append_unseen (sorted_headers rows) (append_unseen headers_priority []).

(** The cells written for one row: [{h: r.get(h, '') for h in ordered}]. *)
Definition written_row (ordered : list string) (r : row) : list pyval :=
  (λ h, default (VStr "") (r !! h)) <$> ordered.

(** ** The knowledge base *)

Record kbe : Type := mk_kbe {
  born_counts : counter;
  born_timeline : timeline;
  gym_counts : counter;
  gym_timeline : timeline;
  last_seen_date : date
}.

(** The entry that [kb.setdefault] creates. *)
Definition fresh_kbe : kbe := mk_kbe [] [] [] [] Date.min.

(** [c[v] += 1] on a [Counter]: a new key goes to the end with count 1. *)
Fixpoint counter_incr (v : string) (c : counter) : counter :=
  match c with
  | [] => [(v, 1)]
  | (k, n) :: rest =>
      if String.eqb k v then (k, n + 1) :: rest
      else (k, n) :: counter_incr v rest
  end.

Definition born_col (s : side) : string :=
  match s with F1 => "fighter_1_born" | F2 => "fighter_2_born" end.
Definition gym_col (s : side) : string :=
  match s with F1 => "fighter_1_gym" | F2 => "fighter_2_gym" end.

(** [r.get(k, '')] *)
Definition get_cell (r : row) (k : string) : pyval :=
  default (VStr "") (r !! k).

(** Recording one observed value in a counter and its timeline, unless it
    is blank. *)
Definition observe (d : date) (v : pyval) (ct : counter * timeline)
  : counter * timeline :=
  match v with
  | VStr s =>
      if is_blank v then ct
      else (counter_incr s (fst ct), snd ct ++ [(d, s)])
  | VNone => ct
  end.

(** The body of the inner loop of [build_fighter_kb] for one side. *)
Definition kb_side (d : date) (s : side) (r : row) (kb : gmap string kbe)
  : gmap string kbe :=
  let name := get_str r (side_col s) in
  if negb (Py.truthy name) then kb
  else
    let key := norm_name name in
    let e := default fresh_kbe (kb !! key) in
    let born := observe d (get_cell r (born_col s))
                  (born_counts e, born_timeline e) in
    let gym := observe d (get_cell r (gym_col s))
                 (gym_counts e, gym_timeline e) in
    let last := if Date.gtb d (last_seen_date e) then d
                else last_seen_date e in
    <[key := mk_kbe (fst born) (snd born) (fst gym) (snd gym) last]> kb.

Definition kb_row (kb : gmap string kbe) (r : row) : gmap string kbe :=
  match parse_date_to_obj (get_str r "event_date") with
  | None => kb
  | Some d => kb_side d F2 r (kb_side d F1 r kb)
  end.

(** [tl.sort(key=lambda x: x[0])] *)
Definition sort_timeline (tl : timeline) : timeline :=
  stable_sort (λ x y, Date.leb (fst x) (fst y)) tl.

Definition sort_kbe (e : kbe) : kbe :=
  mk_kbe (born_counts e) (sort_timeline (born_timeline e))
         (gym_counts e) (sort_timeline (gym_timeline e))
         (last_seen_date e).

Definition build_fighter_kb (rows : list row) : gmap string kbe :=
  sort_kbe <$> foldl kb_row ∅ rows.

(** ** Backfill *)

(** [if best and not is_blank(best): r[col] = best] *)
Definition fill (col : string) (best : option string) (r : row) : row :=
  match best with
  | Some b =>
      if Py.truthy b && negb (is_blank (VStr b)) then <[col := VStr b]> r
      else r
  | None => r
  end.

(** The body of the inner loop of [backfill_born_gym] for one side. *)
Definition backfill_side (kb : gmap string kbe) (d : date) (s : side) (r : row)
  : row :=
  let name := get_str r (side_col s) in
  if negb (Py.truthy name) then r
  else
    match kb !! norm_name name with
    | None => r
    | Some info =>
        let r :=
          if is_blank (get_cell r (born_col s))
          then fill (born_col s)
                 (choose_mode_with_recent_fallback
                    (born_counts info) (born_timeline info)) r
          else r in
        if is_blank (get_cell r (gym_col s))
        then fill (gym_col s)
               (gym_best (gym_counts info) (gym_timeline info) d) r
        else r
    end.

Definition backfill_row (kb : gmap string kbe) (r : row) : row :=
  let d := default Date.min (parse_date_to_obj (get_str r "event_date")) in
  backfill_side kb d F2 (backfill_side kb d F1 r).

Definition backfill_born_gym (rows : list row) (kb : gmap string kbe)
  : list row :=
  backfill_row kb <$> rows.

(** The enrichment that [main] runs on the final rows on the day [today]. *)
Definition enrich (today : date) (final_rows : list row) : list row :=
  let kb := build_fighter_kb final_rows in
  let rows := backfill_born_gym final_rows kb in
  let rows := compute_ufc_counters rows in
  apply_active_flags today rows 3.

(** ** Shapes of normalised strings *)

(** Every whitespace character of [s] is a single space that follows a
    character which is not whitespace; [in_run] says that the character
    before [s] was whitespace. *)
Fixpoint collapsed (in_run : bool) (s : string) : bool :=
  match s with
  | EmptyString => true
  | String c r =>
      if Py.isspace c
      then Ascii.eqb c " " && negb in_run && collapsed true r
      else collapsed false r
  end.

(** The character [c] does not occur in [s]. *)
Fixpoint lacks (c : ascii) (s : string) : bool :=
  match s with
  | EmptyString => true
  | String a r => negb (Ascii.eqb a c) && lacks c r
  end.

(** No character of [s] passes the test [p]. *)
Fixpoint none_of (p : ascii → bool) (s : string) : bool :=
  match s with
  | EmptyString => true
  | String a r => negb (p a) && none_of p r
  end.

Definition is_upper (c : ascii) : bool :=
  let n := N_of_ascii c in ((65 <=? n) && (n <=? 90))%N.

(** A character that [norm_key] would change or that is not ASCII. *)
Definition odd_key_char (c : ascii) : bool :=
  Py.isspace c || is_upper c || (128 <=? N_of_ascii c)%N.

(** ** Decimal digits *)

(** The decimal digit [k] put in front of the digits [d]. *)
Definition digit_cons (k : Z) (d : Decimal.uint) : Decimal.uint :=
  match k with
  | 0 => Decimal.D0 d
  | 1 => Decimal.D1 d
  | 2 => Decimal.D2 d
  | 3 => Decimal.D3 d
  | 4 => Decimal.D4 d
  | 5 => Decimal.D5 d
  | 6 => Decimal.D6 d
  | 7 => Decimal.D7 d
  | 8 => Decimal.D8 d
  | _ => Decimal.D9 d
  end.

(** The character of the decimal digit [k]. *)
Definition digit_char (k : Z) : ascii := ascii_of_N (48 + Z.to_N k).

(** ** Keys of loaded rows and runs of upserts *)

(** The key under which [load_existing_csv] files a row. *)
Definition row_key (col : option string) (r : row) : string :=
  legacy_key (date_val col r) (get_str r "fighter_1") (get_str r "fighter_2").

(** One scraped fight: the event date string, the two names and the row
    built from them. *)
Record observation : Type := mkobs {
  obs_date : string;
  obs_f1 : string;
  obs_f2 : string;
  obs_row : row
}.

(** The scraping loop of [main] over the fights it reaches, in order. *)
Definition upsert_all (UPDATE_EXISTING : bool) (st : store)
    (obs : list observation) : store :=
  foldl (λ st o, upsert UPDATE_EXISTING st
                   (obs_date o) (obs_f1 o) (obs_f2 o) (obs_row o))
        st obs.

(** ** Counters and their timelines *)

(** [c[v]]: the count of [v], 0 for a missing key. *)
Fixpoint count_of (v : string) (c : counter) : Z :=
  match c with
  | [] => 0
  | (k, n) :: rest => if String.eqb k v then n else count_of v rest
  end.

(** How often the value [v] occurs in a timeline. *)
Definition occurrences (v : string) (tl : timeline) : Z :=
  Z.of_nat (length (filter (λ e, snd e = v) tl)).

(** A counter and a timeline that record the same observations: the keys
    are distinct, each count is the number of entries with that value, the
    keys are the values that occur, and no entry is blank. *)
Definition recorded (c : counter) (tl : timeline) : Prop :=
  NoDup (fst <$> c)
  ∧ (∀ v, count_of v c = occurrences v tl)
  ∧ (∀ v, v ∈ fst <$> c ↔ ∃ d, (d, v) ∈ tl)
  ∧ (∀ e, e ∈ tl → is_blank (VStr (snd e)) = false).

(** ** Backfill, cell by cell *)

(** What the guarded assignment [if is_blank(r.get(col, '')): ... r[col] = best]
    leaves in the cell [col]. *)
Definition fill_cell (best : option string) (cell : option pyval)
  : option pyval :=
  if is_blank (default (VStr "") cell)
  then match best with
       | Some b =>
           if Py.truthy b && negb (is_blank (VStr b)) then Some (VStr b)
           else cell
       | None => cell
       end
  else cell.

(** The knowledge-base entry that the backfill uses for one side of a row,
    if any. *)
Definition side_info (kb : gmap string kbe) (s : side) (r : row) : option kbe :=
  if Py.truthy (get_str r (side_col s))
  then kb !! norm_name (get_str r (side_col s))
  else None.

(** What the backfill of side [s] leaves in the cell [k], given the entry
    it uses and the cell before. *)
Definition side_cell (d : date) (s : side) (info : option kbe) (k : string)
    (cell : option pyval) : option pyval :=
  match info with
  | Some info =>
      if decide (k = born_col s)
      then fill_cell (choose_mode_with_recent_fallback
                        (born_counts info) (born_timeline info)) cell
      else if decide (k = gym_col s)
      then fill_cell (gym_best (gym_counts info) (gym_timeline info) d) cell
      else cell
  | None => cell
  end.

(** ** Rows that describe the same fight *)

(** The cells that the enrichment passes read to identify a fight and its
    outcome: the date, the two names and the result. *)
Definition identity_cols : list string :=
  ["event_date"; "fighter_1"; "fighter_2"; "result"]%string.

(** [r'] has the date, names and result of [r]. *)
Definition same_fight (r r' : row) : Prop :=
  ∀ k, k ∈ identity_cols → r' !! k = r !! k.

(* ===================================================================== *)
(** * Part II: properties                                                 *)
(* ===================================================================== *)

(** ** Strings *)

Lemma rstrip_idem (s : string) : Py.rstrip (Py.rstrip s) = Py.rstrip s.
Proof.
  induction s as [|c r IH]; [done|].
  simpl. destruct (Py.rstrip r) as [|a r'] eqn:E.
  - destruct (Py.isspace c) eqn:Hc; [done|]. simpl. by rewrite Hc.
  - change (Py.rstrip (String c (String a r')))
      with (match Py.rstrip (String a r') with
            | EmptyString => if Py.isspace c then EmptyString else String c EmptyString
            | x => String c x end).
    by rewrite IH.
Qed.

Lemma lstrip_head (s : string) :
  Py.lstrip s = EmptyString
  ∨ ∃ c r, Py.lstrip s = String c r ∧ Py.isspace c = false.
Proof.
  induction s as [|c r IH]; [by left|].
  simpl. destruct (Py.isspace c) eqn:Hc; [done|]. right. eauto.
Qed.

Lemma rstrip_head (c : ascii) (r : string) :
  Py.isspace c = false → ∃ r', Py.rstrip (String c r) = String c r'.
Proof.
  intros Hc. simpl. destruct (Py.rstrip r); rewrite ?Hc; eauto.
Qed.

Lemma strip_idem (s : string) : Py.strip (Py.strip s) = Py.strip s.
Proof.
  unfold Py.strip.
  destruct (lstrip_head s) as [->|(c & r & -> & Hc)]; [done|].
  destruct (rstrip_head c r Hc) as [r' E].
  rewrite E. simpl Py.lstrip. rewrite Hc, <- E. apply rstrip_idem.
Qed.

Lemma truthy_true (s : string) : Py.truthy s = true ↔ s ≠ EmptyString.
Proof.
  unfold Py.truthy. destruct (String.eqb_spec s ""); split; try done.
Qed.

Lemma truthy_false (s : string) : Py.truthy s = false ↔ s = EmptyString.
Proof.
  unfold Py.truthy. destruct (String.eqb_spec s ""); split; try done.
Qed.

(** ** The merge key *)

(** Putting the smaller of two strings first does not depend on the order
    in which the two are given. *)
Lemma ordered_pair_swap {A} (a b : string) (k : string → string → A) :
  (if String.leb a b then k a b else k b a)
  = (if String.leb b a then k b a else k a b).
Proof.
  destruct (String.leb a b) eqn:Hab, (String.leb b a) eqn:Hba; try reflexivity.
  - by rewrite (String.leb_antisym _ _ Hab Hba).
  - destruct (String.leb_total a b); congruence.
Qed.

Lemma legacy_key_swap (d x y : string) : legacy_key d x y = legacy_key d y x.
Proof.
  unfold legacy_key.
  apply (ordered_pair_swap (norm_name x) (norm_name y)
           (λ a b, (to_iso (parse_date_to_obj d) ++ "|" ++ a ++ "|" ++ b)%string)).
Qed.

(** C6. The merge key does not depend on the order of the two names:
    [legacy_key d x y = legacy_key d y x] for every date string and every
    pair of names. *)
Theorem legacy_key_order_insensitive (d x y : string) :
  legacy_key d x y = legacy_key d y x.
Proof.
  unfold legacy_key.
  generalize (to_iso (parse_date_to_obj d)) (norm_name x) (norm_name y).
  intros iso a b.
  destruct (String.leb a b) eqn:Hab, (String.leb b a) eqn:Hba; try reflexivity.
  - by rewrite (String.leb_antisym a b Hab Hba).
  - destruct (String.leb_total a b) as [H|H]; rewrite H in *; discriminate.
Qed.

(** ** Date spellings *)

Example parse_long_form :
  parse_date_to_obj "August 23, 2025" = Some (Date.mk 2025 8 23).
Proof. vm_compute. reflexivity. Qed.

Example parse_iso_form :
  parse_date_to_obj "2025-08-23" = Some (Date.mk 2025 8 23).
Proof. vm_compute. reflexivity. Qed.

Example parse_without_comma :
  parse_date_to_obj "Aug 23 2025" = Some (Date.mk 2025 8 23).
Proof. vm_compute. reflexivity. Qed.

Example parse_invalid_day : parse_date_to_obj "February 30, 2025" = None.
Proof. vm_compute. reflexivity. Qed.

Example parse_unknown : parse_date_to_obj "Unknown" = None.
Proof. vm_compute. reflexivity. Qed.

Lemma legacy_key_same_date (d1 d2 f1 f2 : string) :
  parse_date_to_obj d1 = parse_date_to_obj d2 →
  legacy_key d1 f1 f2 = legacy_key d2 f1 f2.
Proof. intros H. unfold legacy_key. by rewrite H. Qed.

Lemma legacy_key_same_names (d f1 f2 g1 g2 : string) :
  norm_name f1 = norm_name g1 → norm_name f2 = norm_name g2 →
  legacy_key d f1 f2 = legacy_key d g1 g2.
Proof. intros H1 H2. unfold legacy_key. by rewrite H1, H2. Qed.

(** C7. ["August 23, 2025"] and ["2025-08-23"] parse to the same date, so
    the two spellings give the same merge key for the same pairing (in
    either side order); a dataset loaded with one record under the first
    spelling and then upserted with an observation of the same pairing
    under the second holds one record, not two: the merge of the two when
    existing fights are refreshed, the loaded one otherwise. *)
Theorem two_spellings_one_record :
  to_iso (parse_date_to_obj "August 23, 2025") = "2025-08-23"%string
  ∧ to_iso (parse_date_to_obj "2025-08-23") = "2025-08-23"%string
  ∧ (∀ f1 f2 : string,
       legacy_key "August 23, 2025" f1 f2 = legacy_key "2025-08-23" f1 f2
       ∧ legacy_key "August 23, 2025" f1 f2 = legacy_key "2025-08-23" f2 f1)
  ∧ ∀ (refresh : bool) (headers : list string) (old rowdict : row)
      (f1 f2 : string),
      date_val (date_col headers) old = "August 23, 2025"%string →
      norm_name (get_str old "fighter_1") = norm_name f1 →
      norm_name (get_str old "fighter_2") = norm_name f2 →
      let loaded := mkstore (fst (load_existing_csv headers [old])) 0 0 in
      ∀ st : store,
        st = upsert refresh loaded "2025-08-23" f1 f2 rowdict
        ∨ st = upsert refresh loaded "2025-08-23" f2 f1 rowdict →
        size (key_to_row st) = 1%nat
        ∧ new_count st = 0%nat
        ∧ key_to_row st !! legacy_key "2025-08-23" f1 f2
          = Some (if refresh then merge_rows old rowdict else old).
Proof.
  assert (Hk : ∀ f1 f2 : string,
             legacy_key "August 23, 2025" f1 f2 = legacy_key "2025-08-23" f1 f2).
  { intros. apply legacy_key_same_date.
    by rewrite parse_long_form, parse_iso_form. }
  split; [by rewrite parse_long_form|].
  split; [by rewrite parse_iso_form|].
  split.
  { intros f1 f2. split; [apply Hk|].
    rewrite Hk. apply legacy_key_swap. }
  intros refresh headers old rowdict f1 f2 Hd Hn1 Hn2 loaded st Hst.
  set (k := legacy_key "2025-08-23" f1 f2).
  assert (Hst' : st = upsert refresh loaded "2025-08-23" f1 f2 rowdict).
  { destruct Hst as [->| ->]; [done|].
    unfold upsert. by rewrite (legacy_key_swap _ f2 f1). }
  clear Hst. subst st.
  assert (Hl : key_to_row loaded = {[ k := old ]}).
  { unfold loaded, load_existing_csv. simpl. rewrite Hd.
    rewrite (legacy_key_same_names _ _ _ f1 f2 Hn1 Hn2), Hk.
    by rewrite insert_empty. }
  assert (Hc : new_count loaded = 0%nat) by done.
  clearbody loaded.
  unfold upsert. fold k. rewrite Hl, lookup_singleton_eq.
  destruct refresh; simpl.
  - case_bool_decide as Hm; simpl.
    + rewrite Hl, Hm, map_size_singleton, lookup_singleton_eq. done.
    + rewrite insert_singleton_eq, map_size_singleton, lookup_singleton_eq. done.
  - rewrite Hl, map_size_singleton, lookup_singleton_eq. done.
Qed.

Lemma two_spellings_one_record_witness :
  let old : row :=
    {[ "event_date"%string := VStr "August 23, 2025";
       "fighter_1"%string := VStr "Jon Jones";
       "fighter_2"%string := VStr "Alex Pereira";
       "result"%string := VStr "win" ]} in
  let rowdict : row :=
    {[ "event_date"%string := VStr "2025-08-23";
       "fighter_1"%string := VStr "Jon Jones";
       "fighter_2"%string := VStr "Alex Pereira";
       "method_main"%string := VStr "KO/TKO" ]} in
  let headers := ["event_date"; "fighter_1"; "fighter_2"; "result"]%string in
  let st := upsert true (mkstore (fst (load_existing_csv headers [old])) 0 0)
                   "2025-08-23" "Jon Jones" "Alex Pereira" rowdict in
  size (key_to_row st) = 1%nat
  ∧ new_count st = 0%nat
  ∧ key_to_row st !! legacy_key "2025-08-23" "Jon Jones" "Alex Pereira"
    = Some (merge_rows old rowdict).
Proof.
  intros old rowdict headers st.
  destruct two_spellings_one_record as (_ & _ & _ & H).
  apply (H true headers old rowdict "Jon Jones"%string "Alex Pereira"%string).
  - vm_compute. reflexivity.
  - vm_compute. reflexivity.
  - vm_compute. reflexivity.
  - left. reflexivity.
Defined.

(** ** The merge of two rows *)

Lemma merge_cell_other (k i : string) (v : pyval) (m : row) :
  i ≠ k → merge_cell i v m !! k = m !! k.
Proof.
  intros Hik. unfold merge_cell. destruct v; [done|].
  destruct (unknownish _ && populated m i); [done|].
  by rewrite lookup_insert_ne.
Qed.

Lemma merge_cell_same (k : string) (v : pyval) (m m' : row) :
  m !! k = m' !! k → merge_cell k v m !! k = merge_cell k v m' !! k.
Proof.
  intros H. unfold merge_cell, populated. destruct v; [done|].
  rewrite H. destruct (unknownish _ && _); [done|].
  by rewrite !lookup_insert_eq.
Qed.

(** The merged row, cell by cell: a key of [new_row] is decided by one
    iteration of the loop on the old cell alone, any other key keeps the
    old cell. *)
Lemma merge_rows_lookup (old new : row) (k : string) :
  merge_rows old new !! k
  = match new !! k with
    | Some v => merge_cell k v old !! k
    | None => old !! k
    end.
Proof.
  unfold merge_rows.
  apply (map_fold_weak_ind
           (λ (acc : row) (m : row),
              acc !! k = match m !! k with
                         | Some v => merge_cell k v old !! k
                         | None => old !! k
                         end)).
  - by rewrite lookup_empty.
  - intros i x m r Hi IH.
    destruct (decide (i = k)) as [->|Hne].
    + rewrite lookup_insert_eq. rewrite Hi in IH. by apply merge_cell_same.
    + rewrite lookup_insert_ne by done. by rewrite merge_cell_other.
Qed.

(** A cell counts as blank for the merge when it is null, empty after
    trimming, or spells "unknown" in any case. *)
Lemma unknownish_strip (s : string) :
  unknownish (Py.strip (Py.strip s)) = unknownish (Py.strip s).
Proof. by rewrite strip_idem. Qed.

Lemma unknownish_false_truthy (s : string) :
  unknownish s = false → Py.truthy s = true.
Proof.
  unfold unknownish, Py.truthy. by destruct (String.eqb s "").
Qed.

Lemma merge_cell_str (k s : string) (m : row) :
  merge_cell k (VStr s) m !! k
  = if unknownish (Py.strip s) && populated m k then m !! k
    else Some (VStr (Py.strip s)).
Proof.
  unfold merge_cell. simpl.
  destruct (unknownish _ && _); [done|]. by rewrite lookup_insert_eq.
Qed.

Lemma populated_cell (m : row) (k : string) (v : pyval) :
  m !! k = Some v → populated m k = Py.truthy (Py.strip (py_str v)).
Proof. intros H. unfold populated. by rewrite H. Qed.

Lemma populated_absent (m : row) (k : string) :
  m !! k = None → populated m k = false.
Proof. intros H. unfold populated. by rewrite H. Qed.

Lemma cell_blank_false (v : pyval) :
  cell_blank v = false →
  ∃ s, v = VStr s ∧ unknownish (Py.strip s) = false
       ∧ Py.truthy (Py.strip s) = true.
Proof.
  destruct v as [|s]; [done|]. simpl. intros H.
  exists s. auto using unknownish_false_truthy.
Qed.

(** C10. When the incoming cell is not null but blank or "unknown", and the
    existing row has no cell for the field or only an empty or
    whitespace-only one, the merged cell is the trimmed incoming string: a
    literal "Unknown" can enter a merged row. *)
Theorem merge_writes_blank_over_nothing (e i : row) (f s : string) :
  i !! f = Some (VStr s) →
  unknownish (Py.strip s) = true →
  (e !! f = None ∨ ∃ m, e !! f = Some m ∧ Py.strip (py_str m) = ""%string) →
  merge_rows e i !! f = Some (VStr (Py.strip s)).
Proof.
  intros Hi _ He.
  rewrite merge_rows_lookup, Hi, merge_cell_str.
  assert (populated e f = false) as ->.
  { destruct He as [He|(m & He & Hm)].
    - by apply populated_absent.
    - rewrite (populated_cell _ _ _ He), Hm. done. }
  by rewrite andb_false_r.
Qed.

Lemma merge_writes_blank_over_nothing_witness :
  merge_rows {[ "fighter_1_stance"%string := VStr "  " ]}
             {[ "fighter_1_stance"%string := VStr " Unknown " ]}
    !! "fighter_1_stance"%string
  = Some (VStr "Unknown").
Proof.
  apply (merge_writes_blank_over_nothing _ _ _ " Unknown ").
  - vm_compute. reflexivity.
  - vm_compute. reflexivity.
  - right. exists (VStr "  "). split; vm_compute; reflexivity.
Defined.

(** C5. The merge keeps populated data.  If [a] holds a non-blank cell for
    a field and the cell of [b] for it is null, empty after trimming or
    "unknown", the merged cell is that of [a]; and whatever [b] holds, a
    non-blank cell of [a] is never followed by a blank one in the merged
    row. *)
Theorem merge_keeps_populated (a b : row) (f : string) (va : pyval) :
  a !! f = Some va →
  cell_blank va = false →
  (∀ vb, b !! f = Some vb → cell_blank vb = true →
         merge_rows a b !! f = Some va)
  ∧ ∃ vm, merge_rows a b !! f = Some vm ∧ cell_blank vm = false.
Proof.
  intros Ha Hva.
  destruct (cell_blank_false _ Hva) as (sa & -> & Hua & Hta).
  assert (Hp : populated a f = true) by by rewrite (populated_cell _ _ _ Ha).
  rewrite merge_rows_lookup. split.
  - intros vb Hb Hvb. rewrite Hb. destruct vb as [|sb]; [done|].
    simpl in Hvb. by rewrite merge_cell_str, Hvb, Hp.
  - destruct (b !! f) as [[|sb]|] eqn:Hb; [by eauto| |by eauto].
    rewrite merge_cell_str, Hp, andb_true_r.
    destruct (unknownish (Py.strip sb)) eqn:Hub; [by eauto|].
    eexists. split; [done|]. simpl. by rewrite strip_idem.
Qed.

Lemma merge_keeps_populated_witness :
  let a : row := {[ "fighter_1_reach"%string := VStr "84" ]} in
  let b : row := {[ "fighter_1_reach"%string := VStr " unknown " ]} in
  (∀ vb, b !! "fighter_1_reach"%string = Some vb → cell_blank vb = true →
         merge_rows a b !! "fighter_1_reach"%string = Some (VStr "84"))
  ∧ ∃ vm, merge_rows a b !! "fighter_1_reach"%string = Some vm
          ∧ cell_blank vm = false.
Proof.
  apply (merge_keeps_populated _ _ "fighter_1_reach" (VStr "84")).
  - vm_compute. reflexivity.
  - vm_compute. reflexivity.
Defined.

(** The other tokens of [BLANK_TOKENS] are ordinary values for the merge:
    only the empty string and "unknown" give way to a populated cell. *)
Example merge_takes_other_blank_tokens :
  merge_rows {[ "fighter_1_reach"%string := VStr "84" ]}
             {[ "fighter_1_reach"%string := VStr "n/a" ]}
    !! "fighter_1_reach"%string
  = Some (VStr "n/a").
Proof. vm_compute. reflexivity. Qed.

(** Merging the same observation a second time changes nothing. *)
Lemma merge_rows_twice (a b : row) :
  merge_rows (merge_rows a b) b = merge_rows a b.
Proof.
  apply map_eq. intros k.
  rewrite (merge_rows_lookup (merge_rows a b) b k).
  destruct (b !! k) as [[|s]|] eqn:Hb; [done| |done].
  rewrite merge_cell_str.
  destruct (unknownish (Py.strip s) && populated (merge_rows a b) k) eqn:E;
    [done|].
  rewrite merge_rows_lookup, Hb, merge_cell_str.
  destruct (unknownish (Py.strip s)) eqn:Hu; [|done].
  simpl in E |- *.
  destruct (populated a k) eqn:Hp; [|done].
  exfalso. revert E. unfold populated at 1.
  rewrite merge_rows_lookup, Hb, merge_cell_str, Hu, Hp. simpl.
  unfold populated in Hp. destruct (a !! k); congruence.
Qed.

(** The cells of a row on which a self-merge is the identity. *)
Lemma merge_self_cell (r : row) (k s : string) :
  r !! k = Some (VStr s) →
  (merge_cell k (VStr s) r !! k = Some (VStr s)
   ↔ Py.strip s = s ∨ Py.lower (Py.strip s) = "unknown"%string).
Proof.
  intros Hr. rewrite merge_cell_str, (populated_cell _ _ _ Hr). simpl.
  unfold unknownish, Py.truthy.
  destruct (String.eqb_spec (Py.strip s) "") as [He|He]; simpl.
  - split.
    + intros [= H]. by left.
    + intros [H|H]; [by rewrite H|]. rewrite He in H. done.
  - rewrite andb_true_r.
    destruct (String.eqb_spec (Py.lower (Py.strip s)) "unknown") as [Hu|Hu].
    + split; [by right|by rewrite Hr].
    + split.
      * intros [= H]. by left.
      * intros [H|H]; [by rewrite H|done].
Qed.

(** What a self-merge leaves in a string cell. *)
Lemma merge_self_value (r : row) (k s : string) :
  r !! k = Some (VStr s) →
  merge_cell k (VStr s) r !! k
  = Some (VStr (if String.eqb (Py.lower (Py.strip s)) "unknown"
                then s else Py.strip s)).
Proof.
  intros Hr. rewrite merge_cell_str, (populated_cell _ _ _ Hr). simpl.
  unfold unknownish, Py.truthy.
  destruct (String.eqb_spec (Py.strip s) "") as [He|He]; simpl.
  - by rewrite He.
  - rewrite andb_true_r.
    by destruct (String.eqb (Py.lower (Py.strip s)) "unknown").
Qed.

(** C4, as the code has it.  Merging the same observation twice gives what
    merging it once gives, for all rows.  A row merged with itself is
    returned unchanged exactly when each of its string cells is already
    trimmed or spells "unknown": the merge stores trimmed strings, so a cell
    with surrounding whitespace is rewritten.  For every row, the
    self-merge is the row with each string cell that does not spell
    "unknown" replaced by its trimmed form, and nothing else changed. *)
Theorem merge_idempotent :
  (∀ a b : row, merge_rows (merge_rows a b) b = merge_rows a b)
  ∧ (∀ r : row,
       merge_rows r r = r
       ↔ ∀ k s, r !! k = Some (VStr s) →
                Py.strip s = s ∨ Py.lower (Py.strip s) = "unknown"%string)
  ∧ (∀ r : row,
       merge_rows r r
       = (λ v, match v with
               | VNone => VNone
               | VStr s =>
                   VStr (if String.eqb (Py.lower (Py.strip s)) "unknown"
                         then s else Py.strip s)
               end) <$> r).
Proof.
  split; [apply merge_rows_twice|]. split.
  - intros r. split.
    + intros Hrr k s Hk.
      apply (merge_self_cell r k s Hk).
      pose proof (merge_rows_lookup r r k) as H.
      rewrite Hrr, Hk in H. done.
    + intros Hall. apply map_eq. intros k.
      rewrite merge_rows_lookup.
      destruct (r !! k) as [[|s]|] eqn:Hk; [done| |done].
      apply (merge_self_cell r k s Hk), (Hall k s Hk).
  - intros r. apply map_eq. intros k.
    rewrite merge_rows_lookup, lookup_fmap.
    destruct (r !! k) as [[|s]|] eqn:Hk; [done| |done].
    by rewrite (merge_self_value r k s Hk).
Qed.

Lemma merge_idempotent_witness :
  let r : row :=
    {[ "fighter_1"%string := VStr "Jon Jones";
       "fighter_1_stance"%string := VStr "" ]} in
  merge_rows r r = r.
Proof.
  intros r. apply (proj1 (proj2 merge_idempotent) r).
  intros k s Hk. left.
  destruct (decide (k = "fighter_1"%string)) as [->|H1].
  - vm_compute in Hk. by injection Hk as <-.
  - destruct (decide (k = "fighter_1_stance"%string)) as [->|H2].
    + vm_compute in Hk. by injection Hk as <-.
    + unfold r in Hk.
      rewrite lookup_insert_ne, lookup_singleton_ne in Hk by done. done.
Defined.

(** The claim [merge(r, r) == r] fails on a row with an untrimmed cell. *)
Lemma merge_self_counterexample :
  let r : row := {[ "fighter_1"%string := VStr " Jon Jones" ]} in
  r !! "fighter_1"%string = Some (VStr " Jon Jones")
  ∧ merge_rows r r !! "fighter_1"%string = Some (VStr "Jon Jones")
  ∧ merge_rows r r ≠ r.
Proof.
  intros r. split; [reflexivity|]. split; [vm_compute; reflexivity|].
  intros H. apply (f_equal (λ m : row, m !! "fighter_1"%string)) in H.
  vm_compute in H. discriminate H.
Qed.

(** ** The result of a fight, seen from each side *)

Lemma get_str_write_counters (s : side) (wl : Z * Z) (r : row) (k : string) :
  k ≠ wins_col s → k ≠ loss_col s →
  get_str (write_counters s wl r) k = get_str r k.
Proof.
  intros H1 H2. unfold get_str, write_counters.
  by rewrite !lookup_insert_ne.
Qed.

Lemma update_counts_write (s s' : side) (wl0 wl : Z * Z) (r : row) :
  update_counts s (write_counters s' wl0 r) wl = update_counts s r wl.
Proof.
  unfold update_counts.
  rewrite get_str_write_counters; [done|by destruct s'..].
Qed.

Lemma startswith_loss_l (s : string) :
  Py.startswith s "loss" = true → Py.startswith s "l" = true.
Proof.
  unfold Py.startswith. destruct s as [|c s']; [done|].
  cbn [String.prefix]. destruct (ascii_dec _ c); [|done].
  intros _. by destruct s'.
Qed.

(** C3, as the code has it.  With the result trimmed and lower-cased: a
    result beginning with "win" adds a win to the fighter on side 1 and a
    loss to the fighter on side 2; any other result beginning with "l"
    ("loss", a bare "l", but also every other word in "l") adds a loss to
    side 1 and a win to side 2; every remaining result changes nothing. *)
Theorem result_is_side_1_centric (r : row) (w l : Z) :
  let res := Py.lower (Py.strip (get_str r "result")) in
  (Py.startswith res "win" = true →
     update_counts F1 r (w, l) = (w + 1, l)
     ∧ update_counts F2 r (w, l) = (w, l + 1))
  ∧ (Py.startswith res "win" = false → Py.startswith res "l" = true →
     update_counts F1 r (w, l) = (w, l + 1)
     ∧ update_counts F2 r (w, l) = (w + 1, l))
  ∧ (Py.startswith res "win" = false → Py.startswith res "l" = false →
     update_counts F1 r (w, l) = (w, l)
     ∧ update_counts F2 r (w, l) = (w, l)).
Proof.
  intros res. unfold update_counts. fold res.
  repeat split; intros; simpl.
  - by rewrite H.
  - by rewrite H.
  - by rewrite H, H0, orb_true_r.
  - by rewrite H, H0, orb_true_r.
  - rewrite H, H0, orb_false_r.
    destruct (Py.startswith res "loss") eqn:E; [|done].
    apply startswith_loss_l in E. congruence.
  - rewrite H, H0, orb_false_r.
    destruct (Py.startswith res "loss") eqn:E; [|done].
    apply startswith_loss_l in E. congruence.
Qed.

Lemma result_is_side_1_centric_witness :
  let r : row := {[ "result"%string := VStr " Win" ]} in
  update_counts F1 r (2, 1) = (3, 1) ∧ update_counts F2 r (2, 1) = (2, 2).
Proof.
  intros r. apply (proj1 (result_is_side_1_centric r 2 1)).
  vm_compute. reflexivity.
Defined.

(** A result that neither begins with "loss" nor is a bare "l" is still
    counted as a loss of side 1. *)
Lemma l_word_counterexample :
  let r : row := {[ "result"%string := VStr "lx" ]} in
  Py.startswith "lx" "win" = false
  ∧ Py.startswith "lx" "loss" = false
  ∧ "lx"%string ≠ "l"%string
  ∧ update_counts F1 r (0, 0) = (0, 1)
  ∧ update_counts F2 r (0, 0) = (1, 0).
Proof. intros r. repeat split; try (vm_compute; reflexivity). discriminate. Qed.

(** ** Stable sorting *)

Lemma insert_by_perm {A} (le : A → A → bool) (x : A) (l : list A) :
  insert_by le x l ≡ₚ x :: l.
Proof.
  induction l as [|y l IH]; [done|].
  simpl. destruct (le x y); [done|].
  rewrite IH. apply Permutation_swap.
Qed.

Lemma stable_sort_perm {A} (le : A → A → bool) (l : list A) :
  stable_sort le l ≡ₚ l.
Proof.
  induction l as [|x l IH]; [done|].
  simpl. fold (stable_sort le l). by rewrite insert_by_perm, IH.
Qed.

(** ** Mode with recency fallback *)

Lemma most_common_head_max (c : counter) (x : string * Z) (mc : counter) :
  most_common c = x :: mc → ∀ y, y ∈ c → snd y <= snd x.
Proof.
  revert x mc. induction c as [|a c IH]; intros x mc H y Hy.
  { by apply elem_of_nil in Hy. }
  unfold most_common, stable_sort in H. simpl in H.
  fold (stable_sort (λ x y : string * Z, snd y <=? snd x) c) in H.
  fold (most_common c) in H.
  destruct (most_common c) as [|h t] eqn:E.
  - simpl in H. injection H as <- <-.
    assert (c = []) as ->.
    { apply Permutation_nil_r. rewrite <- E. unfold most_common.
      symmetry. apply stable_sort_perm. }
    apply list_elem_of_singleton in Hy as ->. lia.
  - simpl in H. specialize (IH h t eq_refl).
    destruct (snd h <=? snd a) eqn:Hle.
    + injection H as <- <-. apply Z.leb_le in Hle.
      apply elem_of_cons in Hy as [->|Hy]; [lia|].
      specialize (IH y Hy). lia.
    + injection H as <- <-. apply Z.leb_gt in Hle.
      apply elem_of_cons in Hy as [->|Hy]; [lia|]. by apply IH.
Qed.

Lemma candidates_spec (c : counter) (v : string) :
  v ∈ candidates (most_common c) ↔ is_top c v.
Proof.
  unfold candidates, is_top.
  rewrite list_elem_of_fmap.
  assert (Hperm : most_common c ≡ₚ c) by apply stable_sort_perm.
  split.
  - intros ([v' n] & -> & Hin). apply list_elem_of_filter in Hin as [Hn Hin].
    simpl in *. exists n. split; [by rewrite <- Hperm|].
    destruct (most_common c) as [|x mc] eqn:E; [by apply elem_of_nil in Hin|].
    simpl in Hn. subst n. by apply (most_common_head_max c x mc).
  - intros (n & Hin & Hmax).
    exists (v, n). split; [done|].
    apply list_elem_of_filter. split; [|by rewrite Hperm].
    destruct (most_common c) as [|x mc] eqn:E.
    { rewrite <- Hperm in Hin. by apply elem_of_nil in Hin. }
    simpl.
    assert (x ∈ c) by (rewrite <- Hperm; left).
    pose proof (most_common_head_max c x mc E (v, n) Hin).
    specialize (Hmax x H). simpl in *. lia.
Qed.

Lemma candidates_NoDup (c : counter) :
  NoDup (fst <$> c) → NoDup (candidates (most_common c)).
Proof.
  intros Hnd. unfold candidates.
  assert (Hperm : most_common c ≡ₚ c) by apply stable_sort_perm.
  assert (Hmc : NoDup (fst <$> most_common c)) by by rewrite Hperm.
  generalize (top_count (most_common c)). intros n.
  eapply sublist_NoDup; [exact Hmc|].
  apply fmap_sublist, sublist_filter.
Qed.

Lemma NoDup_all_same {A} (l : list A) (v : A) :
  NoDup l → v ∈ l → (∀ x, x ∈ l → x = v) → l = [v].
Proof.
  intros Hnd Hin Hall.
  destruct l as [|a l]; [by apply elem_of_nil in Hin|].
  assert (a = v) as -> by (apply Hall; left).
  destruct l as [|b l]; [done|].
  assert (b = v) as -> by (apply Hall; right; left).
  apply NoDup_cons in Hnd as [Hn _]. exfalso. apply Hn. left.
Qed.

Lemma find_all_false {A} (f : A → bool) (l : list A) :
  (∀ x, x ∈ l → f x = false) → List.find f l = None.
Proof.
  induction l as [|a l IH]; intros H; [done|].
  simpl. rewrite (H a) by left. apply IH. intros x Hx. apply H. by right.
Qed.

Lemma find_app_false {A} (f : A → bool) (l1 l2 : list A) :
  (∀ x, x ∈ l1 → f x = false) → List.find f (l1 ++ l2) = List.find f l2.
Proof.
  induction l1 as [|a l IH]; intros H; [done|].
  simpl. rewrite (H a) by left. apply IH. intros x Hx. apply H. by right.
Qed.

(** Scanning a list backwards finds its last element that passes. *)
Lemma find_rev_last {A} (f : A → bool) (pre post : list A) (x : A) :
  f x = true → (∀ y, y ∈ post → f y = false) →
  List.find f (rev (pre ++ x :: post)) = Some x.
Proof.
  intros Hx Hpost.
  rewrite rev_app_distr. simpl. rewrite <- app_assoc.
  rewrite find_app_false.
  - simpl. by rewrite Hx.
  - intros y Hy. apply Hpost.
    apply list_elem_of_In, in_rev. by apply list_elem_of_In.
Qed.

Lemma existsb_eqb_elem (s : string) (l : list string) :
  existsb (String.eqb s) l = true ↔ s ∈ l.
Proof.
  rewrite existsb_exists. split.
  - intros (x & Hin & Heq). apply String.eqb_eq in Heq as ->.
    by apply list_elem_of_In.
  - intros Hin. exists s. split; [by apply list_elem_of_In|apply String.eqb_refl].
Qed.

(** C8. For a counter with distinct keys and a timeline in chronological
    order, [choose_mode_with_recent_fallback] returns: the value of
    highest count when there is exactly one; on a tie for the highest
    count, the tied value met last in the timeline; for an empty counter,
    the value of the last non-blank timeline entry, and [None] when the
    timeline has no non-blank entry. *)
Theorem choose_mode_cases (c : counter) (tl : timeline) :
  NoDup (fst <$> c) →
  (∀ v, is_top c v → (∀ v', is_top c v' → v' = v) →
        choose_mode_with_recent_fallback c tl = Some v)
  ∧ (∀ v1 v2 pre d v post,
        is_top c v1 → is_top c v2 → v1 ≠ v2 →
        tl = pre ++ (d, v) :: post →
        is_top c v → (∀ e, e ∈ post → ¬ is_top c (snd e)) →
        choose_mode_with_recent_fallback c tl = Some v)
  ∧ (c = [] →
     (∀ pre d v post,
        tl = pre ++ (d, v) :: post →
        is_blank (VStr v) = false →
        (∀ e, e ∈ post → is_blank (VStr (snd e)) = true) →
        choose_mode_with_recent_fallback c tl = Some v)
     ∧ ((∀ e, e ∈ tl → is_blank (VStr (snd e)) = true) →
        choose_mode_with_recent_fallback c tl = None)).
Proof.
  intros Hnd. split; [|split].
  - intros v Hv Huniq.
    assert (Hc : candidates (most_common c) = [v]).
    { apply NoDup_all_same.
      - by apply candidates_NoDup.
      - by apply candidates_spec.
      - intros x Hx. by apply Huniq, candidates_spec. }
    unfold choose_mode_with_recent_fallback.
    destruct c as [|x c']; [|by rewrite Hc].
    destruct Hv as (n & Hin & _). by apply elem_of_nil in Hin.
  - intros v1 v2 pre d v post H1 H2 Hne -> Hv Hpost.
    unfold choose_mode_with_recent_fallback.
    destruct c as [|x c'].
    { destruct Hv as (n & Hin & _). by apply elem_of_nil in Hin. }
    apply candidates_spec in H1, H2.
    set (cands := candidates (most_common (x :: c'))) in *.
    assert (Hfind :
      List.find (λ dv : date * string, existsb (String.eqb (snd dv)) cands)
                (rev (pre ++ (d, v) :: post)) = Some (d, v)).
    { apply find_rev_last.
      - apply existsb_eqb_elem. by apply candidates_spec.
      - intros e He. apply not_true_is_false. intros Hex.
        apply existsb_eqb_elem, candidates_spec in Hex. by apply (Hpost e). }
    rewrite Hfind.
    destruct cands as [|a [|b l]]; [by apply elem_of_nil in H1| |done].
    apply list_elem_of_singleton in H1, H2. congruence.
  - intros ->. unfold choose_mode_with_recent_fallback, recent_non_blank.
    split.
    + intros pre d v post -> Hv Hpost.
      rewrite (find_rev_last _ pre post (d, v)); [done| |].
      * cbn [snd]. by rewrite Hv.
      * intros e He. by rewrite (Hpost e He).
    + intros Hall. rewrite find_all_false; [done|].
      intros e He. rewrite (Hall e); [done|].
      apply list_elem_of_In, in_rev. by apply list_elem_of_In.
Qed.

Lemma choose_mode_cases_witness :
  choose_mode_with_recent_fallback
    [("Brazil"%string, 2); ("USA"%string, 2); ("Peru"%string, 1)]
    [(Date.mk 2020 1 1, "USA"%string); (Date.mk 2021 1 1, "Brazil"%string);
     (Date.mk 2022 1 1, "Peru"%string)]
  = Some "Brazil"%string.
Proof.
  set (c := [("Brazil"%string, 2); ("USA"%string, 2); ("Peru"%string, 1)]).
  assert (Hnd : NoDup (fst <$> c)).
  { apply (bool_decide_unpack _). vm_compute. exact I. }
  assert (Htop : ∀ v, is_top c v ↔ v = "Brazil"%string ∨ v = "USA"%string).
  { intros v. unfold is_top, c. split.
    - intros (n & Hin & Hmax).
      specialize (Hmax ("Brazil"%string, 2)). simpl in Hmax.
      rewrite !elem_of_cons in Hin.
      destruct Hin as [[= -> ->]|[[= -> ->]|[[= -> ->]|Hin]]]; auto.
      + exfalso. assert (2 <= 1) by (apply Hmax; left). lia.
      + by apply elem_of_nil in Hin.
    - intros [->| ->]; exists 2; (split; [set_solver|]);
        intros y; rewrite !elem_of_cons, elem_of_nil;
        intros [->|[->|[->|[]]]]; simpl; lia. }
  apply (proj1 (proj2 (choose_mode_cases c _ Hnd))
           "Brazil"%string "USA"%string
           [(Date.mk 2020 1 1, "USA"%string)] (Date.mk 2021 1 1)
           "Brazil"%string [(Date.mk 2022 1 1, "Peru"%string)]).
  - apply Htop. by left.
  - apply Htop. by right.
  - discriminate.
  - reflexivity.
  - apply Htop. by left.
  - intros e He. apply list_elem_of_singleton in He as ->. simpl.
    rewrite Htop. intros [H|H]; discriminate H.
Defined.

(** ** Dates *)

Lemma date_leb_iff (a b : date) :
  Date.leb a b = true
  ↔ Date.year a < Date.year b
    ∨ (Date.year a = Date.year b
       ∧ (Date.month a < Date.month b
          ∨ (Date.month a = Date.month b ∧ Date.day a <= Date.day b))).
Proof.
  unfold Date.leb, Date.compare.
  destruct (Z.compare_spec (Date.year a) (Date.year b));
    destruct (Z.compare_spec (Date.month a) (Date.month b));
    destruct (Z.compare_spec (Date.day a) (Date.day b));
    split; intros; try done; lia.
Qed.

Lemma date_ltb_iff (a b : date) :
  Date.ltb a b = true
  ↔ Date.year a < Date.year b
    ∨ (Date.year a = Date.year b
       ∧ (Date.month a < Date.month b
          ∨ (Date.month a = Date.month b ∧ Date.day a < Date.day b))).
Proof.
  unfold Date.ltb, Date.compare.
  destruct (Z.compare_spec (Date.year a) (Date.year b));
    destruct (Z.compare_spec (Date.month a) (Date.month b));
    destruct (Z.compare_spec (Date.day a) (Date.day b));
    split; intros; try done; lia.
Qed.

Lemma date_leb_refl (a : date) : Date.leb a a = true.
Proof. apply date_leb_iff. lia. Qed.

Lemma date_leb_trans (a b c : date) :
  Date.leb a b = true → Date.leb b c = true → Date.leb a c = true.
Proof. rewrite !date_leb_iff. lia. Qed.

Lemma date_leb_total (a b : date) :
  Date.leb a b = true ∨ Date.leb b a = true.
Proof. rewrite !date_leb_iff. lia. Qed.

Lemma date_leb_antisym (a b : date) :
  Date.leb a b = true → Date.leb b a = true → a = b.
Proof.
  rewrite !date_leb_iff. destruct a, b; simpl. intros.
  f_equal; lia.
Qed.

Lemma date_gtb_not_leb (a b : date) : Date.gtb a b = negb (Date.leb a b).
Proof.
  unfold Date.gtb.
  destruct (Date.ltb b a) eqn:E1, (Date.leb a b) eqn:E2; try done.
  - apply date_ltb_iff in E1. apply date_leb_iff in E2. lia.
  - apply not_true_iff_false in E1, E2.
    rewrite date_ltb_iff in E1. rewrite date_leb_iff in E2. lia.
Qed.

Lemma date_ltb_leb (a b : date) : Date.ltb a b = true → Date.leb a b = true.
Proof. rewrite date_ltb_iff, date_leb_iff. lia. Qed.

Lemma date_ltb_not_leb (a b : date) : Date.ltb a b = true → Date.leb b a = false.
Proof.
  intros H. apply not_true_iff_false. revert H.
  rewrite date_ltb_iff, date_leb_iff. lia.
Qed.

#[local] Instance date_entry_le_trans {A} :
  Transitive (λ x y : date * A, Date.leb (fst x) (fst y) = true).
Proof. intros x y z. apply date_leb_trans. Qed.

(** ** Date-proximate selection *)

Lemma find_app_split {A} (f : A → bool) (l1 l2 : list A) :
  List.find f (l1 ++ l2)
  = match List.find f l1 with
    | Some x => Some x
    | None => List.find f l2
    end.
Proof.
  induction l1 as [|a l IH]; [done|]. simpl. by destruct (f a).
Qed.

(** On a sorted timeline the first loop, [break] included, keeps the last
    entry that passes its test. *)
Lemma scan_prev_sorted (tl : timeline) (target : date) (prev : option string) :
  chronological tl →
  scan_prev tl target prev
  = match List.find (at_or_before target) (rev tl) with
    | Some e => Some (snd e)
    | None => prev
    end.
Proof.
  intros Hs. apply Sorted_StronglySorted in Hs; [|apply _].
  revert prev. induction Hs as [|e rest Hs IH Hall]; intros prev; [done|].
  simpl. rewrite date_gtb_not_leb.
  destruct (Date.leb (fst e) target) eqn:Hle; simpl.
  - rewrite IH, find_app_split.
    destruct (List.find _ (rev rest)); [done|]. simpl.
    by destruct (at_or_before target e).
  - assert (Hnone : ∀ x, x ∈ e :: rest → at_or_before target x = false).
    { intros x Hx. unfold at_or_before.
      apply elem_of_cons in Hx as [->|Hx]; [by rewrite Hle|].
      rewrite Forall_forall in Hall.
      apply Hall in Hx.
      destruct (Date.leb (fst x) target) eqn:Hx'; [|done].
      by rewrite (date_leb_trans _ _ _ Hx Hx') in Hle. }
    rewrite (Hnone e) by left.
    rewrite find_all_false; [done|].
    intros x Hx. apply Hnone.
    apply list_elem_of_In. apply (in_rev (e :: rest)). by apply list_elem_of_In.
Qed.

Lemma non_blank_truthy (v : string) :
  is_blank (VStr v) = false → Py.truthy v = true.
Proof. by destruct v. Qed.

Lemma find_first {A} (f : A → bool) (pre post : list A) (x : A) :
  f x = true → (∀ y, y ∈ pre → f y = false) →
  List.find f (pre ++ x :: post) = Some x.
Proof.
  intros Hx Hpre. rewrite find_app_false by done. simpl. by rewrite Hx.
Qed.

Lemma first_max_spec (l : counter) (best : string * Z) :
  first_max best l ∈ best :: l
  ∧ ∀ y, y ∈ best :: l → snd y <= snd (first_max best l).
Proof.
  revert best. induction l as [|x l IH]; intros best; simpl.
  - split; [left|]. intros y Hy. apply list_elem_of_singleton in Hy as ->. lia.
  - destruct (IH (if snd best <? snd x then x else best)) as [Hin Hmax].
    split.
    + apply elem_of_cons in Hin as [->|Hin].
      * destruct (snd best <? snd x); [right; left|left].
      * right. by right.
    + intros y Hy.
      pose proof (Hmax (if snd best <? snd x then x else best)
                       ltac:(left)) as Hb.
      rewrite !elem_of_cons in Hy. destruct Hy as [->|[->|Hy]].
      * destruct (snd best <? snd x) eqn:E; [|done].
        apply Z.ltb_lt in E. lia.
      * destruct (snd best <? snd x) eqn:E; [done|].
        apply Z.ltb_ge in E. lia.
      * apply Hmax. by right.
Qed.

Lemma gym_mode_top (c : counter) (v : string) :
  gym_mode c = Some v → is_top c v.
Proof.
  unfold gym_mode, most_common_1. destruct c as [|x l]; [done|].
  intros [= <-]. destruct (first_max_spec l x) as [Hin Hmax].
  exists (snd (first_max x l)). split; [|done].
  by destruct (first_max x l).
Qed.

(** C9. On a timeline sorted by date, [find_gym_for_date] returns the value
    of the last non-blank entry dated at or before the target when there is
    one; otherwise the value of the first non-blank entry dated at or after
    the target when there is one; otherwise the mode value it was given,
    which [backfill_born_gym] computes from the counts alone (a value of
    highest count, [None] for an empty counter).  For the camps
    ["Camp A"; "Camp A"; "Camp B"] at increasing dates and a target before
    all three the answer is ["Camp A"]. *)
Theorem find_gym_for_date_cases :
  (∀ (tl : timeline) (target : date) (mode_value : option string),
     chronological tl →
     (∀ pre e post,
        tl = pre ++ e :: post →
        at_or_before target e = true →
        (∀ x, x ∈ post → at_or_before target x = false) →
        find_gym_for_date tl target mode_value = Some (snd e))
     ∧ ((∀ x, x ∈ tl → at_or_before target x = false) →
        (∀ pre e post,
           tl = pre ++ e :: post →
           at_or_after target e = true →
           (∀ x, x ∈ pre → at_or_after target x = false) →
           find_gym_for_date tl target mode_value = Some (snd e))
        ∧ ((∀ x, x ∈ tl → at_or_after target x = false) →
           find_gym_for_date tl target mode_value = mode_value)))
  ∧ (∀ (c : counter),
       (c = [] → gym_mode c = None)
       ∧ (c ≠ [] → ∃ v, gym_mode c = Some v ∧ is_top c v)
       ∧ ∀ tl d, gym_best c tl d = find_gym_for_date tl d (gym_mode c))
  ∧ (∀ (target d1 d2 d3 : date) (mode_value : option string),
       Date.ltb target d1 = true →
       Date.ltb d1 d2 = true →
       Date.ltb d2 d3 = true →
       find_gym_for_date
         [(d1, "Camp A"%string); (d2, "Camp A"%string); (d3, "Camp B"%string)]
         target mode_value
       = Some "Camp A"%string).
Proof.
  split; [|split].
  - intros tl target mode_value Hs. unfold find_gym_for_date.
    rewrite (scan_prev_sorted _ _ _ Hs). split.
    + intros pre e post -> He Hpost.
      rewrite (find_rev_last _ pre post e He Hpost). simpl.
      rewrite non_blank_truthy; [done|].
      unfold at_or_before in He. apply andb_true_iff in He as [_ He].
      by apply negb_true_iff.
    + intros Hnone.
      rewrite find_all_false; [simpl|].
      2:{ intros x Hx. apply Hnone.
          apply list_elem_of_In, in_rev. by apply list_elem_of_In. }
      split.
      * intros pre e post -> He Hpre. by rewrite (find_first _ pre post e He Hpre).
      * intros Hafter. by rewrite find_all_false.
  - intros c. split; [by intros ->|]. split; [|done].
    intros Hc. destruct c as [|x l]; [done|].
    eexists. split; [reflexivity|]. by apply gym_mode_top.
  - intros target d1 d2 d3 mode_value H1 _ _.
    unfold find_gym_for_date. simpl.
    rewrite date_gtb_not_leb.
    unfold at_or_before, at_or_after, Date.geb. simpl.
    rewrite (date_ltb_not_leb _ _ H1), (date_ltb_leb _ _ H1). done.
Qed.

Lemma find_gym_for_date_cases_witness :
  find_gym_for_date
    [(Date.mk 2020 3 7, "Camp A"%string); (Date.mk 2021 6 12, "Camp A"%string);
     (Date.mk 2023 1 21, "Camp B"%string)]
    (Date.mk 2019 11 2) (Some "Camp A"%string)
  = Some "Camp A"%string.
Proof.
  apply (proj2 (proj2 find_gym_for_date_cases)); vm_compute; reflexivity.
Defined.

(** The two selections can disagree: after the last date the proximate
    value is the latest camp although the mode is the older one. *)
Example proximate_differs_from_mode :
  let counts := [("Camp A"%string, 2); ("Camp B"%string, 1)] in
  let tl := [(Date.mk 2020 3 7, "Camp A"%string);
             (Date.mk 2021 6 12, "Camp A"%string);
             (Date.mk 2023 1 21, "Camp B"%string)] in
  gym_mode counts = Some "Camp A"%string
  ∧ gym_best counts tl (Date.mk 2024 1 1) = Some "Camp B"%string
  ∧ gym_best counts tl (Date.mk 2019 1 1) = Some "Camp A"%string.
Proof. vm_compute. done. Qed.

(** ** The last date a competitor was seen *)

(** What [last_seen] holds after the appearances [obs] were noted. *)
Lemma note_seen_inv (obs : list (string * date)) (ls : gmap string date)
    (n : string) (d : date) :
  ls !! ""%string = None →
  (∀ m, m ≠ ""%string →
        match ls !! m with
        | Some last => most_recent obs m last
        | None => ∀ d', (m, d') ∉ obs
        end) →
  note_seen d n ls !! ""%string = None
  ∧ ∀ m, m ≠ ""%string →
         match note_seen d n ls !! m with
         | Some last => most_recent (obs ++ [(n, d)]) m last
         | None => ∀ d', (m, d') ∉ obs ++ [(n, d)]
         end.
Proof.
  intros Hempty Hinv. unfold note_seen.
  assert (Hkeep : ∀ m, m ≠ n → m ≠ ""%string →
            match ls !! m with
            | Some last => most_recent (obs ++ [(n, d)]) m last
            | None => ∀ d', (m, d') ∉ obs ++ [(n, d)]
            end).
  { intros m Hmn Hm. specialize (Hinv m Hm).
    destruct (ls !! m) as [last|].
    - destruct Hinv as [Hin Hmax]. split; [set_solver|].
      intros d' Hd'. apply elem_of_app in Hd' as [Hd'|Hd']; [by apply Hmax|].
      apply list_elem_of_singleton in Hd'. congruence.
    - intros d' Hd'. apply elem_of_app in Hd' as [Hd'|Hd'].
      + by apply (Hinv d').
      + apply list_elem_of_singleton in Hd'. congruence. }
  destruct (Py.truthy n) eqn:Hn; simpl.
  2:{ apply truthy_false in Hn. subst n. split; [done|].
      intros m Hm. by apply Hkeep. }
  apply truthy_true in Hn.
  pose proof (Hinv n Hn) as Hnn.
  destruct (ls !! n) as [old|] eqn:Hold.
  - destruct Hnn as [Hin Hmax].
    destruct (Date.gtb d old) eqn:Hgt.
    + split; [by rewrite lookup_insert_ne|].
      intros m Hm. destruct (decide (m = n)) as [->|Hmn].
      * rewrite lookup_insert_eq. split; [set_solver|].
        intros d' Hd'. apply elem_of_app in Hd' as [Hd'|Hd'].
        -- apply (date_leb_trans _ old); [by apply Hmax|].
           by apply date_ltb_leb.
        -- apply list_elem_of_singleton in Hd'. injection Hd' as ->.
           apply date_leb_refl.
      * rewrite lookup_insert_ne by done. by apply Hkeep.
    + split; [done|].
      intros m Hm. destruct (decide (m = n)) as [->|Hmn]; [|by apply Hkeep].
      rewrite Hold. split; [set_solver|].
      intros d' Hd'. apply elem_of_app in Hd' as [Hd'|Hd']; [by apply Hmax|].
      apply list_elem_of_singleton in Hd'. injection Hd' as ->.
      rewrite date_gtb_not_leb in Hgt. by apply negb_false_iff in Hgt.
  - split; [by rewrite lookup_insert_ne|].
    intros m Hm. destruct (decide (m = n)) as [->|Hmn].
    + rewrite lookup_insert_eq. split; [set_solver|].
      intros d' Hd'. apply elem_of_app in Hd' as [Hd'|Hd'].
      * by apply Hnn in Hd'.
      * apply list_elem_of_singleton in Hd'. injection Hd' as ->.
        apply date_leb_refl.
    + rewrite lookup_insert_ne by done. by apply Hkeep.
Qed.

Lemma sightings_snoc (rows : list row) (r : row) :
  sightings (rows ++ [r]) = sightings rows ++ sightings [r].
Proof. unfold sightings. by rewrite flat_map_app. Qed.

Lemma last_seen_of_inv (rows : list row) :
  last_seen_of rows !! ""%string = None
  ∧ ∀ m, m ≠ ""%string →
         match last_seen_of rows !! m with
         | Some last => most_recent (sightings rows) m last
         | None => ∀ d, (m, d) ∉ sightings rows
         end.
Proof.
  induction rows as [|r rows IH] using rev_ind.
  - split; [done|]. intros m _. unfold last_seen_of. simpl.
    rewrite lookup_empty. intros d Hd. by apply elem_of_nil in Hd.
  - unfold last_seen_of in *. rewrite foldl_app, sightings_snoc. simpl.
    destruct IH as [IH0 IH]. unfold seen_row.
    destruct (parse_date_to_obj (get_str r "event_date")) as [d|].
    + destruct (note_seen_inv _ _ (norm_name (get_str r "fighter_1")) d IH0 IH)
        as [H0 H1].
      destruct (note_seen_inv _ _ (norm_name (get_str r "fighter_2")) d H0 H1)
        as [H0' H1'].
      split; [done|]. intros m Hm. specialize (H1' m Hm).
      by rewrite <- app_assoc in H1'.
    + rewrite app_nil_r. done.
Qed.

Lemma most_recent_unique (obs : list (string * date)) (n : string)
    (d1 d2 : date) :
  most_recent obs n d1 → most_recent obs n d2 → d1 = d2.
Proof.
  intros [Hin1 Hmax1] [Hin2 Hmax2].
  apply date_leb_antisym; auto.
Qed.

(** [last_seen] holds, for every named competitor with a dated row, the
    most recent of their dates, and nothing for anyone else. *)
Lemma last_seen_of_most_recent (rows : list row) (n : string) (last : date) :
  n ≠ ""%string →
  most_recent (sightings rows) n last →
  last_seen_of rows !! n = Some last.
Proof.
  intros Hn Hmr. destruct (last_seen_of_inv rows) as [_ H].
  specialize (H n Hn). destruct (last_seen_of rows !! n) as [last'|].
  - f_equal. by eapply most_recent_unique.
  - destruct Hmr as [Hin _]. by apply H in Hin.
Qed.

Lemma cutoff_three_years : cutoff_days 3 = 1095.
Proof. reflexivity. Qed.

Lemma flag_side_read (ls : gmap string date) (today : date) (cutoff : Z)
    (s : side) (r : row) (k : string) :
  k ≠ active_col s → flag_side ls today cutoff s r !! k = r !! k.
Proof. intros H. unfold flag_side. by rewrite lookup_insert_ne. Qed.

Lemma flag_side_name (ls : gmap string date) (today : date) (cutoff : Z)
    (s s' : side) (r : row) :
  get_str (flag_side ls today cutoff s r) (side_col s') = get_str r (side_col s').
Proof.
  unfold get_str. rewrite flag_side_read; [done|]. by destruct s, s'.
Qed.

(** The flag that the pass leaves on side [s] of a row. *)
Lemma flagged_cell (ls : gmap string date) (today : date) (cutoff : Z)
    (s : side) (r : row) :
  flag_side ls today cutoff F2 (flag_side ls today cutoff F1 r) !! active_col s
  = Some (VStr (if is_active ls today cutoff (norm_name (get_str r (side_col s)))
                then "TRUE" else "FALSE")).
Proof.
  destruct s.
  - rewrite flag_side_read by done. unfold flag_side. by rewrite lookup_insert_eq.
  - unfold flag_side at 1. rewrite lookup_insert_eq.
    by rewrite (flag_side_name _ _ _ F1 F2).
Qed.

(** C1, as the code has it.  With [years = 3] the cutoff is
    [int(365.25 * 3) = 1095] days.  For a named competitor with at least
    one dated row, the flag written on their side of any row is "TRUE"
    exactly when today is at most 1095 days after their most recent event
    date, and "FALSE" otherwise; the bound is inclusive at 1095. *)
Theorem active_flag_cutoff (today : date) (rows : list row) (i : nat)
    (r : row) (s : side) (last : date) :
  rows !! i = Some r →
  norm_name (get_str r (side_col s)) ≠ ""%string →
  most_recent (sightings rows) (norm_name (get_str r (side_col s))) last →
  cutoff_days 3 = 1095
  ∧ ∃ r', apply_active_flags today rows 3 !! i = Some r'
          ∧ (r' !! active_col s = Some (VStr "TRUE")
             ↔ Date.days_between today last <= 1095)
          ∧ (r' !! active_col s = Some (VStr "FALSE")
             ↔ 1095 < Date.days_between today last).
Proof.
  intros Hr Hn Hmr. split; [reflexivity|].
  unfold apply_active_flags. rewrite list_lookup_fmap, Hr. simpl.
  eexists. split; [reflexivity|].
  rewrite flagged_cell. unfold is_active.
  rewrite (last_seen_of_most_recent rows _ last Hn Hmr), cutoff_three_years.
  destruct (Z.leb_spec (Date.days_between today last) 1095); split; split;
    intros; try done; lia.
Qed.

Lemma active_flag_cutoff_witness :
  let r : row :=
    {[ "event_date"%string := VStr "August 24, 2022";
       "fighter_1"%string := VStr "Jon Jones";
       "fighter_2"%string := VStr "Alex Pereira" ]} in
  let today := Date.mk 2025 8 23 in
  let last := Date.mk 2022 8 24 in
  cutoff_days 3 = 1095
  ∧ ∃ r', apply_active_flags today [r] 3 !! 0%nat = Some r'
          ∧ (r' !! active_col F1 = Some (VStr "TRUE")
             ↔ Date.days_between today last <= 1095)
          ∧ (r' !! active_col F1 = Some (VStr "FALSE")
             ↔ 1095 < Date.days_between today last).
Proof.
  intros r today last.
  apply (active_flag_cutoff today [r] 0 r F1 last).
  - reflexivity.
  - vm_compute. discriminate.
  - assert (Hs : sightings [r] = [("jon jones"%string, last);
                                  ("alex pereira"%string, last)])
      by (vm_compute; reflexivity).
    assert (Hn : norm_name (get_str r (side_col F1)) = "jon jones"%string)
      by (vm_compute; reflexivity).
    rewrite Hs, Hn. split; [left|].
    intros d Hd. rewrite !elem_of_cons, elem_of_nil in Hd.
    destruct Hd as [[= <-]|[[=]|[]]]. apply date_leb_refl.
Defined.

(** A competitor last seen exactly 1096 days ago is flagged inactive. *)
Lemma active_boundary_counterexample :
  let r : row :=
    {[ "event_date"%string := VStr "August 23, 2022";
       "fighter_1"%string := VStr "Jon Jones";
       "fighter_2"%string := VStr "Alex Pereira" ]} in
  let today := Date.mk 2025 8 23 in
  last_seen_of [r] !! "jon jones"%string = Some (Date.mk 2022 8 23)
  ∧ Date.days_between today (Date.mk 2022 8 23) = 1096
  ∧ (λ r', r' !! "fighter_1_active"%string) <$> apply_active_flags today [r] 3
    = [Some (VStr "FALSE")].
Proof. vm_compute. done. Qed.

(** ** The fighters' timelines *)

Lemma tl_lookup_append (n m : string) (it : item)
    (tl : list (string * list item)) :
  tl_lookup m (tl_append n it tl)
  = if String.eqb n m then tl_lookup m tl ++ [it] else tl_lookup m tl.
Proof.
  induction tl as [|[k its] rest IH]; simpl.
  - by destruct (String.eqb n m).
  - destruct (String.eqb_spec k n) as [->|Hkn]; simpl.
    + by destruct (String.eqb n m).
    + rewrite IH. destruct (String.eqb_spec k m) as [->|Hkm]; [|done].
      by destruct (String.eqb_spec n m).
Qed.

Lemma tl_append_keys (n : string) (it : item) (tl : list (string * list item)) :
  fst <$> tl_append n it tl
  = if bool_decide (n ∈ fst <$> tl) then fst <$> tl else (fst <$> tl) ++ [n].
Proof.
  induction tl as [|[k its] rest IH]; [done|].
  cbn [tl_append].
  destruct (String.eqb_spec k n) as [->|Hkn]; rewrite !fmap_cons; cbn [fst].
  - rewrite bool_decide_eq_true_2; [done|left].
  - rewrite IH. case_bool_decide as H1; case_bool_decide as H2; try done.
    + exfalso. apply H2. by right.
    + exfalso. apply elem_of_cons in H2 as [H2|H2]; congruence.
Qed.

Lemma tl_append_NoDup (n : string) (it : item) (tl : list (string * list item)) :
  NoDup (fst <$> tl) → NoDup (fst <$> tl_append n it tl).
Proof.
  intros H. rewrite tl_append_keys. case_bool_decide as Hn; [done|].
  apply NoDup_app. split; [done|]. split; [|apply NoDup_singleton].
  intros x Hx Hx'. apply list_elem_of_singleton in Hx'. congruence.
Qed.

Lemma collect_NoDup (rows : list row) (i : nat) (tl : list (string * list item)) :
  NoDup (fst <$> tl) → NoDup (fst <$> collect i rows tl).
Proof.
  revert i tl. induction rows as [|r rows IH]; intros i tl H; [done|].
  simpl. apply IH. unfold collect_row.
  destruct (Py.truthy (norm_name (get_str r "fighter_1")));
    destruct (Py.truthy (norm_name (get_str r "fighter_2")));
    auto using tl_append_NoDup.
Qed.

Lemma filter_name_cons (n m : string) (it : item) (l : list (string * item)) :
  snd <$> filter (λ p, fst p = n) ((m, it) :: l)
  = (if String.eqb m n then [it] else [])
    ++ (snd <$> filter (λ p, fst p = n) l).
Proof.
  rewrite filter_cons. simpl.
  destruct (String.eqb_spec m n); case_decide; done.
Qed.

(** A fighter's timeline holds their appearances, in the order of the rows. *)
Lemma collect_lookup (rows : list row) (i : nat)
    (tl : list (string * list item)) (n : string) :
  tl_lookup n (collect i rows tl)
  = tl_lookup n tl ++ (snd <$> filter (λ p, fst p = n) (appearances i rows)).
Proof.
  revert i tl. induction rows as [|r rows IH]; intros i tl; simpl.
  - by rewrite app_nil_r.
  - rewrite IH. unfold collect_row.
    destruct (Py.truthy (norm_name (get_str r "fighter_1")));
      destruct (Py.truthy (norm_name (get_str r "fighter_2"))); simpl;
      rewrite ?filter_name_cons, ?tl_lookup_append;
      repeat destruct (String.eqb _ n); simpl;
      by rewrite <- ?app_assoc.
Qed.

Lemma tl_lookup_entry (n : string) (its : list item)
    (tl : list (string * list item)) :
  NoDup (fst <$> tl) → (n, its) ∈ tl → tl_lookup n tl = its.
Proof.
  induction tl as [|[k its'] rest IH]; intros Hnd Hin.
  { by apply elem_of_nil in Hin. }
  rewrite fmap_cons in Hnd. apply NoDup_cons in Hnd as [Hk Hnd].
  simpl. apply elem_of_cons in Hin as [[= -> ->]|Hin].
  - by rewrite String.eqb_refl.
  - destruct (String.eqb_spec k n) as [->|_]; [|by apply IH].
    exfalso. apply Hk. apply list_elem_of_fmap. by exists (n, its).
Qed.

Lemma tl_lookup_cases (n : string) (tl : list (string * list item)) :
  tl_lookup n tl = [] ∨ (n, tl_lookup n tl) ∈ tl.
Proof.
  induction tl as [|[k its] rest IH]; [by left|].
  simpl. destruct (String.eqb_spec k n) as [->|_].
  - right. left.
  - destruct IH as [IH|IH]; [by left|right; by right].
Qed.

(** What the appended entries are. *)
Lemma appearances_elem (rows : list row) (i : nat) (m : string) (it : item) :
  (m, it) ∈ appearances i rows
  ↔ Py.truthy m = true ∧ (i ≤ it_row it)%nat
    ∧ ∃ r, rows !! (it_row it - i)%nat = Some r
           ∧ norm_name (get_str r (side_col (it_side it))) = m
           ∧ it_date it
             = default Date.min (parse_date_to_obj (get_str r "event_date")).
Proof.
  revert i. induction rows as [|r rows IH]; intros i.
  { simpl. split; [by intros ?%elem_of_nil|]. by intros (_ & _ & r & ? & _). }
  cbn [appearances]. rewrite !elem_of_app, IH. split.
  - intros [H|[H|H]].
    + destruct (Py.truthy (norm_name (get_str r "fighter_1"))) eqn:E;
        [|by apply elem_of_nil in H].
      apply list_elem_of_singleton in H. injection H as -> ->. simpl.
      split; [done|]. split; [done|]. exists r. by rewrite Nat.sub_diag.
    + destruct (Py.truthy (norm_name (get_str r "fighter_2"))) eqn:E;
        [|by apply elem_of_nil in H].
      apply list_elem_of_singleton in H. injection H as -> ->. simpl.
      split; [done|]. split; [done|]. exists r. by rewrite Nat.sub_diag.
    + destruct H as (Hm & Hi & r' & Hr' & Hn & Hd).
      split; [done|]. split; [lia|]. exists r'. split; [|done].
      replace (it_row it - i)%nat with (S (it_row it - S i)) by lia. done.
  - intros (Hm & Hi & r' & Hr' & Hn & Hd).
    destruct (it_row it - i)%nat as [|j] eqn:Ej.
    + injection Hr' as <-. assert (it_row it = i) by lia.
      destruct it as [d s i']. simpl in *. subst i' m d.
      destruct s; simpl in *; rewrite Hm; [left|right; left]; left.
    + right. right. split; [done|]. split; [lia|]. exists r'.
      replace (it_row it - S i)%nat with j by lia. done.
Qed.

Lemma appearances_slots (rows : list row) (i : nat) :
  NoDup (slot <$> (snd <$> appearances i rows)).
Proof.
  revert i. induction rows as [|r rows IH]; intros i; [constructor|].
  cbn [appearances].
  assert (Hlater : ∀ s, (i, s) ∉ slot <$> (snd <$> appearances (S i) rows)).
  { intros s Hin. apply list_elem_of_fmap in Hin as (it & Hs & Hin).
    apply list_elem_of_fmap in Hin as ([m it'] & -> & Hin).
    apply appearances_elem in Hin as (_ & Hi & _).
    injection Hs as Hs _. simpl in *. lia. }
  rewrite !fmap_app.
  destruct (Py.truthy (norm_name (get_str r "fighter_1")));
    destruct (Py.truthy (norm_name (get_str r "fighter_2"))); simpl;
    repeat (apply NoDup_cons; split); try apply IH; try apply Hlater.
  rewrite elem_of_cons. intros [[=]|H]. by apply Hlater in H.
Qed.

(** ** Sorted output *)

Lemma insert_by_HdRel {A} (le : A → A → bool) (x y : A) (l : list A) :
  le y x = true →
  HdRel (λ a b, le a b = true) y l →
  HdRel (λ a b, le a b = true) y (insert_by le x l).
Proof.
  intros Hyx Hl. destruct l as [|z l]; simpl; [by constructor|].
  destruct (le x z); constructor; [done|]. by inversion Hl.
Qed.

Lemma insert_by_sorted {A} (le : A → A → bool) (x : A) (l : list A) :
  (∀ a b, le a b = true ∨ le b a = true) →
  Sorted (λ a b, le a b = true) l →
  Sorted (λ a b, le a b = true) (insert_by le x l).
Proof.
  intros Htot Hs. induction Hs as [|y l Hs IH Hhd]; simpl.
  - by repeat constructor.
  - destruct (le x y) eqn:Hxy.
    + constructor; [by constructor|by constructor].
    + constructor; [done|]. apply insert_by_HdRel; [|done].
      destruct (Htot x y); congruence.
Qed.

Lemma stable_sort_sorted {A} (le : A → A → bool) (l : list A) :
  (∀ a b, le a b = true ∨ le b a = true) →
  Sorted (λ a b, le a b = true) (stable_sort le l).
Proof.
  intros Htot. induction l as [|x l IH]; [constructor|].
  simpl. by apply insert_by_sorted.
Qed.

Lemma sort_items_perm (its : list item) : sort_items its ≡ₚ its.
Proof. apply stable_sort_perm. Qed.

Lemma sort_items_sorted (its : list item) :
  Sorted (λ x y, Date.leb (it_date x) (it_date y) = true) (sort_items its).
Proof.
  apply (stable_sort_sorted (λ x y, Date.leb (it_date x) (it_date y))).
  intros a b. apply date_leb_total.
Qed.

(** ** The walk over one fighter's entries *)

Lemma cols_distinct (s s' : side) :
  wins_col s ≠ loss_col s'
  ∧ (s ≠ s' → wins_col s ≠ wins_col s' ∧ loss_col s ≠ loss_col s').
Proof. by destruct s, s'. Qed.

Lemma walk_length (items : list item) (wl : Z * Z) (rows : list row) :
  length (walk items wl rows) = length rows.
Proof.
  revert wl rows. induction items as [|it rest IH]; intros wl rows; [done|].
  simpl. destruct (rows !! it_row it); [|done].
  by rewrite IH, length_insert.
Qed.

(** A cell that no entry of the walk writes is left as it was. *)
Lemma walk_other_cell (items : list item) (wl : Z * Z) (rows : list row)
    (i : nat) (k : string) (r : row) :
  (∀ it, it ∈ items → it_row it = i →
         k ≠ wins_col (it_side it) ∧ k ≠ loss_col (it_side it)) →
  rows !! i = Some r →
  ∃ r', walk items wl rows !! i = Some r' ∧ r' !! k = r !! k.
Proof.
  revert wl rows r. induction items as [|it rest IH]; intros wl rows r Hk Hr.
  { by exists r. }
  simpl. destruct (rows !! it_row it) as [r0|] eqn:Hr0; [|by exists r].
  assert (Hrest : ∀ it', it' ∈ rest → it_row it' = i →
            k ≠ wins_col (it_side it') ∧ k ≠ loss_col (it_side it')).
  { intros it' Hin. apply Hk. by right. }
  destruct (decide (it_row it = i)) as [Hi|Hi].
  - subst i. rewrite Hr in Hr0. injection Hr0 as <-.
    destruct (Hk it ltac:(left) eq_refl) as [Hw Hl].
    edestruct (IH (update_counts (it_side it)
                     (write_counters (it_side it) wl r) wl)
                  (<[it_row it := write_counters (it_side it) wl r]> rows))
      as (r' & Hr' & Hcell); [exact Hrest| |].
    + apply list_lookup_insert_eq. by apply lookup_lt_Some in Hr.
    + exists r'. split; [done|]. rewrite Hcell. unfold write_counters.
      by rewrite !lookup_insert_ne.
  - apply IH; [done|]. by rewrite list_lookup_insert_ne.
Qed.

Lemma update_counts_ext (s : side) (r r' : row) (wl : Z * Z) :
  r' !! "result"%string = r !! "result"%string →
  update_counts s r' wl = update_counts s r wl.
Proof. intros H. unfold update_counts, get_str. by rewrite H. Qed.

Lemma tally_from_ext (rows rows' : list row) (wl : Z * Z) (items : list item) :
  (∀ i, default ∅ (rows' !! i) !! "result"%string
        = default ∅ (rows !! i) !! "result"%string) →
  tally_from rows' wl items = tally_from rows wl items.
Proof.
  intros H. revert wl. induction items as [|it rest IH]; intros wl; [done|].
  unfold tally_from in *. simpl.
  rewrite (update_counts_ext _ _ _ _ (H (it_row it))). apply IH.
Qed.

(** The cells that the walk writes for its [k]-th entry hold the counters
    reached after the entries before it. *)
Lemma walk_written (items : list item) (wl : Z * Z) (rows : list row)
    (k : nat) (it : item) :
  NoDup (slot <$> items) →
  (∀ it', it' ∈ items → is_Some (rows !! it_row it')) →
  items !! k = Some it →
  ∃ r', walk items wl rows !! it_row it = Some r'
        ∧ r' !! wins_col (it_side it)
          = Some (VStr (Py.str_int (fst (tally_from rows wl (take k items)))))
        ∧ r' !! loss_col (it_side it)
          = Some (VStr (Py.str_int (snd (tally_from rows wl (take k items))))).
Proof.
  revert wl rows k.
  induction items as [|it0 rest IH]; intros wl rows k Hnd Hrows Hk; [done|].
  rewrite fmap_cons in Hnd. apply NoDup_cons in Hnd as [Hfresh Hnd].
  destruct (Hrows it0 ltac:(left)) as [r0 Hr0].
  simpl. rewrite Hr0.
  set (r1 := write_counters (it_side it0) wl r0).
  set (rows1 := <[it_row it0 := r1]> rows).
  assert (Hlt : (it_row it0 < length rows)%nat) by by apply lookup_lt_Some in Hr0.
  assert (Hr1 : rows1 !! it_row it0 = Some r1) by by apply list_lookup_insert_eq.
  destruct k as [|k]; simpl in Hk.
  - injection Hk as <-. simpl.
    assert (Hother : ∀ c, c = wins_col (it_side it0) ∨ c = loss_col (it_side it0) →
              ∀ it', it' ∈ rest → it_row it' = it_row it0 →
                     c ≠ wins_col (it_side it') ∧ c ≠ loss_col (it_side it')).
    { intros c Hc it' Hin Hrow.
      assert (it_side it0 ≠ it_side it') as Hs.
      { intros Hs. apply Hfresh. apply list_elem_of_fmap. exists it'.
        split; [|done]. unfold slot. by rewrite Hrow, Hs. }
      destruct (cols_distinct (it_side it0) (it_side it')) as [? Hd].
      destruct (cols_distinct (it_side it') (it_side it0)) as [? _].
      destruct (Hd Hs). destruct Hc as [->| ->]; split; congruence. }
    destruct (walk_other_cell rest (update_counts (it_side it0) r1 wl) rows1
                (it_row it0) (wins_col (it_side it0)) r1
                (Hother _ (or_introl eq_refl)) Hr1) as (r' & Hr' & Hw).
    destruct (walk_other_cell rest (update_counts (it_side it0) r1 wl) rows1
                (it_row it0) (loss_col (it_side it0)) r1
                (Hother _ (or_intror eq_refl)) Hr1) as (r'' & Hr'' & Hl).
    rewrite Hr' in Hr''. injection Hr'' as <-.
    exists r'. split; [done|]. rewrite Hw, Hl. unfold r1, write_counters.
    split.
    + rewrite lookup_insert_ne by apply not_eq_sym, cols_distinct.
      by rewrite lookup_insert_eq.
    + by rewrite lookup_insert_eq.
  - destruct (IH (update_counts (it_side it0) r1 wl) rows1 k Hnd) as
      (r' & Hr' & Hw & Hl); [|done|].
    { intros it' Hin. destruct (Hrows it' ltac:(by right)) as [x Hx].
      apply lookup_lt_is_Some. unfold rows1. rewrite length_insert.
      by apply lookup_lt_Some in Hx. }
    assert (Heq : tally_from rows1 (update_counts (it_side it0) r1 wl)
                             (take k rest)
                  = tally_from rows wl (it0 :: take k rest)).
    { unfold tally_from at 2. simpl. rewrite Hr0. simpl.
      fold (tally_from rows (update_counts (it_side it0) r0 wl) (take k rest)).
      unfold r1 at 1. rewrite update_counts_write.
      apply tally_from_ext. intros i. unfold rows1.
      destruct (decide (i = it_row it0)) as [->|Hi].
      - rewrite list_lookup_insert_eq by done. rewrite Hr0. simpl.
        unfold r1, write_counters.
        rewrite !lookup_insert_ne; [done|by destruct (it_side it0)..].
      - by rewrite list_lookup_insert_ne. }
    exists r'. rewrite firstn_cons, <- Heq. done.
Qed.

(** ** The whole pass *)

Lemma timeline_lookup_elem (rows : list row) (n : string) (it : item) :
  it ∈ tl_lookup n (collect 0 rows []) ↔ (n, it) ∈ appearances 0 rows.
Proof.
  rewrite collect_lookup. simpl. rewrite list_elem_of_fmap. split.
  - intros ([m it'] & -> & Hin). apply list_elem_of_filter in Hin as [Hm Hin].
    simpl in *. by subst m.
  - intros Hin. exists (n, it). split; [done|]. by apply list_elem_of_filter.
Qed.

Lemma timeline_entry_elem (rows : list row) (m : string) (its : list item)
    (it : item) :
  (m, its) ∈ collect 0 rows [] → it ∈ its → (m, it) ∈ appearances 0 rows.
Proof.
  intros He Hin. apply timeline_lookup_elem.
  rewrite (tl_lookup_entry m its); [done| |done].
  apply collect_NoDup. constructor.
Qed.

Lemma timeline_slots_NoDup (rows : list row) (n : string) :
  NoDup (slot <$> tl_lookup n (collect 0 rows [])).
Proof.
  rewrite collect_lookup. simpl.
  eapply sublist_NoDup; [apply (appearances_slots rows 0)|].
  apply fmap_sublist, fmap_sublist, sublist_filter.
Qed.

Lemma appearance_row (rows : list row) (m : string) (it : item) :
  (m, it) ∈ appearances 0 rows →
  ∃ r, rows !! it_row it = Some r
       ∧ norm_name (get_str r (side_col (it_side it))) = m.
Proof.
  intros H. apply appearances_elem in H as (_ & _ & r & Hr & Hn & _).
  rewrite Nat.sub_0_r in Hr. eauto.
Qed.

Lemma counters_length (tl : list (string * list item)) (rows : list row) :
  length (foldl (λ rows e, walk (sort_items (snd e)) (0, 0) rows) rows tl)
  = length rows.
Proof.
  revert rows. induction tl as [|e tl IH]; intros rows; [done|].
  simpl. by rewrite IH, walk_length.
Qed.

Lemma counters_other_cell (tl : list (string * list item)) (rows : list row)
    (i : nat) (k : string) (r : row) :
  (∀ e it, e ∈ tl → it ∈ snd e → it_row it = i →
           k ≠ wins_col (it_side it) ∧ k ≠ loss_col (it_side it)) →
  rows !! i = Some r →
  ∃ r', foldl (λ rows e, walk (sort_items (snd e)) (0, 0) rows) rows tl !! i
        = Some r'
        ∧ r' !! k = r !! k.
Proof.
  revert rows r. induction tl as [|e tl IH]; intros rows r Hk Hr.
  { by exists r. }
  simpl.
  destruct (walk_other_cell (sort_items (snd e)) (0, 0) rows i k r)
    as (r1 & Hr1 & Hc1); [|done|].
  { intros it Hin. apply (Hk e); [left|]. by rewrite <- (sort_items_perm (snd e)). }
  destruct (IH (walk (sort_items (snd e)) (0, 0) rows) r1) as (r' & Hr' & Hc');
    [|done|].
  { intros e' it He'. apply Hk. by right. }
  exists r'. split; [done|]. by rewrite Hc'.
Qed.

Lemma counters_keep_results (tl : list (string * list item)) (rows : list row)
    (i : nat) :
  default ∅ (foldl (λ rows e, walk (sort_items (snd e)) (0, 0) rows) rows tl !! i)
    !! "result"%string
  = default ∅ (rows !! i) !! "result"%string.
Proof.
  destruct (rows !! i) as [r|] eqn:Hr.
  - destruct (counters_other_cell tl rows i "result" r) as (r' & Hr' & Hc);
      [|done|].
    + intros e it _ _ _. by destruct (it_side it).
    + by rewrite Hr'.
  - rewrite (proj2 (lookup_ge_None _ i)); [done|].
    rewrite counters_length. by apply lookup_ge_None.
Qed.

(** The counters found on a fighter's [k]-th fight after the pass are those
    reached after their earlier fights. *)
Lemma counters_written (rows : list row) (n : string) (k : nat) (it : item) :
  sort_items (tl_lookup n (collect 0 rows [])) !! k = Some it →
  ∃ r', compute_ufc_counters rows !! it_row it = Some r'
        ∧ r' !! wins_col (it_side it)
          = Some (VStr (Py.str_int (fst (tally_before rows
               (take k (sort_items (tl_lookup n (collect 0 rows []))))))))
        ∧ r' !! loss_col (it_side it)
          = Some (VStr (Py.str_int (snd (tally_before rows
               (take k (sort_items (tl_lookup n (collect 0 rows [])))))))).
Proof.
  intros Hk.
  assert (Hnd : NoDup (fst <$> collect 0 rows [])) by (apply collect_NoDup; constructor).
  set (items := sort_items (tl_lookup n (collect 0 rows []))) in *.
  assert (Hperm : items ≡ₚ tl_lookup n (collect 0 rows []))
    by apply sort_items_perm.
  assert (Happ : ∀ it', it' ∈ items → (n, it') ∈ appearances 0 rows).
  { intros it' Hin. apply timeline_lookup_elem. by rewrite <- Hperm. }
  destruct (tl_lookup_cases n (collect 0 rows [])) as [Hnil|Hin].
  { unfold items in Hk. rewrite Hnil in Hk. done. }
  apply list_elem_of_split in Hin as (tl1 & tl2 & Htl).
  unfold compute_ufc_counters. rewrite Htl, foldl_app. simpl. fold items.
  set (F := λ (rows : list row) (e : string * list item),
              walk (sort_items (snd e)) (0, 0) rows).
  set (rowsA := foldl F rows tl1).
  (* the fighter's own walk *)
  destruct (walk_written items (0, 0) rowsA k it) as (r1 & Hr1 & Hw & Hl);
    [| |done|].
  { rewrite Hperm. apply timeline_slots_NoDup. }
  { intros it' Hin'. apply Happ, appearance_row in Hin' as (r & Hr & _).
    apply lookup_lt_is_Some. unfold rowsA, F. rewrite counters_length.
    by apply lookup_lt_Some in Hr. }
  rewrite (tally_from_ext rows rowsA) in Hw, Hl
    by (intros i; apply counters_keep_results).
  (* the walks of the fighters that follow *)
  assert (Hlater : ∀ c, c = wins_col (it_side it) ∨ c = loss_col (it_side it) →
            ∀ e it', e ∈ tl2 → it' ∈ snd e → it_row it' = it_row it →
                     c ≠ wins_col (it_side it') ∧ c ≠ loss_col (it_side it')).
  { intros c Hc [m its'] it' He Hin' Hrow. simpl in Hin'.
    assert (it_side it ≠ it_side it') as Hs.
    { intros Hs.
      assert (m ≠ n) as Hmn.
      { intros ->. rewrite Htl, fmap_app, fmap_cons in Hnd.
        apply NoDup_app in Hnd as (_ & _ & Hnd).
        apply NoDup_cons in Hnd as [Hnd _]. apply Hnd.
        apply list_elem_of_fmap. by exists (n, its'). }
      apply Hmn.
      assert ((m, it') ∈ appearances 0 rows) as Hm.
      { apply (timeline_entry_elem rows m its'); [|done].
        rewrite Htl. apply elem_of_app. right. by right. }
      apply appearance_row in Hm as (r & Hr & <-).
      assert (it ∈ items) as Hit by (by eapply list_elem_of_lookup_2).
      apply Happ, appearance_row in Hit as (r0 & Hr0 & <-).
      rewrite Hrow, Hr0 in Hr. injection Hr as <-. by rewrite Hs. }
    destruct (cols_distinct (it_side it) (it_side it')) as [? Hd].
    destruct (cols_distinct (it_side it') (it_side it)) as [? _].
    destruct (Hd Hs). destruct Hc as [->| ->]; split; congruence. }
  destruct (counters_other_cell tl2 (walk items (0, 0) rowsA) (it_row it)
              (wins_col (it_side it)) r1 (Hlater _ (or_introl eq_refl)) Hr1)
    as (r' & Hr' & Hw').
  destruct (counters_other_cell tl2 (walk items (0, 0) rowsA) (it_row it)
              (loss_col (it_side it)) r1 (Hlater _ (or_intror eq_refl)) Hr1)
    as (r'' & Hr'' & Hl').
  fold F in Hr', Hr''. rewrite Hr' in Hr''. injection Hr'' as <-.
  exists r'. split; [done|]. by rewrite Hw', Hl'.
Qed.

Lemma update_counts_step (s : side) (r : row) (w l : Z) :
  fst (w, l) <= fst (update_counts s r (w, l))
  ∧ snd (w, l) <= snd (update_counts s r (w, l))
  ∧ (decisive r = true →
     update_counts s r (w, l) = (w + 1, l)
     ∨ update_counts s r (w, l) = (w, l + 1))
  ∧ (decisive r = false → update_counts s r (w, l) = (w, l)).
Proof.
  unfold update_counts, decisive.
  destruct (Py.startswith _ "win") eqn:Hw; simpl.
  { destruct s; simpl; repeat split; auto; try lia; done. }
  destruct (Py.startswith _ "l") eqn:Hl; simpl.
  { rewrite orb_true_r. destruct s; simpl; repeat split; auto; try lia; done. }
  destruct (Py.startswith _ "loss") eqn:Hloss.
  { apply startswith_loss_l in Hloss. congruence. }
  simpl. repeat split; auto; try lia; done.
Qed.

(** C2. For every competitor [n], let [items] be their entries sorted by
    date as the pass sorts them (an unparseable date counts as
    [date.min]): these are exactly the sides of the rows that carry the
    name [n], each once, in ascending date order.  After the pass the
    [k]-th of them carries the decimal strings of the counters reached
    from the results of the entries before it only.  These counters start
    at (0, 0); from one entry to the next they are updated by the result
    of the earlier one, never decrease, change by exactly one in exactly
    one component when that result counts as a win or a loss, and do not
    change otherwise.  A fighter_1 with a "win" and then a "loss" carries
    (0, 0) and then (1, 0). *)
Theorem counters_are_causal (rows : list row) (n : string) :
  let items := sort_items (tl_lookup n (collect 0 rows [])) in
  (∀ it, it ∈ items
         ↔ Py.truthy n = true
           ∧ ∃ r, rows !! it_row it = Some r
                  ∧ norm_name (get_str r (side_col (it_side it))) = n
                  ∧ it_date it
                    = default Date.min
                        (parse_date_to_obj (get_str r "event_date")))
  ∧ NoDup (slot <$> items)
  ∧ Sorted (λ x y, Date.leb (it_date x) (it_date y) = true) items
  ∧ (∀ k it, items !! k = Some it →
       ∃ r', compute_ufc_counters rows !! it_row it = Some r'
             ∧ r' !! wins_col (it_side it)
               = Some (VStr (Py.str_int
                              (fst (tally_before rows (take k items)))))
             ∧ r' !! loss_col (it_side it)
               = Some (VStr (Py.str_int
                              (snd (tally_before rows (take k items))))))
  ∧ tally_before rows (take 0 items) = (0, 0)
  ∧ (∀ k it r, items !! k = Some it → rows !! it_row it = Some r →
       tally_before rows (take (S k) items)
       = update_counts (it_side it) r (tally_before rows (take k items)))
  ∧ (∀ (s : side) (r : row) (w l : Z),
       w <= fst (update_counts s r (w, l))
       ∧ l <= snd (update_counts s r (w, l))
       ∧ (decisive r = true →
          update_counts s r (w, l) = (w + 1, l)
          ∨ update_counts s r (w, l) = (w, l + 1))
       ∧ (decisive r = false → update_counts s r (w, l) = (w, l)))
  ∧ (let r_win : row :=
       {[ "event_date"%string := VStr "2024-01-13";
          "fighter_1"%string := VStr "A"; "fighter_2"%string := VStr "B";
          "result"%string := VStr "win" ]} in
     let r_loss : row :=
       {[ "event_date"%string := VStr "March 8, 2025";
          "fighter_1"%string := VStr "A"; "fighter_2"%string := VStr "C";
          "result"%string := VStr "loss" ]} in
     (λ r, (r !! "fighter_1_ufcwins"%string, r !! "fighter_1_ufcloss"%string))
       <$> compute_ufc_counters [r_loss; r_win]
     = [(Some (VStr "1"), Some (VStr "0")); (Some (VStr "0"), Some (VStr "0"))]).
Proof.
  intros items.
  assert (Hperm : items ≡ₚ tl_lookup n (collect 0 rows []))
    by apply sort_items_perm.
  split; [|split; [|split; [|split; [|split; [|split; [|split]]]]]].
  - intros it. rewrite Hperm, timeline_lookup_elem, appearances_elem.
    rewrite Nat.sub_0_r. split.
    + intros (Hn & _ & H). done.
    + intros (Hn & H). split; [done|]. split; [lia|done].
  - rewrite Hperm. apply timeline_slots_NoDup.
  - apply sort_items_sorted.
  - intros k it Hk. by apply counters_written.
  - done.
  - intros k it r Hk Hr. rewrite (take_S_r _ _ _ Hk).
    unfold tally_before, tally_from. rewrite foldl_app. simpl. by rewrite Hr.
  - intros s r w l. apply (update_counts_step s r w l).
  - vm_compute. reflexivity.
Qed.

Lemma counters_are_causal_witness :
  let r_win : row :=
    {[ "event_date"%string := VStr "2024-01-13";
       "fighter_1"%string := VStr "A"; "fighter_2"%string := VStr "B";
       "result"%string := VStr "win" ]} in
  let r_loss : row :=
    {[ "event_date"%string := VStr "March 8, 2025";
       "fighter_1"%string := VStr "A"; "fighter_2"%string := VStr "C";
       "result"%string := VStr "loss" ]} in
  ∃ r', compute_ufc_counters [r_loss; r_win] !! 0%nat = Some r'
        ∧ r' !! "fighter_1_ufcwins"%string = Some (VStr "1")
        ∧ r' !! "fighter_1_ufcloss"%string = Some (VStr "0").
Proof.
  intros r_win r_loss.
  destruct (counters_are_causal [r_loss; r_win] "a") as (_ & _ & _ & H & _).
  apply (H 1%nat (mkitem (Date.mk 2025 3 8) F1 0)).
  vm_compute. reflexivity.
Defined.

(* ===================================================================== *)
(** * Part III: further properties of the script                          *)
(* ===================================================================== *)

(** ** Normalised names *)

Lemma isspace_lower_ascii (c : ascii) :
  Py.isspace (Py.lower_ascii c) = Py.isspace c.
Proof. by destruct c as [[] [] [] [] [] [] [] []]. Qed.

Lemma lower_ascii_idem (c : ascii) :
  Py.lower_ascii (Py.lower_ascii c) = Py.lower_ascii c.
Proof. by destruct c as [[] [] [] [] [] [] [] []]. Qed.

Lemma lower_ascii_space (c : ascii) :
  Py.isspace c = true → Py.lower_ascii c = c.
Proof. by destruct c as [[] [] [] [] [] [] [] []]. Qed.

Lemma lower_ascii_not_upper (c : ascii) : is_upper (Py.lower_ascii c) = false.
Proof. by destruct c as [[] [] [] [] [] [] [] []]. Qed.

Lemma lower_idem (s : string) : Py.lower (Py.lower s) = Py.lower s.
Proof.
  induction s as [|c r IH]; [done|]. simpl. by rewrite lower_ascii_idem, IH.
Qed.

Lemma lstrip_lower (s : string) : Py.lstrip (Py.lower s) = Py.lower (Py.lstrip s).
Proof.
  induction s as [|c r IH]; [done|].
  simpl. rewrite isspace_lower_ascii. by destruct (Py.isspace c).
Qed.

Lemma rstrip_lower (s : string) : Py.rstrip (Py.lower s) = Py.lower (Py.rstrip s).
Proof.
  induction s as [|c r IH]; [done|].
  simpl. rewrite IH, isspace_lower_ascii.
  destruct (Py.rstrip r); simpl; [|done]. by destruct (Py.isspace c).
Qed.

Lemma strip_lower (s : string) : Py.strip (Py.lower s) = Py.lower (Py.strip s).
Proof. unfold Py.strip. by rewrite lstrip_lower, rstrip_lower. Qed.

Lemma collapsed_weaken (s : string) :
  collapsed true s = true → collapsed false s = true.
Proof. destruct s as [|c r]; [done|]. simpl. by destruct (Py.isspace c), (Ascii.eqb c " "). Qed.

Lemma sub_ws_collapsed (b : bool) (s : string) :
  collapsed b (Py.sub_ws_from b s) = true.
Proof.
  revert b. induction s as [|c r IH]; intros b; [done|].
  simpl. destruct (Py.isspace c) eqn:Hc.
  - destruct b; [apply IH|]. simpl. apply IH.
  - simpl. rewrite Hc. apply IH.
Qed.

Lemma collapsed_sub_ws (b : bool) (s : string) :
  collapsed b s = true → Py.sub_ws_from b s = s.
Proof.
  revert b. induction s as [|c r IH]; intros b H; [done|].
  simpl in *. destruct (Py.isspace c).
  - destruct b; [by rewrite andb_false_r in H|].
    apply andb_true_iff in H as [H Hr]. apply andb_true_iff in H as [Hc _].
    apply Ascii.eqb_eq in Hc as ->. by rewrite (IH true Hr).
  - by rewrite (IH false H).
Qed.

Lemma collapsed_lstrip (b : bool) (s : string) :
  collapsed b s = true → collapsed false (Py.lstrip s) = true.
Proof.
  revert b. induction s as [|c r IH]; intros b H; [done|].
  simpl in *. destruct (Py.isspace c) eqn:Hc.
  - apply andb_true_iff in H as [_ Hr]. by apply (IH true).
  - simpl. by rewrite Hc.
Qed.

Lemma collapsed_rstrip (b : bool) (s : string) :
  collapsed b s = true → collapsed b (Py.rstrip s) = true.
Proof.
  revert b. induction s as [|c r IH]; intros b H; [done|].
  simpl in *. destruct (Py.isspace c) eqn:Hc.
  - apply andb_true_iff in H as [H Hr]. specialize (IH true Hr).
    destruct (Py.rstrip r) as [|a r'] eqn:E; [done|].
    cbn [collapsed]. rewrite Hc, H. exact IH.
  - specialize (IH false H).
    destruct (Py.rstrip r) as [|a r'] eqn:E; simpl; by rewrite Hc.
Qed.

Lemma collapsed_lower (b : bool) (s : string) :
  collapsed b (Py.lower s) = collapsed b s.
Proof.
  revert b. induction s as [|c r IH]; intros b; [done|].
  simpl. rewrite isspace_lower_ascii.
  destruct (Py.isspace c) eqn:Hc; [|apply IH].
  by rewrite (lower_ascii_space c Hc), IH.
Qed.

Lemma lower_not_empty (s : string) :
  Py.lower s = EmptyString → s = EmptyString.
Proof. by destruct s. Qed.

(** The value that [norm_name] computes for a non-empty name is a fixed
    point of each of its three steps. *)
Lemma normal_form_fixed (x : string) :
  let n := Py.casefold (Py.strip (Py.sub_ws x)) in
  Py.sub_ws n = n ∧ Py.strip n = n ∧ Py.casefold n = n.
Proof.
  unfold Py.casefold. split; [|split].
  - apply collapsed_sub_ws. rewrite collapsed_lower. unfold Py.strip.
    apply collapsed_rstrip. apply (collapsed_lstrip false), sub_ws_collapsed.
  - by rewrite strip_lower, strip_idem.
  - apply lower_idem.
Qed.

Lemma lower_none_upper (s : string) : none_of is_upper (Py.lower s) = true.
Proof.
  induction s as [|c r IH]; [done|]. simpl. by rewrite lower_ascii_not_upper.
Qed.

(** X1. [norm_name] is idempotent, and a normalised name is trimmed, has
    its whitespace collapsed to single spaces, and has no upper-case ASCII
    letter. *)
Theorem norm_name_idempotent (x : string) :
  norm_name (norm_name x) = norm_name x
  ∧ Py.strip (norm_name x) = norm_name x
  ∧ Py.sub_ws (norm_name x) = norm_name x
  ∧ collapsed false (norm_name x) = true
  ∧ none_of is_upper (norm_name x) = true.
Proof.
  unfold norm_name. destruct (String.eqb x ""); [done|].
  destruct (normal_form_fixed x) as (Hw & Hs & Hl).
  set (n := Py.casefold (Py.strip (Py.sub_ws x))) in *.
  split; [|split; [done|split; [done|split]]].
  - destruct (String.eqb_spec n "") as [->|_]; [done|]. by rewrite Hw, Hs, Hl.
  - rewrite <- Hw. apply sub_ws_collapsed.
  - apply lower_none_upper.
Qed.

(** ** What a merge key identifies *)

Lemma lacks_app (c : ascii) (s t : string) :
  lacks c (s ++ t) = lacks c s && lacks c t.
Proof.
  induction s as [|a r IH]; [done|]. simpl. by rewrite IH, andb_assoc.
Qed.

Lemma lacks_uint (d : Decimal.uint) :
  lacks "|" (NilEmpty.string_of_uint d) = true.
Proof. induction d; simpl; done. Qed.

Lemma lacks_str_int (n : Z) : lacks "|" (Py.str_int n) = true.
Proof.
  unfold Py.str_int, NilZero.string_of_int, NilZero.string_of_uint.
  destruct (Z.to_int n) as [d|d]; simpl.
  - destruct d; try done; apply (lacks_uint (_ d)).
  - destruct d; try done; apply (lacks_uint (_ d)).
Qed.

Lemma lacks_zfill (w : nat) (s : string) :
  lacks "|" s = true → lacks "|" (Py.zfill w s) = true.
Proof.
  intros H. unfold Py.zfill. rewrite lacks_app, H, andb_true_r.
  induction (w - String.length s)%nat; [done|]. simpl. done.
Qed.

Lemma lacks_to_iso (d : option date) : lacks "|" (to_iso d) = true.
Proof.
  destruct d as [d|]; [|done]. unfold to_iso, Date.isoformat.
  rewrite !lacks_app, !lacks_zfill by apply lacks_str_int. done.
Qed.

(** A string is cut in one way only at the first occurrence of a
    character. *)
Lemma first_cut (c : ascii) (s s' t t' : string) :
  lacks c s = true → lacks c s' = true →
  (s ++ String c t)%string = (s' ++ String c t')%string → s = s' ∧ t = t'.
Proof.
  revert s'. induction s as [|a r IH]; intros s' Hs Hs' Heq.
  - destruct s' as [|a' r']; simpl in Heq.
    + by injection Heq as ->.
    + injection Heq as <- _. simpl in Hs'.
      by rewrite Ascii.eqb_refl in Hs'.
  - destruct s' as [|a' r']; simpl in Heq.
    + injection Heq as -> _. simpl in Hs. by rewrite Ascii.eqb_refl in Hs.
    + injection Heq as -> Heq. simpl in Hs, Hs'.
      apply andb_true_iff in Hs as [_ Hs]. apply andb_true_iff in Hs' as [_ Hs'].
      destruct (IH r' Hs Hs' Heq) as [-> ->]. done.
Qed.

Lemma key_parts (iso iso' a b a' b' : string) :
  lacks "|" iso = true → lacks "|" iso' = true →
  lacks "|" a = true → lacks "|" a' = true →
  (iso ++ "|" ++ a ++ "|" ++ b)%string = (iso' ++ "|" ++ a' ++ "|" ++ b')%string →
  iso = iso' ∧ a = a' ∧ b = b'.
Proof.
  intros Hi Hi' Ha Ha' H.
  apply (first_cut "|" iso iso') in H as [-> H]; [|done..].
  apply (first_cut "|" a a') in H as [-> ->]; done.
Qed.

(** X2. When no normalised name contains the delimiter ["|"], two
    observations have the same merge key exactly when their dates have the
    same ISO form and their normalised names are the same unordered
    pair. *)
Theorem legacy_key_identifies (d d' x y x' y' : string) :
  lacks "|" (norm_name x) = true → lacks "|" (norm_name y) = true →
  lacks "|" (norm_name x') = true → lacks "|" (norm_name y') = true →
  legacy_key d x y = legacy_key d' x' y'
  ↔ to_iso (parse_date_to_obj d) = to_iso (parse_date_to_obj d')
    ∧ ((norm_name x = norm_name x' ∧ norm_name y = norm_name y')
       ∨ (norm_name x = norm_name y' ∧ norm_name y = norm_name x')).
Proof.
  intros Hx Hy Hx' Hy'. unfold legacy_key.
  pose proof (lacks_to_iso (parse_date_to_obj d)) as Hi.
  pose proof (lacks_to_iso (parse_date_to_obj d')) as Hi'.
  set (iso := to_iso (parse_date_to_obj d)) in *.
  set (iso' := to_iso (parse_date_to_obj d')) in *.
  set (a := norm_name x) in *. set (b := norm_name y) in *.
  set (a' := norm_name x') in *. set (b' := norm_name y') in *.
  split.
  - destruct (String.leb a b), (String.leb a' b'); intros H;
      apply key_parts in H as (-> & -> & ->); auto.
  - intros [-> [[-> ->]|[-> ->]]]; [done|].
    apply (ordered_pair_swap b' a' (λ u v, (iso' ++ "|" ++ u ++ "|" ++ v)%string)).
Qed.

Lemma legacy_key_identifies_witness :
  legacy_key "August 23, 2025" "Jon  Jones" "ALEX PEREIRA"
  = legacy_key "2025-08-23" "alex pereira" " jon jones"
  ↔ to_iso (parse_date_to_obj "August 23, 2025")
    = to_iso (parse_date_to_obj "2025-08-23")
    ∧ ((norm_name "Jon  Jones" = norm_name "alex pereira"
        ∧ norm_name "ALEX PEREIRA" = norm_name " jon jones")
       ∨ (norm_name "Jon  Jones" = norm_name " jon jones"
          ∧ norm_name "ALEX PEREIRA" = norm_name "alex pereira")).
Proof.
  apply (legacy_key_identifies "August 23, 2025" "2025-08-23"
           "Jon  Jones" "ALEX PEREIRA" "alex pereira" " jon jones");
    vm_compute; reflexivity.
Defined.

(** With the delimiter inside a name two different pairings share a key. *)
Example legacy_key_delimiter_collision :
  legacy_key "2025-08-23" "x|y" "z" = legacy_key "2025-08-23" "x" "y|z".
Proof. vm_compute. reflexivity. Qed.

(** ** Header keys *)

Lemma sub_ws_none_upper (b : bool) (s : string) :
  none_of is_upper s = true → none_of is_upper (Py.sub_ws_from b s) = true.
Proof.
  revert b. induction s as [|c r IH]; intros b H; [done|].
  simpl in *. apply andb_true_iff in H as [Hc Hr].
  destruct (Py.isspace c); [destruct b|]; simpl; rewrite ?Hc; simpl;
    by apply IH.
Qed.

Lemma underscores_none_upper (s : string) :
  none_of is_upper s = true →
  none_of is_upper (spaces_to_underscores s) = true.
Proof.
  induction s as [|c r IH]; intros H; [done|].
  simpl in *. apply andb_true_iff in H as [Hc Hr]. rewrite (IH Hr).
  destruct (Ascii.eqb c " "); [done|]. by rewrite Hc.
Qed.

Lemma underscores_none_space (b : bool) (s : string) :
  collapsed b s = true → none_of Py.isspace (spaces_to_underscores s) = true.
Proof.
  revert b. induction s as [|c r IH]; intros b H; [done|].
  simpl in *. destruct (Py.isspace c) eqn:Hc.
  - apply andb_true_iff in H as [H Hr]. apply andb_true_iff in H as [H _].
    rewrite H. simpl. by apply (IH true).
  - destruct (Ascii.eqb_spec c " ") as [->|_]; [done|].
    rewrite Hc. simpl. by apply (IH false).
Qed.

Lemma remove3_plain (a b c : ascii) (s : string) :
  (128 <=? N_of_ascii a)%N = true →
  none_of odd_key_char s = true → remove3 a b c s = s.
Proof.
  intros Ha. induction s as [|x t IH]; intros H; [done|].
  cbn [none_of] in H. apply andb_true_iff in H as [Hx Ht].
  assert (Ascii.eqb x a = false) as Hxa.
  { apply Ascii.eqb_neq. intros ->. unfold odd_key_char in Hx.
    rewrite Ha, orb_true_r in Hx. done. }
  cbn [remove3]. rewrite Hxa. simpl. rewrite (IH Ht). by destruct t as [|? [|? ?]].
Qed.

Lemma plain_no_space (s : string) :
  none_of odd_key_char s = true → none_of Py.isspace s = true.
Proof.
  induction s as [|c r IH]; intros H; [done|].
  simpl in *. apply andb_true_iff in H as [Hc Hr]. rewrite (IH Hr).
  unfold odd_key_char in Hc. by destruct (Py.isspace c).
Qed.

Lemma no_space_fixed (s : string) :
  none_of Py.isspace s = true →
  Py.lstrip s = s ∧ Py.rstrip s = s ∧ (∀ b, Py.sub_ws_from b s = s)
  ∧ spaces_to_underscores s = s.
Proof.
  induction s as [|c r IH]; intros H; [done|].
  simpl in *. apply andb_true_iff in H as [Hc Hr].
  apply negb_true_iff in Hc. rewrite Hc.
  destruct (IH Hr) as (_ & Hrs & Hsub & Hund).
  rewrite Hrs, Hund. repeat split.
  - by destruct r.
  - intros b. by rewrite Hsub.
  - by destruct (Ascii.eqb_spec c " ") as [->|_].
Qed.

Lemma plain_lower (s : string) :
  none_of odd_key_char s = true → Py.lower s = s.
Proof.
  induction s as [|c r IH]; intros H; [done|].
  simpl in *. apply andb_true_iff in H as [Hc Hr]. rewrite (IH Hr).
  f_equal. unfold odd_key_char in Hc. unfold Py.lower_ascii.
  unfold is_upper in Hc. by destruct ((65 <=? _) && _)%N; [rewrite orb_true_r in Hc|].
Qed.

(** X3. A normalised header key contains no whitespace and no upper-case
    ASCII letter; a missing key gives the empty string; and a key that is
    already plain (ASCII, no whitespace, no upper-case letter) is returned
    unchanged. *)
Theorem norm_key_normal (k : pyval) :
  none_of Py.isspace (norm_key k) = true
  ∧ none_of is_upper (norm_key k) = true
  ∧ (k = VNone → norm_key k = ""%string)
  ∧ ∀ s, k = VStr s → none_of odd_key_char s = true → norm_key k = s.
Proof.
  destruct k as [|k]; [by repeat split|].
  unfold norm_key.
  set (k' := remove3 _ _ _ (remove3 _ _ _ (remove3 _ _ _ (remove3 _ _ _ k)))).
  split; [|split; [|split; [done|]]].
  - apply (underscores_none_space false), sub_ws_collapsed.
  - apply underscores_none_upper, sub_ws_none_upper, lower_none_upper.
  - intros s [= <-] Hs. unfold k'.
    rewrite (remove3_plain "239" "187" "191" k) by done.
    rewrite (remove3_plain "226" "128" "139" k) by done.
    rewrite (remove3_plain "226" "128" "140" k) by done.
    rewrite (remove3_plain "226" "128" "141" k) by done.
    destruct (no_space_fixed k (plain_no_space k Hs)) as (Hl & Hr & Hsub & Hund).
    unfold Py.strip, Py.sub_ws. by rewrite Hl, Hr, (plain_lower k Hs), Hsub, Hund.
Qed.

Lemma norm_key_normal_witness : norm_key (VStr "event_date") = "event_date"%string.
Proof.
  apply (proj2 (proj2 (proj2 (norm_key_normal (VStr "event_date"))))
           "event_date"%string eq_refl).
  vm_compute. reflexivity.
Defined.

(** The header of the specification's scenario. *)
Example norm_key_event_date :
  norm_key (VStr " Event Date ﻿") = "event_date"%string.
Proof. vm_compute. reflexivity. Qed.

(** ** Dates in ISO form *)

Lemma digit_cases (k : Z) :
  0 <= k <= 9 →
  k = 0 ∨ k = 1 ∨ k = 2 ∨ k = 3 ∨ k = 4 ∨ k = 5 ∨ k = 6 ∨ k = 7 ∨ k = 8 ∨ k = 9.
Proof. lia. Qed.

Ltac each_digit k H :=
  let C := fresh in
  pose proof (digit_cases k H) as C;
  repeat (destruct C as [->|C]); [..|subst k].

Lemma digit_string (k : Z) (d : Decimal.uint) :
  0 <= k <= 9 →
  NilEmpty.string_of_uint (digit_cons k d)
  = String (digit_char k) (NilEmpty.string_of_uint d)
  ∧ NilZero.string_of_uint (digit_cons k d)
    = NilEmpty.string_of_uint (digit_cons k d).
Proof. intros H. each_digit k H; done. Qed.

Lemma digit_of_lu (k : Z) (d : Decimal.uint) :
  0 <= k <= 9 →
  Z.of_N (DecimalPos.Unsigned.of_lu (digit_cons k d))
  = k + 10 * Z.of_N (DecimalPos.Unsigned.of_lu d).
Proof.
  intros H. each_digit k H; cbn [digit_cons DecimalPos.Unsigned.of_lu]; lia.
Qed.

Lemma digit_revapp (k : Z) (d acc : Decimal.uint) :
  0 <= k <= 9 →
  Decimal.revapp (digit_cons k d) acc = Decimal.revapp d (digit_cons k acc).
Proof. intros H. each_digit k H; done. Qed.

Lemma digit_unorm (k : Z) (d : Decimal.uint) :
  0 <= k <= 9 →
  Decimal.unorm (digit_cons k d)
  = if k =? 0 then Decimal.unorm d else digit_cons k d.
Proof. intros H. each_digit k H; done. Qed.

Lemma digit_char_facts (k : Z) :
  0 <= k <= 9 →
  Strptime.between "0" "9" (digit_char k) = true
  ∧ Strptime.dv (digit_char k) = k
  ∧ Py.isspace (digit_char k) = false.
Proof. intros H. each_digit k H; done. Qed.

(** The value of a digit sequence given most significant digit first. *)
Lemma digits_value (u : Decimal.uint) :
  Z.of_int (Decimal.Pos u)
  = Z.of_N (DecimalPos.Unsigned.of_lu (Decimal.rev u)).
Proof.
  unfold Z.of_int, Z.of_uint. by rewrite DecimalPos.Unsigned.of_uint_alt.
Qed.

Lemma str_int_digits (n : Z) (u : Decimal.uint) :
  Z.of_N (DecimalPos.Unsigned.of_lu (Decimal.rev u)) = n →
  Py.str_int n = NilZero.string_of_uint (Decimal.unorm u).
Proof.
  intros <-. unfold Py.str_int.
  by rewrite <- digits_value, DecimalZ.to_of.
Qed.

Lemma year_text (y a b c e : Z) :
  0 <= a <= 9 → 0 <= b <= 9 → 0 <= c <= 9 → 0 <= e <= 9 →
  y = 1000 * a + 100 * b + 10 * c + e → 1 <= y →
  Py.zfill 4 (Py.str_int y)
  = String (digit_char a) (String (digit_char b)
      (String (digit_char c) (String (digit_char e) EmptyString))).
Proof.
  intros Ha Hb Hc He Hy Hpos.
  rewrite (str_int_digits y
             (digit_cons a (digit_cons b (digit_cons c
                (digit_cons e Decimal.Nil))))).
  2:{ unfold Decimal.rev. rewrite !digit_revapp by done.
      cbn [Decimal.revapp]. rewrite !digit_of_lu by done.
      cbn [DecimalPos.Unsigned.of_lu]. lia. }
  rewrite digit_unorm by done.
  destruct (Z.eqb_spec a 0) as [->|Ha0].
  2:{ rewrite (proj2 (digit_string a _ Ha)), (proj1 (digit_string a _ Ha)),
        (proj1 (digit_string b _ Hb)), (proj1 (digit_string c _ Hc)),
        (proj1 (digit_string e _ He)). done. }
  rewrite digit_unorm by done.
  destruct (Z.eqb_spec b 0) as [->|Hb0].
  2:{ rewrite (proj2 (digit_string b _ Hb)), (proj1 (digit_string b _ Hb)),
        (proj1 (digit_string c _ Hc)), (proj1 (digit_string e _ He)). done. }
  rewrite digit_unorm by done.
  destruct (Z.eqb_spec c 0) as [->|Hc0].
  2:{ rewrite (proj2 (digit_string c _ Hc)), (proj1 (digit_string c _ Hc)),
        (proj1 (digit_string e _ He)). done. }
  rewrite digit_unorm by done.
  destruct (Z.eqb_spec e 0) as [->|He0]; [lia|].
  rewrite (proj2 (digit_string e _ He)), (proj1 (digit_string e _ He)). done.
Qed.

Lemma two_digit_text (n a b : Z) :
  0 <= a <= 9 → 0 <= b <= 9 → n = 10 * a + b → 1 <= n →
  Py.zfill 2 (Py.str_int n)
  = String (digit_char a) (String (digit_char b) EmptyString).
Proof.
  intros Ha Hb Hn Hpos.
  rewrite (str_int_digits n (digit_cons a (digit_cons b Decimal.Nil))).
  2:{ unfold Decimal.rev. rewrite !digit_revapp by done.
      cbn [Decimal.revapp]. rewrite !digit_of_lu by done.
      cbn [DecimalPos.Unsigned.of_lu]. lia. }
  rewrite digit_unorm by done.
  destruct (Z.eqb_spec a 0) as [->|Ha0].
  2:{ rewrite (proj2 (digit_string a _ Ha)), (proj1 (digit_string a _ Ha)),
        (proj1 (digit_string b _ Hb)). done. }
  rewrite digit_unorm by done.
  destruct (Z.eqb_spec b 0) as [->|Hb0]; [lia|].
  rewrite (proj2 (digit_string b _ Hb)), (proj1 (digit_string b _ Hb)). done.
Qed.

(** The decimal digits of a number below 10000. *)
Lemma four_digits (y : Z) :
  1 <= y <= 9999 →
  ∃ a b c e, 0 <= a <= 9 ∧ 0 <= b <= 9 ∧ 0 <= c <= 9 ∧ 0 <= e <= 9
             ∧ y = 1000 * a + 100 * b + 10 * c + e.
Proof.
  intros H. exists (y / 1000), (y / 100 mod 10), (y / 10 mod 10), (y mod 10).
  Z.div_mod_to_equations. lia.
Qed.

Lemma two_digits (n : Z) :
  1 <= n <= 99 → ∃ a b, 0 <= a <= 9 ∧ 0 <= b <= 9 ∧ n = 10 * a + b.
Proof.
  intros H. exists (n / 10), (n mod 10). Z.div_mod_to_equations. lia.
Qed.

Lemma make_valid (y m d : Z) (x : date) :
  Date.make y m d = Some x →
  x = Date.mk y m d
  ∧ 1 <= y <= 9999 ∧ 1 <= m <= 12 ∧ 1 <= d <= Date.days_in_month y m.
Proof.
  unfold Date.make.
  destruct (_ && _) eqn:E; [|done]. intros [= <-].
  repeat (apply andb_true_iff in E as [E ?]). split; [done|]. lia.
Qed.

Lemma strptime_valid (s fmt : string) (x : date) :
  Strptime.strptime s fmt = Some x →
  1 <= Date.year x <= 9999 ∧ 1 <= Date.month x <= 12
  ∧ 1 <= Date.day x <= Date.days_in_month (Date.year x) (Date.month x).
Proof.
  unfold Strptime.strptime. destruct (existsb _ _); [done|].
  destruct (Strptime.re_match _ _ _) as [|[f [|? ?]] ?]; try done.
  intros H. apply make_valid in H as [-> H]. done.
Qed.

Lemma try_formats_valid (s : string) (fmts : list string) (x : date) :
  try_formats s fmts = Some x →
  1 <= Date.year x <= 9999 ∧ 1 <= Date.month x <= 12
  ∧ 1 <= Date.day x <= Date.days_in_month (Date.year x) (Date.month x).
Proof.
  induction fmts as [|fmt rest IH]; [done|]. simpl.
  destruct (Strptime.strptime s fmt) eqn:E; [|done].
  intros [= <-]. by apply strptime_valid in E.
Qed.

Lemma parse_valid (s : string) (x : date) :
  parse_date_to_obj s = Some x →
  1 <= Date.year x <= 9999 ∧ 1 <= Date.month x <= 12
  ∧ 1 <= Date.day x <= Date.days_in_month (Date.year x) (Date.month x).
Proof.
  unfold parse_date_to_obj. destruct (String.eqb s ""); [done|].
  destruct (try_formats _ DATE_FORMATS) eqn:E.
  - intros [= <-]. by apply try_formats_valid in E.
  - apply try_formats_valid.
Qed.

Lemma days_in_month_bounds (y m : Z) : 28 <= Date.days_in_month y m <= 31.
Proof.
  unfold Date.days_in_month.
  destruct (m =? 2); [destruct (Date.is_leap y); lia|].
  destruct (_ || _); lia.
Qed.

(** X4. A date string that parses gives a date of the calendar: a year
    from 1 to 9999, a month from 1 to 12 and a day of that month; such a
    date is never before [date.min].  The empty string and a string of
    whitespace do not parse. *)
Theorem parse_date_is_calendar_date :
  (∀ s x, parse_date_to_obj s = Some x →
     1 <= Date.year x <= 9999 ∧ 1 <= Date.month x <= 12
     ∧ 1 <= Date.day x <= Date.days_in_month (Date.year x) (Date.month x)
     ∧ Date.days_in_month (Date.year x) (Date.month x) <= 31
     ∧ Date.leb Date.min x = true)
  ∧ parse_date_to_obj "" = None
  ∧ ∀ s, Py.strip s = ""%string → parse_date_to_obj s = None.
Proof.
  split; [|split; [done|]].
  - intros s x H. apply parse_valid in H as (Hy & Hm & Hd).
    pose proof (days_in_month_bounds (Date.year x) (Date.month x)).
    repeat split; try lia. apply date_leb_iff. simpl. lia.
  - intros s Hs. unfold parse_date_to_obj.
    destruct (String.eqb s ""); [done|]. rewrite Hs. vm_compute. reflexivity.
Qed.

Lemma parse_date_is_calendar_date_witness :
  1 <= 2025 <= 9999 ∧ 1 <= 8 <= 12
  ∧ 1 <= 23 <= Date.days_in_month 2025 8
  ∧ Date.days_in_month 2025 8 <= 31
  ∧ Date.leb Date.min (Date.mk 2025 8 23) = true.
Proof.
  apply (proj1 parse_date_is_calendar_date "Aug 23, 2025" (Date.mk 2025 8 23)).
  vm_compute. reflexivity.
Defined.

(** *** Reading back an ISO date *)

Lemma append_cons (c : ascii) (s t : string) :
  (String c s ++ t)%string = String c (s ++ t)%string.
Proof. done. Qed.

Lemma append_nil (t : string) : (EmptyString ++ t)%string = t.
Proof. done. Qed.

Lemma names_reject_digit (c : ascii) (r : string) :
  Strptime.between "0" "9" c = true →
  Strptime.re_names Strptime.full_names (String c r) = []
  ∧ Strptime.re_names Strptime.abbr_names (String c r) = [].
Proof.
  intros H.
  destruct c as [[] [] [] [] [] [] [] []]; vm_compute in H; try discriminate H;
    split; reflexivity.
Qed.

Lemma re_year_digits (a b c e : Z) (r : string) :
  0 <= a <= 9 → 0 <= b <= 9 → 0 <= c <= 9 → 0 <= e <= 9 →
  Strptime.re_year
    (String (digit_char a) (String (digit_char b)
       (String (digit_char c) (String (digit_char e) r))))
  = [(1000 * a + 100 * b + 10 * c + e, r)].
Proof.
  intros Ha Hb Hc He. unfold Strptime.re_year.
  destruct (digit_char_facts a Ha) as (-> & -> & _).
  destruct (digit_char_facts b Hb) as (-> & -> & _).
  destruct (digit_char_facts c Hc) as (-> & -> & _).
  destruct (digit_char_facts e He) as (-> & -> & _).
  done.
Qed.

Lemma month_cases (m : Z) :
  1 <= m <= 12 →
  m = 1 ∨ m = 2 ∨ m = 3 ∨ m = 4 ∨ m = 5 ∨ m = 6 ∨ m = 7 ∨ m = 8 ∨ m = 9
  ∨ m = 10 ∨ m = 11 ∨ m = 12.
Proof. lia. Qed.

Lemma re_month_text (m : Z) (r : string) :
  1 <= m <= 12 →
  head (Strptime.re_month (Py.zfill 2 (Py.str_int m) ++ String "-" r))
  = Some (m, String "-" r).
Proof.
  intros H. pose proof (month_cases m H) as C.
  repeat (destruct C as [->|C]); [..|subst m]; reflexivity.
Qed.

Lemma re_day_text (d : Z) :
  1 <= d <= 31 →
  head (Strptime.re_day (Py.zfill 2 (Py.str_int d))) = Some (d, EmptyString).
Proof.
  intros H.
  assert (C : d = 1 ∨ d = 2 ∨ d = 3 ∨ d = 4 ∨ d = 5 ∨ d = 6 ∨ d = 7 ∨ d = 8
              ∨ d = 9 ∨ d = 10 ∨ d = 11 ∨ d = 12 ∨ d = 13 ∨ d = 14 ∨ d = 15
              ∨ d = 16 ∨ d = 17 ∨ d = 18 ∨ d = 19 ∨ d = 20 ∨ d = 21 ∨ d = 22
              ∨ d = 23 ∨ d = 24 ∨ d = 25 ∨ d = 26 ∨ d = 27 ∨ d = 28 ∨ d = 29
              ∨ d = 30 ∨ d = 31) by lia.
  repeat (destruct C as [->|C]); [..|subst d]; reflexivity.
Qed.

Lemma none_of_app (p : ascii → bool) (s t : string) :
  none_of p (s ++ t) = none_of p s && none_of p t.
Proof.
  induction s as [|a r IH]; [done|].
  rewrite append_cons. simpl. by rewrite IH, andb_assoc.
Qed.

Lemma uint_no_space (d : Decimal.uint) :
  none_of Py.isspace (NilEmpty.string_of_uint d) = true.
Proof. induction d; simpl; done. Qed.

Lemma str_int_no_space (n : Z) : none_of Py.isspace (Py.str_int n) = true.
Proof.
  unfold Py.str_int, NilZero.string_of_int, NilZero.string_of_uint.
  destruct (Z.to_int n) as [d|d]; simpl.
  - destruct d; try done; apply (uint_no_space (_ d)).
  - destruct d; try done; apply (uint_no_space (_ d)).
Qed.

Lemma zfill_no_space (w : nat) (s : string) :
  none_of Py.isspace s = true → none_of Py.isspace (Py.zfill w s) = true.
Proof.
  intros H. unfold Py.zfill. rewrite none_of_app, H, andb_true_r.
  induction (w - String.length s)%nat; [done|]. simpl. done.
Qed.

Lemma isoformat_no_space (d : date) :
  none_of Py.isspace (Date.isoformat d) = true.
Proof.
  unfold Date.isoformat.
  rewrite !none_of_app, !zfill_no_space by apply str_int_no_space. done.
Qed.

Lemma head_cons {A} (l : list A) (x : A) :
  head l = Some x → ∃ l', l = x :: l'.
Proof. destruct l; [done|]. intros [= ->]. eauto. Qed.

(** The format [%Y-%m-%d] reads the ISO form of a calendar date. *)
Lemma re_lit_dash (r : string) : Strptime.re_lit "-" (String "-" r) = [r].
Proof. done. Qed.

Lemma strptime_iso (x : date) :
  1 <= Date.year x <= 9999 → 1 <= Date.month x <= 12 →
  1 <= Date.day x <= Date.days_in_month (Date.year x) (Date.month x) →
  ∃ c r, Date.isoformat x = String c r
         ∧ Strptime.between "0" "9" c = true
         ∧ Strptime.strptime (Date.isoformat x) "%Y-%m-%d" = Some x.
Proof.
  destruct x as [y m d]. simpl. intros Hy Hm Hd.
  pose proof (days_in_month_bounds y m) as Hdim.
  destruct (four_digits y Hy) as (a & b & c & e & Ha & Hb & Hc & He & Hyv).
  assert (Hs : Date.isoformat (Date.mk y m d)
               = String (digit_char a) (String (digit_char b)
                   (String (digit_char c) (String (digit_char e)
                      (String "-" (Py.zfill 2 (Py.str_int m)
                                   ++ String "-" (Py.zfill 2 (Py.str_int d)))))))%string).
  { unfold Date.isoformat. simpl.
    rewrite (year_text y a b c e) by (done || lia). reflexivity. }
  rewrite Hs.
  exists (digit_char a). eexists. split; [reflexivity|].
  split; [apply (digit_char_facts a Ha)|].
  unfold Strptime.strptime.
  change (Strptime.tokenize "%Y-%m-%d")
    with [Strptime.Year; Strptime.Lit "-"; Strptime.MonthNum;
          Strptime.Lit "-"; Strptime.Day].
  cbn [existsb Strptime.is_bad orb].
  cbn [Strptime.re_match Strptime.step].
  rewrite (re_year_digits a b c e) by done. rewrite <- Hyv.
  cbn [map flat_map fst snd Strptime.fY Strptime.fm Strptime.fd
       Strptime.no_fields].
  rewrite re_lit_dash.
  cbn [map flat_map fst snd app].
  destruct (head_cons _ _ (re_month_text m
              (Py.zfill 2 (Py.str_int d)) Hm)) as [om ->].
  cbn [map flat_map fst snd app Strptime.fY Strptime.fm Strptime.fd].
  rewrite re_lit_dash.
  cbn [map flat_map fst snd app].
  destruct (head_cons _ _ (re_day_text d ltac:(lia))) as [od ->].
  cbn [map flat_map fst snd app Strptime.fY Strptime.fm Strptime.fd].
  unfold Date.make.
  replace (_ && _) with true; [done|].
  symmetry. repeat (apply andb_true_iff; split); lia.
Qed.

Lemma strptime_name_formats_fail (c : ascii) (r : string) :
  Strptime.between "0" "9" c = true →
  Strptime.strptime (String c r) "%B %d, %Y" = None
  ∧ Strptime.strptime (String c r) "%b %d, %Y" = None.
Proof.
  intros H. destruct (names_reject_digit c r H) as [Hf Ha].
  unfold Strptime.strptime.
  change (Strptime.tokenize "%B %d, %Y")
    with [Strptime.MonthFull; Strptime.Ws; Strptime.Day; Strptime.Lit ",";
          Strptime.Ws; Strptime.Year].
  change (Strptime.tokenize "%b %d, %Y")
    with [Strptime.MonthAbbr; Strptime.Ws; Strptime.Day; Strptime.Lit ",";
          Strptime.Ws; Strptime.Year].
  cbn [existsb Strptime.is_bad orb Strptime.re_match Strptime.step].
  by rewrite Hf, Ha.
Qed.

Lemma parse_isoformat (x : date) :
  1 <= Date.year x <= 9999 → 1 <= Date.month x <= 12 →
  1 <= Date.day x <= Date.days_in_month (Date.year x) (Date.month x) →
  parse_date_to_obj (Date.isoformat x) = Some x.
Proof.
  intros Hy Hm Hd.
  destruct (strptime_iso x Hy Hm Hd) as (c & r & Hs & Hc & Hp).
  pose proof (isoformat_no_space x) as Hns.
  destruct (no_space_fixed _ Hns) as (Hl & Hr & Hsub & _).
  unfold parse_date_to_obj, Py.strip, Py.sub_ws.
  rewrite Hl, Hr, Hsub. rewrite Hs in *.
  destruct (strptime_name_formats_fail c r Hc) as [H1 H2].
  unfold DATE_FORMATS. cbn [String.eqb try_formats]. by rewrite H1, H2, Hp.
Qed.

(** X5. The ISO form of a calendar date parses back to that date, so
    parsing the ISO form of whatever a date string parsed to (the empty
    string when it did not parse) gives the same result again, and a merge
    key does not change when the date is replaced by its ISO form. *)
Theorem iso_round_trip :
  (∀ x : date,
     1 <= Date.year x <= 9999 → 1 <= Date.month x <= 12 →
     1 <= Date.day x <= Date.days_in_month (Date.year x) (Date.month x) →
     parse_date_to_obj (to_iso (Some x)) = Some x)
  ∧ (∀ s, parse_date_to_obj (to_iso (parse_date_to_obj s))
          = parse_date_to_obj s)
  ∧ (∀ s f1 f2, legacy_key (to_iso (parse_date_to_obj s)) f1 f2
                = legacy_key s f1 f2).
Proof.
  assert (H2 : ∀ s, parse_date_to_obj (to_iso (parse_date_to_obj s))
                    = parse_date_to_obj s).
  { intros s. destruct (parse_date_to_obj s) as [x|] eqn:E; [|done].
    apply parse_valid in E as (Hy & Hm & Hd). by apply parse_isoformat. }
  split; [|split; [done|]].
  - intros x. apply parse_isoformat.
  - intros s f1 f2. apply legacy_key_same_date, H2.
Qed.

Lemma iso_round_trip_witness :
  parse_date_to_obj (to_iso (Some (Date.mk 2024 2 29)))
  = Some (Date.mk 2024 2 29).
Proof.
  apply (proj1 iso_round_trip (Date.mk 2024 2 29)); vm_compute; done.
Defined.

(** ** More on the merge *)

(** X6. Field by field: a field that the incoming row lacks or holds as
    null keeps the existing cell; an incoming string that is neither empty
    after trimming nor "unknown" replaces the cell by its trimmed form;
    the merged row has exactly the fields of the existing row and the
    non-null fields of the incoming one; and merging an empty row changes
    nothing. *)
Theorem merge_rows_fieldwise (a b : row) (k : string) :
  (b !! k = None ∨ b !! k = Some VNone → merge_rows a b !! k = a !! k)
  ∧ (∀ s, b !! k = Some (VStr s) → unknownish (Py.strip s) = false →
          merge_rows a b !! k = Some (VStr (Py.strip s)))
  ∧ (is_Some (merge_rows a b !! k)
     ↔ is_Some (a !! k) ∨ ∃ s, b !! k = Some (VStr s))
  ∧ merge_rows a ∅ = a.
Proof.
  rewrite merge_rows_lookup. split; [|split; [|split; [split|]]].
  - intros [->| ->]; done.
  - intros s -> Hs. by rewrite merge_cell_str, Hs.
  - destruct (b !! k) as [[|s]|] eqn:Hb; [by left| |by left].
    intros _. right. eauto.
  - intros [Ha|[s Hb]].
    + destruct (b !! k) as [[|s]|]; [done| |done].
      rewrite merge_cell_str. by destruct (_ && _).
    + rewrite Hb, merge_cell_str.
      destruct (unknownish _ && populated a k) eqn:E; [|done].
      apply andb_true_iff in E as [_ E]. unfold populated in E.
      by destruct (a !! k).
  - apply map_eq. intros i. by rewrite merge_rows_lookup, lookup_empty.
Qed.

Lemma merge_rows_fieldwise_witness :
  merge_rows {[ "fighter_1_reach"%string := VStr "84" ]}
             {[ "fighter_1_reach"%string := VStr " 85 " ]}
    !! "fighter_1_reach"%string
  = Some (VStr "85").
Proof.
  apply (proj1 (proj2 (merge_rows_fieldwise _ _ "fighter_1_reach")) " 85 ");
    vm_compute; reflexivity.
Defined.

(** ** Loading *)

Lemma load_snoc (headers : list string) (rows : list row) (r : row) :
  load_existing_csv headers (rows ++ [r])
  = load_step (date_col headers) (load_existing_csv headers rows) r.
Proof. unfold load_existing_csv. by rewrite foldl_app. Qed.

(** X7. The key map that loading builds holds, under each key, the last
    of the loaded rows with that key: a later row silently replaces an
    earlier one of the same key, every stored row is a loaded row filed
    under its own key, and the map is no larger than the file. *)
Theorem load_last_row_wins (headers : list string) (rows : list row) :
  let m := fst (load_existing_csv headers rows) in
  let key := row_key (date_col headers) in
  (∀ k r, m !! k = Some r
          ↔ ∃ i, rows !! i = Some r ∧ key r = k
                 ∧ ∀ j r', (i < j)%nat → rows !! j = Some r' → key r' ≠ k)
  ∧ (size m ≤ length rows)%nat.
Proof.
  induction rows as [|r0 rows IH] using rev_ind.
  { simpl. split; [|done]. intros k r. rewrite lookup_empty.
    split; [done|]. by intros (i & ? & _). }
  rewrite load_snoc. destruct IH as [IH Hsize].
  set (m := fst (load_existing_csv headers rows)) in *.
  cbn zeta in *. unfold load_step. cbn [fst].
  fold (row_key (date_col headers) r0).
  set (key := row_key (date_col headers)) in *.
  split.
  - intros k r. destruct (decide (key r0 = k)) as [Hk|Hk].
    + rewrite Hk, lookup_insert_eq. split.
      * intros [= <-]. exists (length rows). split; [by rewrite list_lookup_middle|].
        split; [done|]. intros j r' Hj Hr'.
        apply lookup_lt_Some in Hr'. rewrite length_app in Hr'. simpl in Hr'. lia.
      * intros (i & Hi & _ & Hlast).
        destruct (decide (i = length rows)) as [->|Hne].
        { rewrite list_lookup_middle in Hi by done. done. }
        exfalso. apply (Hlast (length rows) r0); [|by rewrite list_lookup_middle|done].
        apply lookup_lt_Some in Hi. rewrite length_app in Hi. simpl in Hi. lia.
    + rewrite lookup_insert_ne by done. split.
      * intros H. apply IH in H as (i & Hi & Hki & Hlast). exists i.
        split; [by apply lookup_app_l_Some|]. split; [done|].
        intros j r' Hj Hr'. apply lookup_app_Some in Hr' as [Hr'|[Hlen Hr']].
        -- by apply (Hlast j).
        -- apply list_lookup_singleton_Some in Hr' as [_ <-]. done.
      * intros (i & Hi & Hki & Hlast). apply IH.
        apply lookup_app_Some in Hi as [Hi|[Hlen Hi]].
        -- exists i. split; [done|]. split; [done|].
           intros j r' Hj Hr'. apply (Hlast j); [done|].
           by apply lookup_app_l_Some.
        -- apply list_lookup_singleton_Some in Hi as [_ <-]. done.
  - rewrite length_app. simpl.
    destruct (m !! key r0) eqn:E.
    + rewrite map_size_insert_Some by done. fold m. lia.
    + rewrite map_size_insert_None by done. fold m. lia.
Qed.

(** X8. The latest date that loading reports is the greatest of the dates
    that parse among the loaded rows, and there is none exactly when no
    row's date parses. *)
Theorem load_max_date (headers : list string) (rows : list row) :
  let max_date := snd (load_existing_csv headers rows) in
  let date_of r := parse_date_to_obj (date_val (date_col headers) r) in
  (max_date = None ↔ ∀ r, r ∈ rows → date_of r = None)
  ∧ ∀ d, max_date = Some d →
         (∃ r, r ∈ rows ∧ date_of r = Some d)
         ∧ ∀ r d', r ∈ rows → date_of r = Some d' → Date.leb d' d = true.
Proof.
  cbn zeta.
  induction rows as [|r0 rows IH] using rev_ind.
  { simpl. split; [|done]. split; [|done]. intros _ r Hr.
    by apply elem_of_nil in Hr. }
  rewrite load_snoc. unfold load_step. cbn [snd].
  revert IH. generalize (snd (load_existing_csv headers rows)).
  intros mxo [IHn IHs].
  destruct (parse_date_to_obj (date_val (date_col headers) r0)) as [d0|] eqn:E0;
    destruct mxo as [mx|].
  - split.
    { split; [by destruct (Date.gtb d0 mx)|].
      intros H. assert (Hin : r0 ∈ rows ++ [r0]) by (apply elem_of_app; right; left).
      apply H in Hin. congruence. }
    destruct (IHs mx eq_refl) as [(r & Hr & Hd) Hmax].
    intros d Hd'. rewrite date_gtb_not_leb in Hd'.
    destruct (Date.leb d0 mx) eqn:Hle; simpl in Hd'; injection Hd' as <-.
    + split; [exists r; split; [apply elem_of_app; by left|done]|].
      intros r' d' Hr' Hd'. apply elem_of_app in Hr' as [Hr'|Hr'].
      * by apply (Hmax r').
      * apply list_elem_of_singleton in Hr' as ->. congruence.
    + split; [exists r0; split; [apply elem_of_app; right; left|done]|].
      intros r' d' Hr' Hd'. apply elem_of_app in Hr' as [Hr'|Hr'].
      * apply (date_leb_trans _ mx); [by apply (Hmax r')|].
        destruct (date_leb_total mx d0); congruence.
      * apply list_elem_of_singleton in Hr' as ->.
        rewrite E0 in Hd'. injection Hd' as <-. apply date_leb_refl.
  - split.
    { split; [done|]. intros H.
      assert (Hin : r0 ∈ rows ++ [r0]) by (apply elem_of_app; right; left).
      apply H in Hin. congruence. }
    intros d [= <-]. split; [exists r0; split; [apply elem_of_app; right; left|done]|].
    intros r' d' Hr' Hd'. apply elem_of_app in Hr' as [Hr'|Hr'].
    + rewrite (proj1 IHn eq_refl r' Hr') in Hd'. done.
    + apply list_elem_of_singleton in Hr' as ->.
      rewrite E0 in Hd'. injection Hd' as <-. apply date_leb_refl.
  - split.
    { split; [done|]. intros H.
      destruct (IHs mx eq_refl) as [(r & Hr & Hd) _].
      rewrite (H r) in Hd; [done|apply elem_of_app; by left]. }
    destruct (IHs mx eq_refl) as [(r & Hr & Hd) Hmax].
    intros d [= <-]. split; [exists r; split; [apply elem_of_app; by left|done]|].
    intros r' d' Hr' Hd'. apply elem_of_app in Hr' as [Hr'|Hr'].
    + by apply (Hmax r').
    + apply list_elem_of_singleton in Hr' as ->. congruence.
  - split; [|done]. split; [|done]. intros _ r Hr.
    apply elem_of_app in Hr as [Hr|Hr]; [by apply IHn|].
    by apply list_elem_of_singleton in Hr as ->.
Qed.

(** ** Upserting *)

Lemma upsert_step (refresh : bool) (st : store) (d f1 f2 : string)
    (rowdict : row) :
  let st' := upsert refresh st d f1 f2 rowdict in
  (size (key_to_row st') + new_count st
   = size (key_to_row st) + new_count st')%nat
  ∧ (new_count st ≤ new_count st')%nat
  ∧ (updated_count st ≤ updated_count st')%nat
  ∧ (new_count st' + updated_count st'
     ≤ S (new_count st + updated_count st))%nat
  ∧ (∀ k, is_Some (key_to_row st !! k) → is_Some (key_to_row st' !! k)).
Proof.
  unfold upsert.
  destruct (key_to_row st !! legacy_key d f1 f2) as [old|] eqn:E.
  - destruct refresh; simpl; [|repeat split; auto; lia].
    case_bool_decide; simpl; [repeat split; auto; lia|].
    rewrite map_size_insert_Some by done.
    repeat split; try lia. intros k Hk.
    destruct (decide (legacy_key d f1 f2 = k)) as [->|Hne].
    + by rewrite lookup_insert_eq.
    + by rewrite lookup_insert_ne.
  - simpl. rewrite map_size_insert_None by done.
    repeat split; try lia. intros k Hk.
    destruct (decide (legacy_key d f1 f2 = k)) as [->|Hne].
    + by rewrite lookup_insert_eq.
    + by rewrite lookup_insert_ne.
Qed.

(** X9. Over any run of upserts the key map grows by exactly the number
    of fights counted as new, no key is ever removed, neither counter
    decreases, and at most one of the two counters moves per fight. *)
Theorem upsert_all_accounting (refresh : bool) (st : store)
    (obs : list observation) :
  let st' := upsert_all refresh st obs in
  (size (key_to_row st') + new_count st
   = size (key_to_row st) + new_count st')%nat
  ∧ (new_count st ≤ new_count st')%nat
  ∧ (updated_count st ≤ updated_count st')%nat
  ∧ (new_count st' + updated_count st'
     ≤ length obs + (new_count st + updated_count st))%nat
  ∧ (∀ k, is_Some (key_to_row st !! k) → is_Some (key_to_row st' !! k)).
Proof.
  revert st. induction obs as [|o obs IH]; intros st.
  { simpl. repeat split; auto. }
  unfold upsert_all. cbn [foldl].
  fold (upsert_all refresh
          (upsert refresh st (obs_date o) (obs_f1 o) (obs_f2 o) (obs_row o)) obs).
  destruct (upsert_step refresh st (obs_date o) (obs_f1 o) (obs_f2 o) (obs_row o))
    as (H1 & H2 & H3 & H4 & H5).
  destruct (IH (upsert refresh st (obs_date o) (obs_f1 o) (obs_f2 o) (obs_row o)))
    as (I1 & I2 & I3 & I4 & I5).
  cbn zeta in *. simpl length.
  repeat split; try lia. intros k Hk. by apply I5, H5.
Qed.

(** X10. With refreshing switched off a fight whose key is already stored
    leaves the store exactly as it is; with refreshing on it leaves every
    other key alone and stores the merge of the stored row with the new
    one. *)
Theorem upsert_existing (refresh : bool) (st : store) (d f1 f2 : string)
    (rowdict old : row) :
  key_to_row st !! legacy_key d f1 f2 = Some old →
  let st' := upsert refresh st d f1 f2 rowdict in
  (refresh = false → st' = st)
  ∧ key_to_row st' !! legacy_key d f1 f2
    = Some (if refresh then merge_rows old rowdict else old)
  ∧ (∀ k, k ≠ legacy_key d f1 f2 → key_to_row st' !! k = key_to_row st !! k)
  ∧ new_count st' = new_count st
  ∧ updated_count st'
    = if refresh && negb (bool_decide (merge_rows old rowdict = old))
      then S (updated_count st) else updated_count st.
Proof.
  intros Hold. unfold upsert. rewrite Hold.
  destruct refresh; simpl; [|by repeat split].
  case_bool_decide as Hm; simpl.
  - rewrite Hm. by repeat split.
  - rewrite lookup_insert_eq. repeat split; try done.
    intros k Hk. by rewrite lookup_insert_ne.
Qed.

Lemma upsert_existing_witness :
  let old : row := {[ "fighter_1"%string := VStr "A"; "fighter_2"%string := VStr "B" ]} in
  let st := mkstore {[ legacy_key "" "A" "B" := old ]} 0 0 in
  let new : row := {[ "method_main"%string := VStr "KO/TKO" ]} in
  let st' := upsert true st "" "A" "B" new in
  (true = false → st' = st)
  ∧ key_to_row st' !! legacy_key "" "A" "B" = Some (merge_rows old new)
  ∧ (∀ k, k ≠ legacy_key "" "A" "B" → key_to_row st' !! k = key_to_row st !! k)
  ∧ new_count st' = new_count st
  ∧ updated_count st'
    = if true && negb (bool_decide (merge_rows old new = old))
      then S (updated_count st) else updated_count st.
Proof.
  intros old st new.
  apply (upsert_existing true st "" "A" "B" new old).
  apply lookup_singleton_eq.
Defined.

Lemma upsert_has_key (refresh : bool) (st : store) (d f1 f2 : string)
    (rowdict : row) :
  is_Some (key_to_row (upsert refresh st d f1 f2 rowdict) !! legacy_key d f1 f2).
Proof.
  unfold upsert.
  destruct (key_to_row st !! legacy_key d f1 f2) as [old|] eqn:E.
  - destruct refresh; simpl; [|by rewrite E].
    case_bool_decide; simpl; [by rewrite E|by rewrite lookup_insert_eq].
  - simpl. by rewrite lookup_insert_eq.
Qed.

(** X11. Upserting the same fight again changes nothing once its key is
    stored: a second upsert of an observation whose key was already
    present, and any third one, returns the store unchanged. *)
Theorem upsert_again (refresh : bool) (st : store) (d f1 f2 : string)
    (rowdict : row) :
  let once := upsert refresh st d f1 f2 rowdict in
  let twice := upsert refresh once d f1 f2 rowdict in
  (is_Some (key_to_row st !! legacy_key d f1 f2) → twice = once)
  ∧ upsert refresh twice d f1 f2 rowdict = twice.
Proof.
  assert (Hex : ∀ st0, is_Some (key_to_row st0 !! legacy_key d f1 f2) →
            upsert refresh (upsert refresh st0 d f1 f2 rowdict) d f1 f2 rowdict
            = upsert refresh st0 d f1 f2 rowdict).
  { intros st0 [old Hold]. unfold upsert at 2. rewrite Hold.
    destruct refresh; simpl.
    - case_bool_decide as Hm.
      + unfold upsert. rewrite Hold. simpl. by rewrite bool_decide_eq_true_2.
      + unfold upsert. cbn [key_to_row]. rewrite lookup_insert_eq.
        cbn [negb].
        rewrite Hold, (bool_decide_eq_true_2 _ (merge_rows_twice old rowdict)).
        by rewrite (bool_decide_eq_false_2 _ Hm).
    - unfold upsert. by rewrite Hold. }
  cbn zeta. split; [apply Hex|].
  apply Hex, upsert_has_key.
Qed.

(** ** The knowledge base *)

Lemma counter_incr_keys (v : string) (c : counter) :
  fst <$> counter_incr v c
  = if bool_decide (v ∈ fst <$> c) then fst <$> c else (fst <$> c) ++ [v].
Proof.
  induction c as [|[k n] rest IH]; [done|].
  cbn [counter_incr].
  destruct (String.eqb_spec k v) as [->|Hkv]; rewrite !fmap_cons; cbn [fst].
  - rewrite bool_decide_eq_true_2; [done|left].
  - rewrite IH. case_bool_decide as H1; case_bool_decide as H2; try done.
    + exfalso. apply H2. by right.
    + exfalso. apply elem_of_cons in H2 as [H2|H2]; congruence.
Qed.

Lemma counter_incr_count (v v' : string) (c : counter) :
  count_of v' (counter_incr v c)
  = count_of v' c + (if String.eqb v v' then 1 else 0).
Proof.
  induction c as [|[k n] rest IH]; simpl.
  - destruct (String.eqb v v'); lia.
  - destruct (String.eqb_spec k v) as [->|Hkv]; simpl.
    + destruct (String.eqb v v'); lia.
    + destruct (String.eqb_spec k v') as [->|Hkv'].
      * destruct (String.eqb_spec v v'); [congruence|lia].
      * apply IH.
Qed.

Lemma occurrences_snoc (v v' : string) (d : date) (tl : timeline) :
  occurrences v' (tl ++ [(d, v)])
  = occurrences v' tl + (if String.eqb v v' then 1 else 0).
Proof.
  unfold occurrences. rewrite filter_app, length_app.
  rewrite filter_cons, filter_nil. simpl.
  destruct (String.eqb_spec v v'); case_decide; simpl; try done; lia.
Qed.

Lemma recorded_nil : recorded [] [].
Proof.
  split; [constructor|]. split; [done|]. split.
  - intros v. split; [by intros ?%elem_of_nil|].
    intros [d Hd]. by apply elem_of_nil in Hd.
  - intros e He. by apply elem_of_nil in He.
Qed.

Lemma recorded_observe (d : date) (v : pyval) (c : counter) (tl : timeline) :
  recorded c tl →
  recorded (fst (observe d v (c, tl))) (snd (observe d v (c, tl))).
Proof.
  intros (Hnd & Hcount & Hkeys & Hnb). unfold observe.
  destruct v as [|s]; [done|].
  destruct (is_blank (VStr s)) eqn:Hb; [done|]. cbn [fst snd].
  split; [|split; [|split]].
  - rewrite counter_incr_keys. case_bool_decide as Hin; [done|].
    apply NoDup_app. split; [done|]. split; [|apply NoDup_singleton].
    intros x Hx Hx'. apply list_elem_of_singleton in Hx'. congruence.
  - intros v'. by rewrite counter_incr_count, occurrences_snoc, Hcount.
  - intros v'. rewrite counter_incr_keys. split.
    + intros Hin.
      assert (v' ∈ fst <$> c ∨ v' = s) as Hcase.
      { case_bool_decide; [by left|].
        apply elem_of_app in Hin as [Hin|Hin]; [by left|].
        apply list_elem_of_singleton in Hin. by right. }
      destruct Hcase as [H|Hvs].
      * apply Hkeys in H as [d' Hd']. exists d'. apply elem_of_app. by left.
      * subst v'. exists d. apply elem_of_app. right. left.
    + intros [d' Hd']. apply elem_of_app in Hd' as [Hd'|Hd'].
      * assert (v' ∈ fst <$> c) by (apply Hkeys; eauto).
        case_bool_decide; [done|]. apply elem_of_app. by left.
      * apply list_elem_of_singleton in Hd'. injection Hd' as -> ->.
        case_bool_decide; [done|]. apply elem_of_app. right. left.
  - intros e He. apply elem_of_app in He as [He|He]; [by apply Hnb|].
    by apply list_elem_of_singleton in He as ->.
Qed.

Lemma occurrences_perm (v : string) (tl tl' : timeline) :
  tl ≡ₚ tl' → occurrences v tl = occurrences v tl'.
Proof. intros H. unfold occurrences. by rewrite H. Qed.

Lemma recorded_perm (c : counter) (tl tl' : timeline) :
  tl ≡ₚ tl' → recorded c tl → recorded c tl'.
Proof.
  intros Hp (Hnd & Hcount & Hkeys & Hnb).
  split; [done|]. split; [|split].
  - intros v. rewrite Hcount. by apply occurrences_perm.
  - intros v. rewrite Hkeys. split; intros [d Hd]; exists d.
    + by rewrite <- Hp.
    + by rewrite Hp.
  - intros e He. apply Hnb. by rewrite Hp.
Qed.

Lemma kb_side_recorded (d : date) (s : side) (r : row) (kb : gmap string kbe) :
  (∀ n e, kb !! n = Some e →
     recorded (born_counts e) (born_timeline e)
     ∧ recorded (gym_counts e) (gym_timeline e)) →
  ∀ n e, kb_side d s r kb !! n = Some e →
    recorded (born_counts e) (born_timeline e)
    ∧ recorded (gym_counts e) (gym_timeline e).
Proof.
  intros Hkb n e. unfold kb_side.
  destruct (Py.truthy (get_str r (side_col s))); simpl; [|apply Hkb].
  destruct (decide (norm_name (get_str r (side_col s)) = n)) as [<-|Hne].
  2:{ rewrite lookup_insert_ne by done. apply Hkb. }
  rewrite lookup_insert_eq. intros [= <-]. cbn [born_counts born_timeline
    gym_counts gym_timeline].
  assert (recorded (born_counts (default fresh_kbe
              (kb !! norm_name (get_str r (side_col s)))))
            (born_timeline (default fresh_kbe
              (kb !! norm_name (get_str r (side_col s)))))
          ∧ recorded (gym_counts (default fresh_kbe
              (kb !! norm_name (get_str r (side_col s)))))
            (gym_timeline (default fresh_kbe
              (kb !! norm_name (get_str r (side_col s)))))) as [Hb Hg].
  { destruct (kb !! norm_name (get_str r (side_col s))) as [e0|] eqn:E.
    - simpl. by apply (Hkb (norm_name (get_str r (side_col s))) e0).
    - split; apply recorded_nil. }
  split; by apply recorded_observe.
Qed.

Lemma kb_loop_recorded (rows : list row) (n : string) (e : kbe) :
  foldl kb_row ∅ rows !! n = Some e →
  recorded (born_counts e) (born_timeline e)
  ∧ recorded (gym_counts e) (gym_timeline e).
Proof.
  revert n e. induction rows as [|r rows IH] using rev_ind; intros n e.
  { simpl. by rewrite lookup_empty. }
  rewrite foldl_app. simpl. unfold kb_row at 1.
  destruct (parse_date_to_obj (get_str r "event_date")) as [d|]; [|apply IH].
  apply kb_side_recorded, kb_side_recorded, IH.
Qed.

Lemma sort_timeline_perm (tl : timeline) : sort_timeline tl ≡ₚ tl.
Proof. apply stable_sort_perm. Qed.

Lemma sort_timeline_sorted (tl : timeline) : chronological (sort_timeline tl).
Proof.
  apply (stable_sort_sorted (λ x y : date * string, Date.leb (fst x) (fst y))).
  intros a b. apply date_leb_total.
Qed.

Lemma kb_entry_sorted (rows : list row) (n : string) (e : kbe) :
  build_fighter_kb rows !! n = Some e →
  ∃ e0, foldl kb_row ∅ rows !! n = Some e0 ∧ e = sort_kbe e0.
Proof.
  unfold build_fighter_kb. rewrite lookup_fmap.
  destruct (foldl kb_row ∅ rows !! n) as [e0|]; [|done].
  intros [= <-]. eauto.
Qed.

(** X12. In every entry of the knowledge base both timelines are sorted by
    date and hold no blank value, and each counter has distinct keys, counts
    every value as often as it occurs in its timeline, and has exactly the
    occurring values as keys.  These are the conditions under which the
    two selection functions were specified. *)
Theorem build_fighter_kb_recorded (rows : list row) (n : string) (e : kbe) :
  build_fighter_kb rows !! n = Some e →
  chronological (born_timeline e) ∧ chronological (gym_timeline e)
  ∧ recorded (born_counts e) (born_timeline e)
  ∧ recorded (gym_counts e) (gym_timeline e).
Proof.
  intros H. apply kb_entry_sorted in H as (e0 & E & ->).
  unfold sort_kbe. simpl.
  destruct (kb_loop_recorded rows n e0 E) as [Hb Hg].
  split; [apply sort_timeline_sorted|]. split; [apply sort_timeline_sorted|].
  split; (eapply recorded_perm; [symmetry; apply sort_timeline_perm|done]).
Qed.

Lemma build_fighter_kb_recorded_witness :
  let rows : list row :=
    [ {[ "event_date"%string := VStr "2025-08-23";
         "fighter_1"%string := VStr "A"; "fighter_2"%string := VStr "B";
         "fighter_1_gym"%string := VStr "Camp B" ]};
      {[ "event_date"%string := VStr "2024-01-13";
         "fighter_1"%string := VStr "a"; "fighter_2"%string := VStr "C";
         "fighter_1_gym"%string := VStr "Camp A" ]} ] in
  let e := mk_kbe [] []
             [("Camp B"%string, 1); ("Camp A"%string, 1)]
             [(Date.mk 2024 1 13, "Camp A"%string);
              (Date.mk 2025 8 23, "Camp B"%string)]
             (Date.mk 2025 8 23) in
  chronological (born_timeline e) ∧ chronological (gym_timeline e)
  ∧ recorded (born_counts e) (born_timeline e)
  ∧ recorded (gym_counts e) (gym_timeline e).
Proof.
  intros rows e. apply (build_fighter_kb_recorded rows "a" e).
  vm_compute. reflexivity.
Defined.

Lemma kb_side_seen (obs : list (string * date)) (d : date) (s : side) (r : row)
    (kb : gmap string kbe) :
  Date.leb Date.min d = true →
  (∀ m, m ≠ ""%string →
        match kb !! m with
        | Some e => most_recent obs m (last_seen_date e)
        | None => ∀ d', (m, d') ∉ obs
        end) →
  ∀ m, m ≠ ""%string →
       match kb_side d s r kb !! m with
       | Some e =>
           most_recent (obs ++ [(norm_name (get_str r (side_col s)), d)]) m
                       (last_seen_date e)
       | None => ∀ d', (m, d') ∉ obs ++ [(norm_name (get_str r (side_col s)), d)]
       end.
Proof.
  intros Hmin Hinv m Hm.
  set (n := norm_name (get_str r (side_col s))).
  assert (Hkeep : m ≠ n →
            match kb !! m with
            | Some e => most_recent (obs ++ [(n, d)]) m (last_seen_date e)
            | None => ∀ d', (m, d') ∉ obs ++ [(n, d)]
            end).
  { intros Hmn. specialize (Hinv m Hm).
    destruct (kb !! m) as [e|].
    - destruct Hinv as [Hin Hmax]. split; [apply elem_of_app; by left|].
      intros d' Hd'. apply elem_of_app in Hd' as [Hd'|Hd']; [by apply Hmax|].
      apply list_elem_of_singleton in Hd'. congruence.
    - intros d' Hd'. apply elem_of_app in Hd' as [Hd'|Hd'].
      + by apply (Hinv d').
      + apply list_elem_of_singleton in Hd'. congruence. }
  unfold kb_side. fold n.
  destruct (Py.truthy (get_str r (side_col s))) eqn:Ht; simpl.
  2:{ apply Hkeep. apply truthy_false in Ht. unfold n. rewrite Ht. done. }
  destruct (decide (m = n)) as [->|Hmn];
    [|rewrite lookup_insert_ne by done; by apply Hkeep].
  rewrite lookup_insert_eq. cbn [last_seen_date].
  specialize (Hinv n Hm).
  destruct (kb !! n) as [e0|]; simpl.
  - destruct Hinv as [Hin Hmax].
    rewrite date_gtb_not_leb.
    destruct (Date.leb d (last_seen_date e0)) eqn:Hle; simpl.
    + split; [apply elem_of_app; by left|].
      intros d' Hd'. apply elem_of_app in Hd' as [Hd'|Hd']; [by apply Hmax|].
      apply list_elem_of_singleton in Hd'. by injection Hd' as ->.
    + split; [apply elem_of_app; right; left|].
      intros d' Hd'. apply elem_of_app in Hd' as [Hd'|Hd'].
      * apply (date_leb_trans _ (last_seen_date e0)); [by apply Hmax|].
        destruct (date_leb_total (last_seen_date e0) d); congruence.
      * apply list_elem_of_singleton in Hd'. injection Hd' as ->.
        apply date_leb_refl.
  - rewrite date_gtb_not_leb.
    assert (Hlast : (if negb (Date.leb d Date.min) then d else Date.min) = d).
    { destruct (Date.leb d Date.min) eqn:Hle; [|done]. simpl.
      by apply date_leb_antisym. }
    rewrite Hlast. split; [apply elem_of_app; right; left|].
    intros d' Hd'. apply elem_of_app in Hd' as [Hd'|Hd'].
    + by apply Hinv in Hd'.
    + apply list_elem_of_singleton in Hd'. injection Hd' as ->.
      apply date_leb_refl.
Qed.

Lemma kb_loop_seen (rows : list row) (m : string) :
  m ≠ ""%string →
  match foldl kb_row ∅ rows !! m with
  | Some e => most_recent (sightings rows) m (last_seen_date e)
  | None => ∀ d, (m, d) ∉ sightings rows
  end.
Proof.
  revert m. induction rows as [|r rows IH] using rev_ind; intros m Hm.
  { simpl. rewrite lookup_empty. intros d Hd. by apply elem_of_nil in Hd. }
  rewrite foldl_app, sightings_snoc. simpl. unfold kb_row at 1.
  destruct (parse_date_to_obj (get_str r "event_date")) as [d|] eqn:E.
  - assert (Hmin : Date.leb Date.min d = true).
    { apply parse_valid in E. apply date_leb_iff. simpl. lia. }
    pose proof (kb_side_seen _ d F1 r _ Hmin IH) as H1.
    pose proof (kb_side_seen _ d F2 r _ Hmin H1 m Hm) as H2.
    by rewrite <- app_assoc in H2.
  - rewrite app_nil_r. by apply IH.
Qed.

(** X13. The knowledge base and the activity pass agree on when a named
    competitor was last seen: the [last_seen_date] of the competitor's
    entry is the date that [apply_active_flags] finds, and the competitor
    has an entry exactly when that pass has a date for them. *)
Theorem kb_last_seen_agrees (rows : list row) (n : string) :
  n ≠ ""%string →
  last_seen_date <$> (build_fighter_kb rows !! n) = last_seen_of rows !! n.
Proof.
  intros Hn. unfold build_fighter_kb. rewrite lookup_fmap.
  pose proof (kb_loop_seen rows n Hn) as Hkb.
  destruct (last_seen_of_inv rows) as [_ Hls]. specialize (Hls n Hn).
  destruct (foldl kb_row ∅ rows !! n) as [e|],
           (last_seen_of rows !! n) as [d|]; simpl.
  - f_equal. by eapply most_recent_unique.
  - destruct Hkb as [Hin _]. by apply Hls in Hin.
  - destruct Hls as [Hin _]. by apply Hkb in Hin.
  - done.
Qed.

Lemma kb_last_seen_agrees_witness :
  let rows : list row :=
    [ {[ "event_date"%string := VStr "2025-08-23";
         "fighter_1"%string := VStr "A"; "fighter_2"%string := VStr "B" ]};
      {[ "event_date"%string := VStr "2024-01-13";
         "fighter_1"%string := VStr "a"; "fighter_2"%string := VStr "C" ]} ] in
  last_seen_date <$> (build_fighter_kb rows !! "a"%string)
  = last_seen_of rows !! "a"%string.
Proof. intros rows. apply (kb_last_seen_agrees rows "a"). discriminate. Defined.

(** ** Selection on recorded data *)

Lemma recorded_key_in_timeline (c : counter) (tl : timeline) (v : string) :
  recorded c tl → is_top c v → ∃ d, (d, v) ∈ tl.
Proof.
  intros (_ & _ & Hkeys & _) (n & Hin & _). apply Hkeys.
  apply list_elem_of_fmap. by exists (v, n).
Qed.

Lemma candidates_nonempty (c : counter) :
  c ≠ [] → candidates (most_common c) ≠ [].
Proof.
  intros Hc Hnil.
  destruct (most_common c) as [|x mc] eqn:E.
  - apply Hc. apply Permutation_nil_r. rewrite <- E. symmetry.
    apply stable_sort_perm.
  - unfold candidates in Hnil. rewrite filter_cons in Hnil. simpl in Hnil.
    by rewrite decide_True in Hnil.
Qed.

Lemma choose_mode_top (c : counter) (tl : timeline) :
  recorded c tl → c ≠ [] →
  ∃ v, choose_mode_with_recent_fallback c tl = Some v
       ∧ is_top c v ∧ is_blank (VStr v) = false.
Proof.
  intros Hrec Hc. pose proof Hrec as (Hnd & Hcount & Hkeys & Hnb).
  pose proof (candidates_nonempty c Hc) as Hne.
  assert (Hgood : ∀ v, v ∈ candidates (most_common c) →
            is_top c v ∧ is_blank (VStr v) = false).
  { intros v Hv. apply candidates_spec in Hv. split; [done|].
    destruct (recorded_key_in_timeline c tl v Hrec Hv) as [d Hd].
    by apply (Hnb (d, v)). }
  unfold choose_mode_with_recent_fallback. destruct c as [|x c']; [done|].
  set (cands := candidates (most_common (x :: c'))) in *.
  assert (Hfind : ∃ e, List.find (λ dv : date * string,
                           existsb (String.eqb (snd dv)) cands) (rev tl)
                       = Some e).
  { destruct (List.find _ (rev tl)) as [e|] eqn:E; [eauto|]. exfalso.
    destruct cands as [|v0 cs] eqn:Ec; [done|].
    destruct (Hgood v0 ltac:(left)) as [Htop _].
    destruct (recorded_key_in_timeline _ tl v0 Hrec Htop) as [d Hd].
    pose proof (find_none _ _ E (d, v0)) as Hf. simpl in Hf.
    rewrite String.eqb_refl in Hf. simpl in Hf.
    discriminate Hf. apply in_rev. rewrite rev_involutive.
    by apply list_elem_of_In. }
  destruct Hfind as [e He]. rewrite He.
  pose proof (find_some _ _ He) as [_ Hin].
  apply existsb_eqb_elem in Hin.
  destruct cands as [|v0 [|v1 cs]] eqn:Ec; [done| |].
  - exists v0. split; [done|]. apply Hgood. left.
  - exists (snd e). split; [done|]. by apply Hgood.
Qed.

(** X14. On a counter and timeline that record the same observations the
    mode selection never falls through: for an empty counter it returns
    [None], and otherwise it returns a value of highest count, which is not
    blank. *)
Theorem choose_mode_recorded (c : counter) (tl : timeline) :
  recorded c tl →
  (c = [] → choose_mode_with_recent_fallback c tl = None)
  ∧ (c ≠ [] → ∃ v, choose_mode_with_recent_fallback c tl = Some v
                   ∧ is_top c v ∧ is_blank (VStr v) = false).
Proof.
  intros Hrec. split; [|by apply choose_mode_top].
  destruct Hrec as (_ & _ & Hkeys & _).
  intros ->. unfold choose_mode_with_recent_fallback, recent_non_blank.
  destruct tl as [|[d v] tl]; [done|].
  exfalso. assert (v ∈ fst <$> ([] : counter)) as Hv by (apply Hkeys; exists d; left).
  by apply elem_of_nil in Hv.
Qed.

Lemma choose_mode_recorded_witness :
  (([("Brazil"%string, 2); ("USA"%string, 1)] : counter) = [] →
   choose_mode_with_recent_fallback
     [("Brazil"%string, 2); ("USA"%string, 1)]
     [(Date.mk 2020 1 1, "Brazil"%string); (Date.mk 2021 1 1, "USA"%string);
      (Date.mk 2022 1 1, "Brazil"%string)] = None)
  ∧ (([("Brazil"%string, 2); ("USA"%string, 1)] : counter) ≠ [] →
     ∃ v, choose_mode_with_recent_fallback
            [("Brazil"%string, 2); ("USA"%string, 1)]
            [(Date.mk 2020 1 1, "Brazil"%string);
             (Date.mk 2021 1 1, "USA"%string);
             (Date.mk 2022 1 1, "Brazil"%string)] = Some v
          ∧ is_top [("Brazil"%string, 2); ("USA"%string, 1)] v
          ∧ is_blank (VStr v) = false).
Proof.
  apply choose_mode_recorded.
  split; [apply (bool_decide_unpack _); vm_compute; exact I|].
  split; [|split].
  - intros v. unfold occurrences. cbn [count_of].
    destruct (String.eqb_spec "Brazil" v) as [<-|H1]; [done|].
    destruct (String.eqb_spec "USA" v) as [<-|H2]; [done|].
    rewrite !filter_cons, filter_nil. simpl.
    rewrite !decide_False by done. done.
  - intros v. rewrite !fmap_cons, fmap_nil. cbn [fst].
    rewrite !elem_of_cons, elem_of_nil. split.
    + intros [->|[->|[]]]; eexists; [left|right; left].
    + intros [d Hd]. rewrite !elem_of_cons, elem_of_nil in Hd.
      destruct Hd as [[= _ ->]|[[= _ ->]|[[= _ ->]|[]]]]; auto.
  - intros e. rewrite !elem_of_cons, elem_of_nil.
    intros [->|[->|[->|[]]]]; reflexivity.
Defined.

Lemma find_gym_in_timeline (tl : timeline) (target : date)
    (mode_value : option string) :
  chronological tl →
  (∀ e, e ∈ tl → is_blank (VStr (snd e)) = false) →
  tl ≠ [] →
  ∃ e, e ∈ tl ∧ find_gym_for_date tl target mode_value = Some (snd e).
Proof.
  intros Hs Hnb Hne.
  unfold find_gym_for_date. rewrite (scan_prev_sorted _ _ _ Hs).
  destruct (List.find (at_or_before target) (rev tl)) as [e|] eqn:E.
  - pose proof (find_some _ _ E) as [Hin _].
    apply in_rev, list_elem_of_In in Hin.
    simpl. rewrite (non_blank_truthy _ (Hnb e Hin)). eauto.
  - simpl. destruct tl as [|e0 tl']; [done|].
    assert (Hafter : at_or_after target e0 = true).
    { pose proof (find_none _ _ E e0) as Hf.
      rewrite <- in_rev in Hf. specialize (Hf (or_introl eq_refl)).
      unfold at_or_before, at_or_after, Date.geb in *.
      rewrite (Hnb e0) in * by left. simpl in *.
      rewrite andb_true_r in *.
      destruct (date_leb_total (fst e0) target); congruence. }
    simpl. rewrite Hafter. exists e0. split; [left|done].
Qed.

(** X15. On a timeline sorted by date that has entries, none of them
    blank, the date-proximate selection always answers with the value of
    one of the entries and never falls back to the mode; on an empty
    timeline it returns the mode it was given. *)
Theorem find_gym_for_date_recorded (tl : timeline) (target : date)
    (mode_value : option string) :
  chronological tl →
  (∀ e, e ∈ tl → is_blank (VStr (snd e)) = false) →
  (tl = [] → find_gym_for_date tl target mode_value = mode_value)
  ∧ (tl ≠ [] → ∃ e, e ∈ tl
                    ∧ find_gym_for_date tl target mode_value = Some (snd e)).
Proof.
  intros Hs Hnb. split; [by intros ->|]. by apply find_gym_in_timeline.
Qed.

Lemma find_gym_for_date_recorded_witness :
  let tl := [(Date.mk 2020 3 7, "Camp A"%string);
             (Date.mk 2023 1 21, "Camp B"%string)] in
  (tl = [] → find_gym_for_date tl (Date.mk 2021 1 1) None = None)
  ∧ (tl ≠ [] → ∃ e, e ∈ tl
                    ∧ find_gym_for_date tl (Date.mk 2021 1 1) None
                      = Some (snd e)).
Proof.
  intros tl. apply find_gym_for_date_recorded.
  - repeat constructor.
  - intros e. unfold tl. rewrite !elem_of_cons, elem_of_nil.
    intros [->|[->|[]]]; reflexivity.
Defined.

(** ** Backfill *)

Lemma guarded_fill_lookup (col k : string) (best : option string) (r : row) :
  (if is_blank (get_cell r col) then fill col best r else r) !! k
  = if decide (k = col) then fill_cell best (r !! col) else r !! k.
Proof.
  unfold fill_cell, fill, get_cell.
  destruct (is_blank (default (VStr "") (r !! col))).
  - destruct best as [b|]; [|by case_decide; subst].
    destruct (Py.truthy b && negb (is_blank (VStr b))); [|by case_decide; subst].
    case_decide as Hk; [subst; by rewrite lookup_insert_eq|].
    by rewrite lookup_insert_ne.
  - by case_decide; subst.
Qed.

Lemma side_cols_distinct (s s' : side) :
  born_col s ≠ gym_col s'
  ∧ born_col s ≠ side_col s' ∧ gym_col s ≠ side_col s'
  ∧ born_col s ≠ "event_date"%string ∧ gym_col s ≠ "event_date"%string
  ∧ (s ≠ s' → born_col s ≠ born_col s' ∧ gym_col s ≠ gym_col s').
Proof. by destruct s, s'. Qed.

(** The row that the backfill of one side leaves, cell by cell. *)
Lemma backfill_side_lookup (kb : gmap string kbe) (d : date) (s : side)
    (r : row) (k : string) :
  backfill_side kb d s r !! k = side_cell d s (side_info kb s r) k (r !! k).
Proof.
  unfold backfill_side, side_info, side_cell.
  destruct (Py.truthy (get_str r (side_col s))); simpl; [|done].
  destruct (kb !! norm_name (get_str r (side_col s))) as [info|]; [|done].
  rewrite guarded_fill_lookup.
  destruct (side_cols_distinct s s) as (Hbg & _).
  case_decide as Hg.
  - subst k. rewrite decide_False by (by apply not_eq_sym).
    f_equal. rewrite guarded_fill_lookup. by rewrite decide_False by (by apply not_eq_sym).
  - rewrite guarded_fill_lookup. case_decide as Hb; [by subst|done].
Qed.

Lemma side_info_ext (kb : gmap string kbe) (s : side) (r r' : row) :
  r' !! side_col s = r !! side_col s → side_info kb s r' = side_info kb s r.
Proof. intros H. unfold side_info, get_str. by rewrite H. Qed.

Lemma fill_cell_idem (best : option string) (cell : option pyval) :
  fill_cell best (fill_cell best cell) = fill_cell best cell.
Proof.
  unfold fill_cell.
  destruct (is_blank (default (VStr "") cell)) eqn:Hc; [|by rewrite Hc].
  destruct best as [b|]; [|by rewrite Hc].
  destruct (Py.truthy b && negb (is_blank (VStr b))) eqn:Hb; [|by rewrite Hc].
  apply andb_true_iff in Hb as [_ Hb]. apply negb_true_iff in Hb.
  change (default (VStr "") (Some (VStr b))) with (VStr b). by rewrite Hb.
Qed.

Lemma fill_cell_cases (best : option string) (cell : option pyval) :
  (is_blank (default (VStr "") cell) = false → fill_cell best cell = cell)
  ∧ (fill_cell best cell = cell
     ∨ ∃ b, best = Some b ∧ fill_cell best cell = Some (VStr b)
            ∧ is_blank (VStr b) = false
            ∧ is_blank (default (VStr "") cell) = true).
Proof.
  unfold fill_cell. destruct (is_blank (default (VStr "") cell)); [|by auto].
  split; [done|]. destruct best as [b|]; [|by left].
  destruct (Py.truthy b && negb (is_blank (VStr b))) eqn:Hb; [|by left].
  right. exists b. apply andb_true_iff in Hb as [_ Hb].
  apply negb_true_iff in Hb. done.
Qed.

Lemma side_cell_idem (d : date) (s : side) (info : option kbe) (k : string)
    (cell : option pyval) :
  side_cell d s info k (side_cell d s info k cell) = side_cell d s info k cell.
Proof.
  unfold side_cell. destruct info; [|done].
  repeat case_decide; try done; apply fill_cell_idem.
Qed.

Lemma side_cell_comm (d : date) (i1 i2 : option kbe) (k : string)
    (cell : option pyval) :
  side_cell d F1 i1 k (side_cell d F2 i2 k cell)
  = side_cell d F2 i2 k (side_cell d F1 i1 k cell).
Proof.
  unfold side_cell. destruct i1, i2; try done.
  repeat case_decide; try done; subst; done.
Qed.

Lemma side_cell_other (d : date) (s : side) (info : option kbe) (k : string)
    (cell : option pyval) :
  k ≠ born_col s → k ≠ gym_col s → side_cell d s info k cell = cell.
Proof.
  intros Hb Hg. unfold side_cell. destruct info; [|done].
  by rewrite !decide_False.
Qed.

Lemma side_cell_cases (d : date) (s : side) (info : option kbe) (k : string)
    (cell : option pyval) :
  side_cell d s info k cell = cell
  ∨ ∃ b, side_cell d s info k cell = Some (VStr b)
         ∧ is_blank (VStr b) = false
         ∧ is_blank (default (VStr "") cell) = true.
Proof.
  unfold side_cell. destruct info; [|by left].
  repeat case_decide; try (by left);
    match goal with
    | |- context [fill_cell ?b ?c] =>
        destruct (proj2 (fill_cell_cases b c)) as [->|(x & _ & -> & ? & ?)];
          [by left|right; by exists x]
    end.
Qed.

Lemma backfill_side_other (kb : gmap string kbe) (d : date) (s : side)
    (r : row) (k : string) :
  k ≠ born_col s → k ≠ gym_col s → backfill_side kb d s r !! k = r !! k.
Proof.
  intros Hb Hg. rewrite backfill_side_lookup. by apply side_cell_other.
Qed.

(** The row that the backfill leaves, cell by cell. *)
Lemma backfill_row_lookup (kb : gmap string kbe) (r : row) (k : string) :
  backfill_row kb r !! k
  = side_cell (default Date.min (parse_date_to_obj (get_str r "event_date")))
      F2 (side_info kb F2 r) k
      (side_cell (default Date.min (parse_date_to_obj (get_str r "event_date")))
         F1 (side_info kb F1 r) k (r !! k)).
Proof.
  unfold backfill_row. rewrite !backfill_side_lookup.
  f_equal. apply side_info_ext. by rewrite backfill_side_other.
Qed.

Lemma backfill_row_keeps (kb : gmap string kbe) (r : row) (k : string) :
  (∀ s, k ≠ born_col s ∧ k ≠ gym_col s) → backfill_row kb r !! k = r !! k.
Proof.
  intros Hk. rewrite backfill_row_lookup.
  rewrite !side_cell_other; [done|apply Hk..].
Qed.

(** X16. The backfill of a row touches only the four born and gym cells;
    it leaves a cell that is not blank as it is; a cell it does change
    receives a string that is not blank; and running it again on its own
    result with the same knowledge base changes nothing. *)
Theorem backfill_row_careful (kb : gmap string kbe) (r : row) (k : string) :
  ((∀ s, k ≠ born_col s ∧ k ≠ gym_col s) → backfill_row kb r !! k = r !! k)
  ∧ (is_blank (get_cell r k) = false → backfill_row kb r !! k = r !! k)
  ∧ (backfill_row kb r !! k = r !! k
     ∨ ∃ b, backfill_row kb r !! k = Some (VStr b)
            ∧ is_blank (VStr b) = false)
  ∧ backfill_row kb (backfill_row kb r) = backfill_row kb r.
Proof.
  assert (Hcell : backfill_row kb r !! k = r !! k
            ∨ ∃ b, backfill_row kb r !! k = Some (VStr b)
                   ∧ is_blank (VStr b) = false
                   ∧ is_blank (get_cell r k) = true).
  { rewrite backfill_row_lookup.
    set (d := default Date.min _).
    destruct (side_cell_cases d F1 (side_info kb F1 r) k (r !! k))
      as [->|(b1 & -> & Hb1 & Hbl1)];
      destruct (side_cell_cases d F2 (side_info kb F2 r) k (r !! k))
        as [H2|(b2 & H2 & Hb2 & Hbl2)]; rewrite ?H2; auto.
    - right. by exists b2.
    - destruct (side_cell_cases d F2 (side_info kb F2 r) k (Some (VStr b1)))
        as [->|(b3 & _ & _ & Hbl3)]; [right; by exists b1|].
      change (is_blank (VStr b1) = true) in Hbl3. congruence.
    - destruct (side_cell_cases d F2 (side_info kb F2 r) k (Some (VStr b1)))
        as [->|(b3 & _ & _ & Hbl3)]; [right; by exists b1|].
      change (is_blank (VStr b1) = true) in Hbl3. congruence. }
  split; [apply backfill_row_keeps|]. split; [|split].
  - intros Hnb. destruct Hcell as [H|(b & _ & _ & Hbl)]; [done|congruence].
  - destruct Hcell as [H|(b & H & Hb & _)]; [by left|right; eauto].
  - apply map_eq. intros j.
    rewrite (backfill_row_lookup kb (backfill_row kb r)).
    assert (Hd : get_str (backfill_row kb r) "event_date" = get_str r "event_date").
    { unfold get_str. rewrite backfill_row_keeps; [done|]. by intros []. }
    rewrite Hd.
    rewrite (side_info_ext kb F1 r (backfill_row kb r))
      by (apply backfill_row_keeps; by intros []).
    rewrite (side_info_ext kb F2 r (backfill_row kb r))
      by (apply backfill_row_keeps; by intros []).
    rewrite backfill_row_lookup.
    set (d := default Date.min _).
    rewrite (side_cell_comm d (side_info kb F1 r) (side_info kb F2 r) j).
    by rewrite !side_cell_idem.
Qed.

Lemma recorded_nonempty (c : counter) (tl : timeline) :
  recorded c tl → c ≠ [] → tl ≠ [].
Proof.
  intros (_ & _ & Hkeys & _) Hc ->. destruct c as [|[v n] c]; [done|].
  destruct (proj1 (Hkeys v)) as [d Hd]; [left|]. by apply elem_of_nil in Hd.
Qed.

Lemma fill_cell_some (b : string) (cell : option pyval) :
  is_blank (VStr b) = false →
  is_blank (default (VStr "") (fill_cell (Some b) cell)) = false.
Proof.
  intros Hb. unfold fill_cell.
  destruct (is_blank (default (VStr "") cell)) eqn:Hc; [|done].
  rewrite (non_blank_truthy b Hb), Hb. done.
Qed.

(** X17. Backfilling with the knowledge base built from a set of rows
    fills what is known: when the entry used for a side of a row has any
    recorded born value, the born cell of that side is not blank
    afterwards, and likewise for the gym. *)
Theorem backfill_fills_known (rows : list row) (r : row) (s : side)
    (info : kbe) :
  side_info (build_fighter_kb rows) s r = Some info →
  (born_counts info ≠ [] →
   is_blank (get_cell (backfill_row (build_fighter_kb rows) r) (born_col s))
   = false)
  ∧ (gym_counts info ≠ [] →
     is_blank (get_cell (backfill_row (build_fighter_kb rows) r) (gym_col s))
     = false).
Proof.
  intros Hinfo.
  assert (Hkb : build_fighter_kb rows !! norm_name (get_str r (side_col s))
                = Some info).
  { unfold side_info in Hinfo. by destruct (Py.truthy _). }
  apply kb_entry_sorted in Hkb as (e0 & E & ->).
  destruct (kb_loop_recorded rows _ e0 E) as [Hb Hg].
  unfold get_cell.
  split; intros Hc; rewrite backfill_row_lookup.
  - destruct (choose_mode_top (born_counts e0) (sort_timeline (born_timeline e0)))
      as (v & Hv & _ & Hnb); [|done|].
    { eapply recorded_perm; [symmetry; apply sort_timeline_perm|done]. }
    destruct s.
    + rewrite (side_cell_other _ F2) by done.
      rewrite Hinfo. unfold side_cell. rewrite decide_True by done.
      cbn [born_counts born_timeline sort_kbe]. rewrite Hv.
      by apply fill_cell_some.
    + rewrite (side_cell_other _ F1) by done.
      rewrite Hinfo. unfold side_cell. rewrite decide_True by done.
      cbn [born_counts born_timeline sort_kbe]. rewrite Hv.
      by apply fill_cell_some.
  - set (d := default Date.min _).
    assert (Hrec : recorded (gym_counts e0) (sort_timeline (gym_timeline e0))).
    { eapply recorded_perm; [symmetry; apply sort_timeline_perm|done]. }
    destruct (find_gym_in_timeline (sort_timeline (gym_timeline e0)) d
                (gym_mode (gym_counts e0)))
      as (e & He & Hfind).
    { apply sort_timeline_sorted. }
    { apply Hrec. }
    { by apply (recorded_nonempty (gym_counts e0)). }
    assert (Hnb : is_blank (VStr (snd e)) = false) by by apply Hrec.
    destruct s.
    + rewrite (side_cell_other _ F2) by done.
      rewrite Hinfo. unfold side_cell.
      rewrite decide_False, decide_True by done.
      cbn [gym_counts gym_timeline sort_kbe]. unfold gym_best. rewrite Hfind.
      by apply fill_cell_some.
    + rewrite (side_cell_other _ F1) by done.
      rewrite Hinfo. unfold side_cell.
      rewrite decide_False, decide_True by done.
      cbn [gym_counts gym_timeline sort_kbe]. unfold gym_best. rewrite Hfind.
      by apply fill_cell_some.
Qed.

Lemma backfill_fills_known_witness :
  let r : row :=
    {[ "event_date"%string := VStr "2024-01-13";
       "fighter_1"%string := VStr "A"; "fighter_2"%string := VStr "B";
       "fighter_1_born"%string := VStr "Dublin" ]} in
  let q : row :=
    {[ "event_date"%string := VStr "March 8, 2025";
       "fighter_1"%string := VStr "C"; "fighter_2"%string := VStr "a" ]} in
  is_blank (get_cell (backfill_row (build_fighter_kb [r; q]) q) (born_col F2))
  = false.
Proof.
  intros r q.
  pose (info := mk_kbe [("Dublin"%string, 1)]
                  [(Date.mk 2024 1 13, "Dublin"%string)] [] []
                  (Date.mk 2025 3 8)).
  assert (H : side_info (build_fighter_kb [r; q]) F2 q = Some info)
    by (vm_compute; reflexivity).
  apply (proj1 (backfill_fills_known [r; q] q F2 info H)).
  discriminate.
Defined.

(** ** What the counter pass leaves alone, and what it always writes *)

Lemma tally_from_bounds (rows : list row) (items : list item) (wl : Z * Z) :
  fst wl <= fst (tally_from rows wl items)
  ∧ snd wl <= snd (tally_from rows wl items)
  ∧ fst (tally_from rows wl items) + snd (tally_from rows wl items)
    <= fst wl + snd wl + Z.of_nat (length items).
Proof.
  revert wl. induction items as [|it rest IH]; intros wl.
  { simpl. lia. }
  unfold tally_from in *. cbn [foldl length].
  destruct wl as [w l].
  set (r := default ∅ (rows !! it_row it)).
  destruct (update_counts_step (it_side it) r w l) as (Hw & Hl & Hd & Hn).
  specialize (IH (update_counts (it_side it) r (w, l))).
  assert (fst (update_counts (it_side it) r (w, l))
          + snd (update_counts (it_side it) r (w, l)) <= w + l + 1).
  { destruct (decisive r).
    - destruct (Hd eq_refl) as [-> | ->]; simpl; lia.
    - rewrite (Hn eq_refl). simpl. lia. }
  simpl in *. lia.
Qed.

Lemma unnamed_side_no_entry (rows : list row) (i : nat) (r : row) (s : side)
    (e : string * list item) (it : item) :
  rows !! i = Some r →
  Py.truthy (norm_name (get_str r (side_col s))) = false →
  e ∈ collect 0 rows [] → it ∈ snd e → it_row it = i → it_side it ≠ s.
Proof.
  intros Hr Hn He Hit Hi Hs. destruct e as [m its].
  pose proof (timeline_entry_elem rows m its it He Hit) as Hin.
  apply appearances_elem in Hin as (Hm & _ & r0 & Hr0 & Hname & _).
  rewrite Nat.sub_0_r, Hi, Hr in Hr0. injection Hr0 as <-.
  rewrite Hs in Hname. congruence.
Qed.

Lemma counters_plain_cell (rows : list row) (i : nat) (r : row) (k : string) :
  rows !! i = Some r →
  (∀ s, k ≠ wins_col s ∧ k ≠ loss_col s) →
  ∃ r', compute_ufc_counters rows !! i = Some r' ∧ r' !! k = r !! k.
Proof.
  intros Hr Hk. apply counters_other_cell; [|done].
  intros e it _ _ _. apply Hk.
Qed.

Lemma counters_unnamed_cell (rows : list row) (i : nat) (r : row) (s : side)
    (k : string) :
  rows !! i = Some r →
  Py.truthy (norm_name (get_str r (side_col s))) = false →
  k = wins_col s ∨ k = loss_col s →
  ∃ r', compute_ufc_counters rows !! i = Some r' ∧ r' !! k = r !! k.
Proof.
  intros Hr Hn Hk. apply counters_other_cell; [|done].
  intros e it He Hit Hi.
  pose proof (unnamed_side_no_entry rows i r s e it Hr Hn He Hit Hi) as Hs.
  destruct (cols_distinct s (it_side it)) as [Hwl Hne].
  destruct (cols_distinct (it_side it) s) as [Hwl' _].
  destruct (Hne (not_eq_sym Hs)) as [Hww Hll].
  destruct Hk as [-> | ->]; split; congruence.
Qed.

(** X18. The counter pass keeps the number of rows, and in every row it
    changes nothing but counter cells: each cell outside the four counter
    columns is as before, and so are the two counter cells of a side whose
    normalised name is empty. *)
Theorem counters_frame (rows : list row) (i : nat) (r : row) :
  length (compute_ufc_counters rows) = length rows
  ∧ (rows !! i = Some r →
     ∃ r', compute_ufc_counters rows !! i = Some r'
           ∧ (∀ k, (∀ s, k ≠ wins_col s ∧ k ≠ loss_col s) → r' !! k = r !! k)
           ∧ (∀ s, Py.truthy (norm_name (get_str r (side_col s))) = false →
                   r' !! wins_col s = r !! wins_col s
                   ∧ r' !! loss_col s = r !! loss_col s)).
Proof.
  split; [apply counters_length|].
  intros Hr.
  destruct (counters_plain_cell rows i r "result" Hr) as (r' & Hr' & _).
  { intros s. by destruct s. }
  exists r'. split; [done|]. split.
  - intros k Hk.
    destruct (counters_plain_cell rows i r k Hr Hk) as (r'' & Hr'' & Hc).
    rewrite Hr' in Hr''. by injection Hr'' as <-.
  - intros s Hn.
    assert (Hcell : ∀ k, (k = wins_col s ∨ k = loss_col s) → r' !! k = r !! k).
    { intros k Hk.
      destruct (counters_unnamed_cell rows i r s k Hr Hn Hk)
        as (r'' & Hr'' & Hc).
      rewrite Hr' in Hr''. by injection Hr'' as <-. }
    split; apply Hcell; auto.
Qed.

(** X19. After the counter pass every side of a row with a non-empty
    normalised name carries two counters, written as decimal numbers: both
    are non-negative and together they are less than the number of entries
    in that competitor's timeline. *)
Theorem counters_cover (rows : list row) (i : nat) (r : row) (s : side) :
  rows !! i = Some r →
  Py.truthy (norm_name (get_str r (side_col s))) = true →
  ∃ r' w l,
    compute_ufc_counters rows !! i = Some r'
    ∧ r' !! wins_col s = Some (VStr (Py.str_int w))
    ∧ r' !! loss_col s = Some (VStr (Py.str_int l))
    ∧ 0 <= w ∧ 0 <= l
    ∧ w + l < Z.of_nat (length (tl_lookup (norm_name (get_str r (side_col s)))
                                          (collect 0 rows []))).
Proof.
  intros Hr Hn.
  set (n := norm_name (get_str r (side_col s))) in *.
  set (d := default Date.min (parse_date_to_obj (get_str r "event_date"))).
  assert (Hin : mkitem d s i ∈ sort_items (tl_lookup n (collect 0 rows []))).
  { rewrite (sort_items_perm (tl_lookup n (collect 0 rows []))).
    apply timeline_lookup_elem, appearances_elem. split; [done|].
    split; [simpl; lia|]. exists r. simpl. by rewrite Nat.sub_0_r. }
  apply list_elem_of_lookup in Hin as [k Hk].
  destruct (counters_written rows n k _ Hk) as (r' & Hr' & Hw & Hl).
  simpl in Hr', Hw, Hl.
  set (items := sort_items (tl_lookup n (collect 0 rows []))) in *.
  pose proof (tally_from_bounds rows (take k items) (0, 0)) as (H0 & H1 & H2).
  fold (tally_before rows (take k items)) in H0, H1, H2.
  exists r', (fst (tally_before rows (take k items))),
    (snd (tally_before rows (take k items))).
  split; [done|]. split; [done|]. split; [done|].
  split; [done|]. split; [done|].
  apply lookup_lt_Some in Hk.
  assert (length items = length (tl_lookup n (collect 0 rows []))) as <-.
  { unfold items. by rewrite (sort_items_perm (tl_lookup n (collect 0 rows []))). }
  rewrite length_take in H2. simpl in H2. lia.
Qed.

Lemma counters_cover_witness :
  let r_win : row :=
    {[ "event_date"%string := VStr "2024-01-13";
       "fighter_1"%string := VStr "A"; "fighter_2"%string := VStr "B";
       "result"%string := VStr "win" ]} in
  let r_loss : row :=
    {[ "event_date"%string := VStr "March 8, 2025";
       "fighter_1"%string := VStr "A"; "fighter_2"%string := VStr "C";
       "result"%string := VStr "loss" ]} in
  ∃ r' w l,
    compute_ufc_counters [r_loss; r_win] !! 0%nat = Some r'
    ∧ r' !! wins_col F1 = Some (VStr (Py.str_int w))
    ∧ r' !! loss_col F1 = Some (VStr (Py.str_int l))
    ∧ 0 <= w ∧ 0 <= l
    ∧ w + l < Z.of_nat (length (tl_lookup (norm_name (get_str r_loss (side_col F1)))
                                          (collect 0 [r_loss; r_win] []))).
Proof.
  intros r_win r_loss.
  apply (counters_cover [r_loss; r_win] 0 r_loss F1); reflexivity.
Defined.

(** ** What the activity pass leaves alone, and what it always writes *)

Lemma flagged_other (ls : gmap string date) (today : date) (cutoff : Z)
    (r : row) (k : string) :
  (∀ s, k ≠ active_col s) →
  flag_side ls today cutoff F2 (flag_side ls today cutoff F1 r) !! k = r !! k.
Proof. intros Hk. by rewrite !flag_side_read. Qed.

(** X20. The activity pass keeps the number of rows and changes nothing
    but the two activity cells of each row.  Each of these is written, as
    "TRUE" or "FALSE"; it is "FALSE" for a side whose normalised name is
    empty or has no row with a date that parses; and two sides with the
    same normalised name, anywhere in the rows, carry the same flag. *)
Theorem active_flags_frame (today : date) (rows : list row) (years : Z) :
  length (apply_active_flags today rows years) = length rows
  ∧ (∀ i r, rows !! i = Some r →
       ∃ r', apply_active_flags today rows years !! i = Some r'
             ∧ (∀ k, (∀ s, k ≠ active_col s) → r' !! k = r !! k)
             ∧ (∀ s, (r' !! active_col s = Some (VStr "TRUE")
                      ∨ r' !! active_col s = Some (VStr "FALSE"))
                     ∧ ((norm_name (get_str r (side_col s)) = ""%string
                         ∨ ∀ d, (norm_name (get_str r (side_col s)), d)
                                ∉ sightings rows) →
                        r' !! active_col s = Some (VStr "FALSE"))))
  ∧ (∀ i j ri rj s t,
       apply_active_flags today rows years !! i = Some ri →
       apply_active_flags today rows years !! j = Some rj →
       norm_name (get_str ri (side_col s)) = norm_name (get_str rj (side_col t)) →
       ri !! active_col s = rj !! active_col t).
Proof.
  unfold apply_active_flags. split; [by rewrite length_fmap|]. split.
  - intros i r Hr. rewrite list_lookup_fmap, Hr. simpl.
    eexists. split; [reflexivity|]. split; [apply flagged_other|].
    intros s. rewrite flagged_cell. split.
    { destruct (is_active _ _ _ _); auto. }
    intros Hnone. unfold is_active.
    destruct (last_seen_of_inv rows) as [H0 H].
    destruct (decide (norm_name (get_str r (side_col s)) = ""%string)) as [E|E].
    { by rewrite E, H0. }
    destruct Hnone as [?|Hnone]; [done|].
    specialize (H _ E).
    destruct (last_seen_of rows !! norm_name (get_str r (side_col s)))
      as [last|]; [|done].
    destruct H as [Hin _]. by apply Hnone in Hin.
  - intros i j ri rj s t Hi Hj Hn.
    rewrite list_lookup_fmap in Hi, Hj.
    destruct (rows !! i) as [r1|]; [|done].
    destruct (rows !! j) as [r2|]; [|done].
    simpl in Hi, Hj. injection Hi as <-. injection Hj as <-.
    rewrite !flag_side_name in Hn. rewrite !flagged_cell. by rewrite Hn.
Qed.

(** ** The columns of the written file *)

Lemma string_compare_lt_trans (a b c : string) :
  String.compare a b = Lt → String.compare b c = Lt → String.compare a c = Lt.
Proof.
  revert b c. induction a as [|x a IH]; intros [|y b] [|z c]; simpl; try done.
  unfold Ascii.compare.
  destruct (N.compare_spec (N_of_ascii x) (N_of_ascii y)) as [Exy|Lxy|Gxy];
    destruct (N.compare_spec (N_of_ascii y) (N_of_ascii z)) as [Eyz|Lyz|Gyz];
    try done.
  - rewrite Exy, Eyz, N.compare_refl. apply IH.
  - intros _ _. rewrite Exy. by apply N.compare_lt_iff in Lyz as ->.
  - intros _ _. rewrite <- Eyz. by apply N.compare_lt_iff in Lxy as ->.
  - intros _ _.
    assert (N_of_ascii x < N_of_ascii z)%N as Hlt by lia.
    by apply N.compare_lt_iff in Hlt as ->.
Qed.

Lemma string_leb_trans (a b c : string) :
  String.leb a b = true → String.leb b c = true → String.leb a c = true.
Proof.
  unfold String.leb.
  destruct (String.compare a b) eqn:Hab; [| |done];
    destruct (String.compare b c) eqn:Hbc; try done; intros _ _.
  - apply String.compare_eq_iff in Hab as ->. by rewrite Hbc.
  - apply String.compare_eq_iff in Hab as ->. by rewrite Hbc.
  - apply String.compare_eq_iff in Hbc as <-. by rewrite Hab.
  - by rewrite (string_compare_lt_trans a b c).
Qed.

Lemma sorted_filter {A} (R : relation A) (P : A → Prop)
    `{!∀ x, Decision (P x)} (l : list A) :
  Transitive R → Sorted R l → Sorted R (filter P l).
Proof.
  intros HR Hs. apply StronglySorted_Sorted.
  apply (Sorted_StronglySorted R) in Hs.
  induction Hs as [|x l Hs IH Hall]; [constructor|].
  rewrite filter_cons. destruct (decide (P x)); [|done].
  constructor; [done|].
  rewrite Forall_forall in *. intros y Hy.
  apply list_elem_of_filter in Hy as [_ Hy]. by apply Hall.
Qed.

Lemma filter_agree {A} (P Q : A → Prop) `{!∀ x, Decision (P x)}
    `{!∀ x, Decision (Q x)} (l : list A) :
  (∀ x, x ∈ l → P x ↔ Q x) → filter P l = filter Q l.
Proof.
  induction l as [|x l IH]; intros Hl; [done|].
  rewrite !filter_cons.
  rewrite IH by (intros y Hy; apply Hl; by right).
  pose proof (Hl x ltac:(left)) as Hx.
  destruct (decide (P x)), (decide (Q x)); tauto || done.
Qed.

Lemma append_unseen_spec (hs ordered : list string) :
  NoDup ordered →
  NoDup (append_unseen hs ordered)
  ∧ ∀ h, h ∈ append_unseen hs ordered ↔ h ∈ ordered ∨ h ∈ hs.
Proof.
  revert ordered. induction hs as [|x hs IH]; intros ordered Hnd.
  { simpl. split; [done|]. intros h. rewrite elem_of_nil. tauto. }
  simpl. case_bool_decide as Hx.
  - destruct (IH ordered Hnd) as [H1 H2]. split; [done|].
    intros h. rewrite H2, elem_of_cons. split; [tauto|].
    intros [?|[->|?]]; auto.
  - destruct (IH (ordered ++ [x])) as [H1 H2].
    { apply NoDup_app. split; [done|]. split; [|apply NoDup_singleton].
      intros y Hy Hy'. apply list_elem_of_singleton in Hy'. by subst y. }
    split; [done|].
    intros h. rewrite H2, elem_of_app, list_elem_of_singleton, elem_of_cons.
    tauto.
Qed.

Lemma append_unseen_filter (hs ordered : list string) :
  NoDup hs →
  append_unseen hs ordered = ordered ++ filter (λ h, h ∉ ordered) hs.
Proof.
  revert ordered. induction hs as [|x hs IH]; intros ordered Hnd.
  { simpl. by rewrite app_nil_r. }
  apply NoDup_cons in Hnd as [Hx Hnd].
  simpl. rewrite filter_cons. case_bool_decide as Hin.
  - rewrite decide_False by tauto. by apply IH.
  - rewrite decide_True by done. rewrite (IH _ Hnd), <- app_assoc. simpl.
    do 2 f_equal. apply filter_agree. intros h Hh.
    rewrite elem_of_app, list_elem_of_singleton.
    split; [tauto|]. intros Hno [?|E]; [tauto|]. subst h. tauto.
Qed.

Lemma sorted_headers_elem (rows : list row) (h : string) :
  h ∈ sorted_headers rows ↔ ∃ r, r ∈ rows ∧ is_Some (r !! h).
Proof.
  unfold sorted_headers, header_set.
  rewrite (stable_sort_perm String.leb), elem_of_elements, elem_of_union_list.
  split.
  - intros (X & HX & Hh). apply list_elem_of_fmap in HX as (r & -> & Hr).
    exists r. split; [done|]. by apply elem_of_dom.
  - intros (r & Hr & Hh). exists (dom r). split.
    + apply list_elem_of_fmap. eauto.
    + by apply elem_of_dom.
Qed.

(** X21. The columns that [write_csv] hands to the writer: no column
    occurs twice; the columns are exactly the priority headers and the
    keys of the rows; the priority headers come first, in the order of
    their first occurrence (the priority list itself when it has no
    repetition); the remaining keys follow in ascending string order; and
    every row is written with one cell per column, the empty string where
    the row has no such key. *)
Theorem write_csv_columns (rows : list row) (headers_priority : list string) :
  let ordered := ordered_headers rows headers_priority in
  NoDup ordered
  ∧ (∀ h, h ∈ ordered
          ↔ h ∈ headers_priority ∨ ∃ r, r ∈ rows ∧ is_Some (r !! h))
  ∧ (∃ rest, ordered = append_unseen headers_priority [] ++ rest
             ∧ Sorted (λ a b, String.leb a b = true) rest
             ∧ ∀ h, h ∈ rest
                    ↔ (h ∉ headers_priority)
                      ∧ ∃ r, r ∈ rows ∧ is_Some (r !! h))
  ∧ (NoDup headers_priority → append_unseen headers_priority [] = headers_priority)
  ∧ (∀ r i h, ordered !! i = Some h →
              written_row ordered r !! i = Some (default (VStr "") (r !! h))).
Proof.
  intros ordered. unfold ordered, ordered_headers.
  destruct (append_unseen_spec headers_priority []) as [Hnd Hel];
    [constructor|].
  destruct (append_unseen_spec (sorted_headers rows)
              (append_unseen headers_priority []) Hnd) as [Hnd' Hel'].
  assert (Hprio : ∀ h, h ∈ append_unseen headers_priority []
                       ↔ h ∈ headers_priority).
  { intros h. rewrite Hel, elem_of_nil. tauto. }
  split; [done|]. split.
  { intros h. by rewrite Hel', Hprio, sorted_headers_elem. }
  split.
  { eexists. split.
    - apply append_unseen_filter. unfold sorted_headers.
      rewrite (stable_sort_perm String.leb). apply NoDup_elements.
    - split.
      + apply sorted_filter.
        * intros a b c. apply string_leb_trans.
        * apply stable_sort_sorted, String.leb_total.
      + intros h. by rewrite list_elem_of_filter, Hprio, sorted_headers_elem. }
  split.
  { intros Hp. rewrite (append_unseen_filter _ _ Hp). simpl.
    clear. induction headers_priority as [|x l IH]; [done|].
    rewrite filter_cons, decide_True by apply not_elem_of_nil.
    by rewrite IH. }
  intros r i h Hi. unfold written_row. by rewrite list_lookup_fmap, Hi.
Qed.

(** ** The enrichment passes do not disturb each other *)

Lemma same_fight_get (r r' : row) (k : string) :
  same_fight r r' → k ∈ identity_cols → get_str r' k = get_str r k.
Proof. intros H Hk. unfold get_str. by rewrite (H k Hk). Qed.

Lemma same_fight_side (r r' : row) (s : side) :
  same_fight r r' → get_str r' (side_col s) = get_str r (side_col s).
Proof.
  intros H. apply same_fight_get; [done|].
  destruct s; unfold identity_cols; simpl; set_solver.
Qed.

Lemma same_fight_date (r r' : row) :
  same_fight r r' → get_str r' "event_date" = get_str r "event_date".
Proof. intros H. apply same_fight_get; [done|]. left. Qed.

Lemma collect_ext (rows rows' : list row) (i : nat)
    (tl : list (string * list item)) :
  Forall2 same_fight rows rows' → collect i rows' tl = collect i rows tl.
Proof.
  intros H. revert i tl. induction H as [|r r' rows rows' Hr _ IH]; [done|].
  intros i tl. simpl. rewrite IH. f_equal. unfold collect_row.
  pose proof (same_fight_side r r' F1 Hr) as H1.
  pose proof (same_fight_side r r' F2 Hr) as H2. cbn [side_col] in H1, H2.
  by rewrite (same_fight_date r r' Hr), H1, H2.
Qed.

Lemma last_seen_ext (rows rows' : list row) :
  Forall2 same_fight rows rows' → last_seen_of rows' = last_seen_of rows.
Proof.
  unfold last_seen_of. generalize (∅ : gmap string date).
  intros ls H. revert ls. induction H as [|r r' rows rows' Hr _ IH]; [done|].
  intros ls. simpl. rewrite IH. f_equal. unfold seen_row.
  pose proof (same_fight_side r r' F1 Hr) as H1.
  pose proof (same_fight_side r r' F2 Hr) as H2. cbn [side_col] in H1, H2.
  by rewrite (same_fight_date r r' Hr), H1, H2.
Qed.

Lemma tally_before_ext (rows rows' : list row) (items : list item) :
  Forall2 same_fight rows rows' →
  tally_before rows' items = tally_before rows items.
Proof.
  intros H. apply tally_from_ext. intros i.
  destruct (rows !! i) as [r|] eqn:Hr.
  - destruct (Forall2_lookup_l _ _ _ _ _ H Hr) as (r' & -> & Hs). simpl.
    apply Hs. unfold identity_cols. set_solver.
  - rewrite (proj2 (lookup_ge_None rows' i)); [done|].
    rewrite <- (Forall2_length _ _ _ H). by apply lookup_ge_None.
Qed.

(** The counters written on a side depend only on the dates, names and
    results of the rows. *)
Lemma counters_ext_cell (rows rows' : list row) (i : nat) (r r' : row)
    (s : side) :
  Forall2 same_fight rows rows' →
  rows !! i = Some r → rows' !! i = Some r' →
  r' !! wins_col s = r !! wins_col s →
  r' !! loss_col s = r !! loss_col s →
  ∃ c c', compute_ufc_counters rows !! i = Some c
          ∧ compute_ufc_counters rows' !! i = Some c'
          ∧ c' !! wins_col s = c !! wins_col s
          ∧ c' !! loss_col s = c !! loss_col s.
Proof.
  intros H Hr Hr' Hw Hl.
  assert (Hsame : same_fight r r').
  { destruct (Forall2_lookup_l _ _ _ _ _ H Hr) as (r0 & Hr0 & Hs).
    rewrite Hr' in Hr0. by injection Hr0 as <-. }
  destruct (Py.truthy (norm_name (get_str r (side_col s)))) eqn:Hn.
  - set (n := norm_name (get_str r (side_col s))) in *.
    set (d := default Date.min (parse_date_to_obj (get_str r "event_date"))).
    assert (Hin : mkitem d s i ∈ sort_items (tl_lookup n (collect 0 rows []))).
    { rewrite (sort_items_perm (tl_lookup n (collect 0 rows []))).
      apply timeline_lookup_elem, appearances_elem. split; [done|].
      split; [simpl; lia|]. exists r. simpl. by rewrite Nat.sub_0_r. }
    apply list_elem_of_lookup in Hin as [k Hk].
    destruct (counters_written rows n k _ Hk) as (c & Hc & Hcw & Hcl).
    rewrite <- (collect_ext rows rows' 0 [] H) in Hk.
    destruct (counters_written rows' n k _ Hk) as (c' & Hc' & Hcw' & Hcl').
    rewrite (collect_ext rows rows' 0 [] H) in Hcw', Hcl'.
    rewrite (tally_before_ext rows rows' _ H) in Hcw', Hcl'.
    simpl in *. exists c, c'. rewrite Hcw, Hcl, Hcw', Hcl'. done.
  - destruct (counters_unnamed_cell rows i r s (wins_col s) Hr Hn)
      as (c & Hc & Hcw); [by left|].
    destruct (counters_unnamed_cell rows i r s (loss_col s) Hr Hn)
      as (c0 & Hc0 & Hcl); [by right|].
    rewrite Hc in Hc0. injection Hc0 as <-.
    rewrite <- (same_fight_side r r' s Hsame) in Hn.
    destruct (counters_unnamed_cell rows' i r' s (wins_col s) Hr' Hn)
      as (c' & Hc' & Hcw'); [by left|].
    destruct (counters_unnamed_cell rows' i r' s (loss_col s) Hr' Hn)
      as (c0 & Hc0 & Hcl'); [by right|].
    rewrite Hc' in Hc0. injection Hc0 as <-.
    exists c, c'. rewrite Hcw, Hcl, Hcw', Hcl'. done.
Qed.

Lemma backfill_same_fight (kb : gmap string kbe) (r : row) :
  same_fight r (backfill_row kb r).
Proof.
  intros k Hk. apply backfill_row_keeps. intros s.
  unfold identity_cols in Hk. rewrite !elem_of_cons, elem_of_nil in Hk.
  destruct Hk as [->|[->|[->|[->|[]]]]]; by destruct s.
Qed.

Lemma counters_same_fight (rows : list row) :
  Forall2 same_fight rows (compute_ufc_counters rows).
Proof.
  apply Forall2_same_length_lookup. split.
  { unfold compute_ufc_counters. by rewrite counters_length. }
  intros i r c Hr Hc k Hk.
  destruct (counters_plain_cell rows i r k Hr) as (c' & Hc' & Hcell).
  { intros s. unfold identity_cols in Hk.
    rewrite !elem_of_cons, elem_of_nil in Hk.
    destruct Hk as [->|[->|[->|[->|[]]]]]; by destruct s. }
  congruence.
Qed.

(** X22. The enrichment that [main] runs is three passes over the same
    rows, and none disturbs another.  It keeps the number of rows; in each
    row every cell outside the ten derived columns is unchanged; the born
    and gym cells are those of the backfill from the knowledge base of the
    stored rows; and the counter and activity cells are the ones that
    [compute_ufc_counters] and [apply_active_flags] would have written on
    the stored rows directly. *)
Theorem enrich_passes_independent (today : date) (final_rows : list row)
    (i : nat) (r : row) :
  final_rows !! i = Some r →
  length (enrich today final_rows) = length final_rows
  ∧ ∃ r' c a,
      enrich today final_rows !! i = Some r'
      ∧ compute_ufc_counters final_rows !! i = Some c
      ∧ apply_active_flags today final_rows 3 !! i = Some a
      ∧ (∀ k, (∀ s, k ≠ born_col s ∧ k ≠ gym_col s ∧ k ≠ wins_col s
                    ∧ k ≠ loss_col s ∧ k ≠ active_col s) →
              r' !! k = r !! k)
      ∧ (∀ s,
           r' !! born_col s
           = backfill_row (build_fighter_kb final_rows) r !! born_col s
           ∧ r' !! gym_col s
             = backfill_row (build_fighter_kb final_rows) r !! gym_col s
           ∧ r' !! wins_col s = c !! wins_col s
           ∧ r' !! loss_col s = c !! loss_col s
           ∧ r' !! active_col s = a !! active_col s).
Proof.
  intros Hr. unfold enrich, backfill_born_gym. cbv zeta.
  set (kb := build_fighter_kb final_rows).
  set (B := backfill_row kb <$> final_rows).
  assert (HB : Forall2 same_fight final_rows B).
  { apply Forall2_fmap_r, Forall_Forall2_diag, Forall_forall.
    intros x _. apply backfill_same_fight. }
  assert (HrB : B !! i = Some (backfill_row kb r)).
  { unfold B. by rewrite list_lookup_fmap, Hr. }
  split.
  { unfold apply_active_flags, compute_ufc_counters.
    rewrite length_fmap, counters_length. unfold B. by rewrite length_fmap. }
  destruct (counters_ext_cell final_rows B i r (backfill_row kb r) F1 HB Hr HrB)
    as (c & c' & Hc & Hc' & Hw1 & Hl1);
    [by apply backfill_row_keeps; intros []..|].
  destruct (counters_ext_cell final_rows B i r (backfill_row kb r) F2 HB Hr HrB)
    as (c0 & c0' & Hc0 & Hc0' & Hw2 & Hl2);
    [by apply backfill_row_keeps; intros []..|].
  rewrite Hc in Hc0. injection Hc0 as <-.
  rewrite Hc' in Hc0'. injection Hc0' as <-.
  assert (HC : Forall2 same_fight final_rows (compute_ufc_counters B)).
  { apply Forall2_same_length_lookup. split.
    { unfold compute_ufc_counters, B. by rewrite counters_length, length_fmap. }
    intros j x y Hx Hy k Hk.
    destruct (Forall2_lookup_l _ _ _ _ _ HB Hx) as (b & Hb & Hxb).
    destruct (Forall2_lookup_l _ _ _ _ _ (counters_same_fight B) Hb)
      as (y' & Hy' & Hby).
    rewrite Hy in Hy'. injection Hy' as <-.
    by rewrite (Hby k Hk), (Hxb k Hk). }
  assert (Hcb : ∀ k, (∀ s, k ≠ wins_col s ∧ k ≠ loss_col s) →
                     c' !! k = backfill_row kb r !! k).
  { intros k Hk.
    destruct (counters_plain_cell B i _ k HrB Hk) as (c'' & Hc'' & Hcell).
    congruence. }
  unfold apply_active_flags.
  rewrite (last_seen_ext _ _ HC).
  rewrite !list_lookup_fmap, Hc', Hr. simpl.
  eexists _, c, _. split; [reflexivity|]. split; [done|].
  split; [reflexivity|]. split.
  - intros k Hk. rewrite flagged_other by (intros s; apply Hk).
    rewrite Hcb by (intros s; split; apply Hk).
    apply backfill_row_keeps. intros s. split; apply Hk.
  - intros s.
    rewrite !(flagged_other _ _ _ c') by (intros t; by destruct s, t).
    rewrite !Hcb by (intros t; by destruct s, t).
    split; [done|]. split; [done|].
    split; [by destruct s|]. split; [by destruct s|].
    rewrite !flagged_cell.
    assert (Hname : get_str c' (side_col s) = get_str r (side_col s)).
    { destruct (Forall2_lookup_l _ _ _ _ _ HC Hr) as (y & Hy & Hs).
      rewrite Hc' in Hy. injection Hy as <-. by apply same_fight_side. }
    by rewrite Hname.
Qed.

Lemma enrich_passes_independent_witness :
  let r : row :=
    {[ "event_date"%string := VStr "2024-01-13";
       "fighter_1"%string := VStr "A"; "fighter_2"%string := VStr "B";
       "result"%string := VStr "win" ]} in
  let today := Date.mk 2025 8 23 in
  length (enrich today [r]) = length [r]
  ∧ ∃ r' c a,
      enrich today [r] !! 0%nat = Some r'
      ∧ compute_ufc_counters [r] !! 0%nat = Some c
      ∧ apply_active_flags today [r] 3 !! 0%nat = Some a
      ∧ (∀ k, (∀ s, k ≠ born_col s ∧ k ≠ gym_col s ∧ k ≠ wins_col s
                    ∧ k ≠ loss_col s ∧ k ≠ active_col s) →
              r' !! k = r !! k)
      ∧ (∀ s,
           r' !! born_col s
           = backfill_row (build_fighter_kb [r]) r !! born_col s
           ∧ r' !! gym_col s
             = backfill_row (build_fighter_kb [r]) r !! gym_col s
           ∧ r' !! wins_col s = c !! wins_col s
           ∧ r' !! loss_col s = c !! loss_col s
           ∧ r' !! active_col s = a !! active_col s).
Proof.
  intros r today.
  apply (enrich_passes_independent today [r] 0 r). reflexivity.
Defined.
